(** * Residual-load scenario engine

    A shallow embedding of [engine.py] (class [ResidualLoadEngine]) and of
    the part of [metdesk_db.py] (class [MetDeskDBClient]) it calls, together
    with the pandas and numpy operations these two files use.

    Number model.  A cell of a table is an exact rational or the missing
    value NaN.  The operations are those of the code, in its order; their
    results are not rounded as binary64 rounds them, and an infinity is
    not told from NaN.  What is stated of a column is therefore stated
    through the operations that compute it; where a statement would hold
    of exact numbers only, it is made on binary64 numbers as well
    ([normalized_binary64] below).  Timestamps and issues are seconds
    since the epoch.  The two stores are tables of rows, a query is a
    filter over them.  A column read from the database is a float column:
    a fetch whose values are all NULL, which pandas reads as a column of
    objects and on which [np.nanstd] raises [TypeError], is read as a
    column of NaN like any other. *)

From Stdlib Require Import List String Ascii ZArith QArith Qround.
From Stdlib Require Import Lia Lqa Bool DecimalString DecimalNat.
From Stdlib Require Import Permutation Sorted.
From Corelib Require PrimFloat.
Import ListNotations.
Local Close Scope Q_scope.
Local Open Scope string_scope.

(* ================================================================= *)
(** ** Exceptions *)

Inductive exn : Type :=
| KeyError (key : string)
| OSError.

Inductive result (A : Type) : Type :=
| Ok (a : A)
| Raise (e : exn).
Arguments Ok {A} a.
Arguments Raise {A} e.

Definition bind {A B} (c : result A) (k : A -> result B) : result B :=
  match c with
  | Ok a => k a
  | Raise e => Raise e
  end.

Notation "x <- c ;; k" := (bind c (fun x => k))
  (at level 61, c at next level, right associativity).
Notation "' pat <- c ;; k" := (bind c (fun x => match x with pat => k end))
  (at level 61, pat pattern, c at next level, right associativity).

(** A [for] loop whose body may raise. *)
Fixpoint foldM {A S} (body : S -> A -> result S) (xs : list A) (s : S)
  : result S :=
  match xs with
  | [] => Ok s
  | x :: xs' => s' <- body s x ;; foldM body xs' s'
  end.

Fixpoint mapM {A B} (f : A -> result B) (xs : list A) : result (list B) :=
  match xs with
  | [] => Ok []
  | x :: xs' => y <- f x ;; ys <- mapM f xs' ;; Ok (y :: ys)
  end.

(* ================================================================= *)
(** ** Cells: floats with NaN *)

Inductive cell : Type :=
| Num (q : Q)
| NaN.

Definition cell_add (a b : cell) : cell :=
  match a, b with
  | Num x, Num y => Num (x + y)%Q
  | _, _ => NaN
  end.

Definition cell_sub (a b : cell) : cell :=
  match a, b with
  | Num x, Num y => Num (x - y)%Q
  | _, _ => NaN
  end.

Definition cell_mul (a b : cell) : cell :=
  match a, b with
  | Num x, Num y => Num (x * y)%Q
  | _, _ => NaN
  end.

Definition cell_neg (a : cell) : cell :=
  match a with
  | Num x => Num (- x)%Q
  | NaN => NaN
  end.

(** Float division never raises in numpy: a zero divisor gives an
    infinity, or NaN for [0 / 0].  The model has no infinity and gives
    NaN in both cases; no code of the engine reads such a quotient again.
    The quotient of two numbers is exact here and rounded in the code. *)
Definition cell_div (a b : cell) : cell :=
  match a, b with
  | Num x, Num y => if Qeq_bool y 0%Q then NaN else Num (x / y)%Q
  | _, _ => NaN
  end.

Definition isnan (a : cell) : bool :=
  match a with
  | NaN => true
  | Num _ => false
  end.

(** [Series.fillna(0)] on one cell. *)
Definition fillna0 (a : cell) : cell :=
  match a with
  | NaN => Num 0%Q
  | Num x => Num x
  end.

(** Equality of cells up to the representation of the rational. *)
Definition cell_eq (a b : cell) : Prop :=
  match a, b with
  | Num x, Num y => (x == y)%Q
  | NaN, NaN => True
  | _, _ => False
  end.

(** The float comparison [a <= b]: false as soon as one side is NaN. *)
Definition cell_le (a b : cell) : Prop :=
  match a, b with
  | Num x, Num y => (x <= y)%Q
  | _, _ => False
  end.

Definition cell_leb (a b : cell) : bool :=
  match a, b with
  | Num x, Num y => Qle_bool x y
  | _, _ => false
  end.

Definition zip_with {A B C} (f : A -> B -> C) (xs : list A) (ys : list B)
  : list C :=
  map (fun p => f (fst p) (snd p)) (combine xs ys).

(* ================================================================= *)
(** ** Sorting *)

Section Sorting.
Context {A : Type} (leb : A -> A -> bool).

Fixpoint insert (x : A) (l : list A) : list A :=
  match l with
  | [] => [x]
  | y :: l' => if leb x y then x :: l else y :: insert x l'
  end.

(** A stable insertion sort. *)
Fixpoint isort (l : list A) : list A :=
  match l with
  | [] => []
  | x :: l' => insert x (isort l')
  end.
End Sorting.

(** Sorted distinct keys, as a pandas index union or group keys are. *)
Definition sorted_unique (l : list Z) : list Z :=
  isort Z.leb (nodup Z.eq_dec l).

Definition sorted_unique_str (l : list string) : list string :=
  isort String.leb (nodup string_dec l).

(* ================================================================= *)
(** ** numpy reductions over one row, NaN ignored *)

(** The values left once the NaN are removed. *)
Fixpoint numbers (row : list cell) : list Q :=
  match row with
  | [] => []
  | Num q :: row' => q :: numbers row'
  | NaN :: row' => numbers row'
  end.

Definition Qsum (xs : list Q) : Q := fold_right Qplus 0%Q xs.

Definition Qlen (xs : list Q) : Q := inject_Z (Z.of_nat (List.length xs)).

Definition Qmean (xs : list Q) : Q := (Qsum xs / Qlen xs)%Q.

(** [np.nanmean]; an all-NaN row gives NaN.  The mean is exact here; the
    code rounds the sum and the quotient, so that its mean can leave the
    range of the row by a rounding error (0.1, 0.1, 0.1 give
    0.10000000000000002). *)
Definition nanmean (row : list cell) : cell :=
  match numbers row with
  | [] => NaN
  | xs => Num (Qmean xs)
  end.

(** [np.nanstd] (ddof 0).  A square root is not rational in general:
    [sqrt] stands for numpy's and is a parameter of every function that
    computes this column. *)
Definition nanstd (sqrt : Q -> Q) (row : list cell) : cell :=
  match numbers row with
  | [] => NaN
  | xs =>
      let m := Qmean xs in
      Num (sqrt (Qmean (map (fun x => ((x - m) * (x - m))%Q) xs)))
  end.

Definition Qmin' (a b : Q) : Q := if Qle_bool a b then a else b.
Definition Qmax' (a b : Q) : Q := if Qle_bool a b then b else a.

Definition nanmin (row : list cell) : cell :=
  match numbers row with
  | [] => NaN
  | x :: xs => Num (fold_left Qmin' xs x)
  end.

Definition nanmax (row : list cell) : cell :=
  match numbers row with
  | [] => NaN
  | x :: xs => Num (fold_left Qmax' xs x)
  end.

(** numpy's [_lerp]; for [t >= 0.5] numpy evaluates [b - (b - a) * (1 - t)],
    the same number. *)
Definition lerp (a b t : Q) : Q := (a + (b - a) * t)%Q.

(** The default (linear) method of [np.percentile] on sorted data: the
    virtual index [(n - 1) * p / 100], its floor and the next index clipped
    to the last one. *)
Definition percentile_sorted (xs : list Q) (p : Q) : Q :=
  let n := List.length xs in
  let v := (inject_Z (Z.of_nat (n - 1)) * (p / 100))%Q in
  let lo := Z.to_nat (Qfloor v) in
  let hi := Nat.min (lo + 1) (n - 1) in
  let gamma := (v - inject_Z (Qfloor v))%Q in
  lerp (nth lo xs 0%Q) (nth hi xs 0%Q) gamma.

(** [np.nanpercentile] on one row. *)
Definition nanpercentile (row : list cell) (p : nat) : cell :=
  match numbers row with
  | [] => NaN
  | xs => Num (percentile_sorted (isort Qle_bool xs) (inject_Z (Z.of_nat p)))
  end.

(* ================================================================= *)
(** ** Strings *)

Definition upper_ascii (c : ascii) : ascii :=
  let n := nat_of_ascii c in
  if (97 <=? n)%nat && (n <=? 122)%nat then ascii_of_nat (n - 32) else c.

Definition lower_ascii (c : ascii) : ascii :=
  let n := nat_of_ascii c in
  if (65 <=? n)%nat && (n <=? 90)%nat then ascii_of_nat (n + 32) else c.

Fixpoint map_string (f : ascii -> ascii) (s : string) : string :=
  match s with
  | EmptyString => EmptyString
  | String c s' => String (f c) (map_string f s')
  end.

(** [str.upper] and [str.lower] on ASCII text. *)
Definition upper (s : string) : string := map_string upper_ascii s.
Definition lower (s : string) : string := map_string lower_ascii s.

(** [str(i)] for a natural number. *)
Definition str (n : nat) : string := NilEmpty.string_of_uint (Nat.to_uint n).

(** The format [{i:02d}]. *)
Definition pad2 (n : nat) : string :=
  if (n <? 10)%nat then "0" ++ str n else str n.

(** The column names built with [{i:02d}]. *)
Definition wind_ens (i : nat) : string := "wind_ens_" ++ pad2 i.
Definition solar_ens (i : nat) : string := "solar_ens_" ++ pad2 i.
Definition total_ren_ens (i : nat) : string := "total_ren_ens_" ++ pad2 i.
Definition residual_ens (i : nat) : string := "residual_ens_" ++ pad2 i.

(** The column name [ens_P{p}]. *)
Definition ens_P (p : nat) : string := "ens_P" ++ str p.

Definition is_digit (c : ascii) : bool :=
  let n := nat_of_ascii c in (48 <=? n)%nat && (n <=? 57)%nat.

Fixpoint all_digits (s : string) : bool :=
  match s with
  | EmptyString => true
  | String c s' => is_digit c && all_digits s'
  end.

(** [int(col)] on a member key.  The ensemble query keeps the members
    ["1"] .. ["N"] only, so [int] sees plain decimals; any other text is
    taken to the [ValueError] branch. *)
Definition int (s : string) : option nat :=
  match s with
  | EmptyString => None
  | _ =>
      if all_digits s
      then option_map Nat.of_uint (NilEmpty.uint_of_string s)
      else None
  end.

(* ================================================================= *)
(** ** Data frames *)

(** A frame holds the timestamp column [utc_datetime] (seconds since the
    epoch), when it has one, and its float columns in order.
    [pd.DataFrame()] has neither. *)
Record DataFrame : Type := mkDF {
  utc_datetime : option (list Z);
  columns : list (string * list cell)
}.

Definition DataFrame_new : DataFrame := mkDF None [].

Definition nrows (df : DataFrame) : nat :=
  match utc_datetime df with
  | Some ts => List.length ts
  | None =>
      match columns df with
      | [] => 0
      | c :: _ => List.length (snd c)
      end
  end.

Definition ncols (df : DataFrame) : nat :=
  match utc_datetime df with
  | Some _ => S (List.length (columns df))
  | None => List.length (columns df)
  end.

(** [df.empty]: an axis of length zero. *)
Definition empty (df : DataFrame) : bool :=
  (ncols df =? 0)%nat || (nrows df =? 0)%nat.

Fixpoint lookup (name : string) (cols : list (string * list cell))
  : option (list cell) :=
  match cols with
  | [] => None
  | c :: cols' => if fst c =? name then Some (snd c) else lookup name cols'
  end.

Definition names (df : DataFrame) : list string := map fst (columns df).

(** [name in df.columns], for a float column. *)
Definition has_column (name : string) (df : DataFrame) : bool :=
  existsb (String.eqb name) (names df).

(** [df[name]]. *)
Definition getitem (df : DataFrame) (name : string) : result (list cell) :=
  match lookup name (columns df) with
  | Some c => Ok c
  | None => Raise (KeyError name)
  end.

(** [df["utc_datetime"]]. *)
Definition getitem_time (df : DataFrame) : result (list Z) :=
  match utc_datetime df with
  | Some ts => Ok ts
  | None => Raise (KeyError "utc_datetime")
  end.

Fixpoint replace_col (name : string) (c : list cell)
  (cols : list (string * list cell)) : list (string * list cell) :=
  match cols with
  | [] => []
  | d :: cols' =>
      (if fst d =? name then (name, c) else d) :: replace_col name c cols'
  end.

(** [df[name] = c]: overwrite in place, or append a new column. *)
Definition setitem (df : DataFrame) (name : string) (c : list cell)
  : DataFrame :=
  if has_column name df
  then mkDF (utc_datetime df) (replace_col name c (columns df))
  else mkDF (utc_datetime df) (columns df ++ [(name, c)]).

(** [df.rename(columns = f)]. *)
Definition rename (f : string -> string) (df : DataFrame) : DataFrame :=
  mkDF (utc_datetime df) (map (fun c => (f (fst c), snd c)) (columns df)).

(** Row selection by position; [None] stands for a row the other side of a
    join does not have. *)
Definition take (idx : list (option nat)) (c : list cell) : list cell :=
  map (fun oi => match oi with
                 | Some i => nth i c NaN
                 | None => NaN
                 end) idx.

(** [df[cols].values], row by row. *)
Definition values (n : nat) (cols : list (list cell)) : list (list cell) :=
  map (fun k => map (fun c => nth k c NaN) cols) (seq 0 n).

Definition enumerate {A} (l : list A) : list (nat * A) :=
  combine (seq 0 (List.length l)) l.

(** The positions of key [t] in [ts]. *)
Definition positions (t : Z) (ts : list Z) : list nat :=
  map fst (filter (fun jt => Z.eqb (snd jt) t) (enumerate ts)).

(** One row of a join: the key and the row taken on each side. *)
Record joined : Type := mkJoined {
  key : Z;
  left_row : option nat;
  right_row : option nat
}.

(** Inner join: the order of the left keys, each with its matches. *)
Definition inner_rows (lt rt : list Z) : list joined :=
  flat_map (fun it =>
              map (fun j => mkJoined (snd it) (Some (fst it)) (Some j))
                  (positions (snd it) rt))
           (enumerate lt).

(** Outer join: the union of the keys, sorted. *)
Definition outer_rows (lt rt : list Z) : list joined :=
  flat_map (fun t =>
              match positions t lt, positions t rt with
              | [], rj => map (fun j => mkJoined t None (Some j)) rj
              | li, [] => map (fun i => mkJoined t (Some i) None) li
              | li, rj =>
                  flat_map (fun i =>
                              map (fun j => mkJoined t (Some i) (Some j)) rj)
                           li
              end)
           (sorted_unique (lt ++ rt)).

Inductive how : Type := Inner | Outer.

Definition join_rows (h : how) (lt rt : list Z) : list joined :=
  match h with
  | Inner => inner_rows lt rt
  | Outer => outer_rows lt rt
  end.

Definition suffixed (others : list string) (suffix name : string) : string :=
  if existsb (String.eqb name) others then name ++ suffix else name.

(** [left.merge(right, on="utc_datetime", how=h, suffixes=(sl, sr))]. *)
Definition merge (h : how) (sl sr : string) (left right : DataFrame)
  : result DataFrame :=
  lt <- getitem_time left ;;
  rt <- getitem_time right ;;
  let rows := join_rows h lt rt in
  Ok (mkDF (Some (map key rows))
        (map (fun c => (suffixed (names right) sl (fst c),
                        take (map left_row rows) (snd c)))
             (columns left)
         ++
         map (fun c => (suffixed (names left) sr (fst c),
                        take (map right_row rows) (snd c)))
             (columns right))).

(** [df.sort_values("utc_datetime").reset_index(drop=True)]; rows with
    the same timestamp keep their order. *)
Definition sort_values (df : DataFrame) : result DataFrame :=
  ts <- getitem_time df ;;
  let order := isort (fun a b => Z.leb (snd a) (snd b)) (enumerate ts) in
  Ok (mkDF (Some (map snd order))
        (map (fun c => (fst c, take (map (fun a => Some (fst a)) order)
                                     (snd c)))
             (columns df))).

(** [df.fillna(0)]. *)
Definition fillna (df : DataFrame) : DataFrame :=
  mkDF (utc_datetime df)
       (map (fun c => (fst c, map fillna0 (snd c))) (columns df)).

(** [df[cols]]: every column carrying one of the labels. *)
Definition getitems (df : DataFrame) (cols : list string)
  : result (list (list cell)) :=
  parts <- mapM (fun n =>
                   match filter (fun c => fst c =? n) (columns df) with
                   | [] => Raise (KeyError n)
                   | cs => Ok (map snd cs)
                   end) cols ;;
  Ok (List.concat parts).

(* ================================================================= *)
(** ** config.py *)

Definition COUNTRY : string := "FR".

Record model_config : Type := mkModel {
  label : string;
  description : string;
  n_members : nat
}.

Definition AVAILABLE_MODELS : list (string * model_config) :=
  [ ("eceps", mkModel "ECMWF ENS (eceps)"
        "ECMWF Ensemble - 50 members, 15-day horizon" 50);
    ("ec46", mkModel "ECMWF Extended (ec46)"
        "ECMWF Extended Range - 99 members, 46-day horizon" 99);
    ("gfsens", mkModel "GFS Ensemble (gfsens)"
        "NCEP GFS Ensemble - 30 members, 16-day horizon" 30);
    ("ecaifsens", mkModel "ECMWF AIFS ENS (ecaifsens)"
        "ECMWF AI-based Ensemble - 50 members, 15-day horizon" 50) ].

(** [AVAILABLE_MODELS[model]]. *)
Definition available_model (model : string) : result model_config :=
  match find (fun m => fst m =? model) AVAILABLE_MODELS with
  | Some m => Ok (snd m)
  | None => Raise (KeyError model)
  end.

(* ================================================================= *)
(** ** The forecast store and the consumption store *)

(** One row of [silver.metdesk_forecasts]; a NULL value is NaN. *)
Record forecast_row : Type := mkForecast {
  f_location : string;
  f_model : string;
  f_element : string;
  f_issue : Z;
  f_member : string;
  f_utc : Z;
  f_value : cell
}.

(** One row of [silver.eq_consumption]. *)
Record consumption_row : Type := mkConsumption {
  c_country : string;
  c_utc : Z;
  consumption_fcst_latest : cell;
  consumption_act : cell
}.

(** The database as one call sees it.  When it is not [reachable] every
    query raises inside the client. *)
Record Store : Type := mkStore {
  metdesk_forecasts : list forecast_row;
  eq_consumption : list consumption_row;
  reachable : bool;
  CURRENT_TIMESTAMP : Z
}.

Definition two_days : Z := 172800.

(** The [LIMIT 50000] of the forecast queries. *)
Definition LIMIT : nat := 500 * 100.

Definition or_default (d : string) (o : option string) : string :=
  match o with
  | Some s => s
  | None => d
  end.

(** [ORDER BY utc_datetime, member]. *)
Definition by_time_member (a b : forecast_row) : bool :=
  (f_utc a <? f_utc b)%Z
  || ((f_utc a =? f_utc b)%Z && String.leb (f_member a) (f_member b)).

Definition first_value (t : Z) (m : string) (rows : list forecast_row)
  : cell :=
  match find (fun r => (f_utc r =? t)%Z && (f_member r =? m)) rows with
  | Some r => f_value r
  | None => NaN
  end.

(** [df.pivot_table(index="utc_datetime", columns="member",
    values="value", aggfunc="first").reset_index()].  The aggregate takes
    the first value that is not NaN; groups, and then rows and columns,
    without one are dropped; index and columns come out sorted. *)
Definition pivot_table (rows : list forecast_row) : DataFrame :=
  let live := filter (fun r => negb (isnan (f_value r))) rows in
  let index := sorted_unique (map f_utc live) in
  let members := sorted_unique_str (map f_member live) in
  mkDF (Some index)
       (map (fun m => (m, map (fun t => first_value t m live) index))
            members).

Module MetDeskDBClient.

Definition _get_latest_issue (db : Store) (model element : string)
  (location : option string) : option Z :=
  let location := or_default COUNTRY location in
  if reachable db then
    match
      map f_issue
          (filter (fun r => (f_location r =? location)
                            && (f_model r =? model)
                            && (f_element r =? element))
                  (metdesk_forecasts db))
    with
    | [] => None
    | i :: rest => Some (fold_left Z.max rest i)
    end
  else None.

(** The [rename_map] of [get_ensemble_forecasts]. *)
Definition ens_name (col : string) : string :=
  match int col with
  | Some i => "ens_" ++ pad2 i
  | None => "ens_" ++ col
  end.

(** The query of [get_ensemble_forecasts]. *)
Definition select_ensemble (db : Store) (location model element : string)
  (issue : Z) (members : list string) : list forecast_row :=
  firstn LIMIT
    (isort by_time_member
       (filter (fun r =>
                  (f_location r =? location)
                  && (f_model r =? model)
                  && (f_element r =? element)
                  && (f_issue r =? issue)%Z
                  && existsb (String.eqb (f_member r)) members
                  && (CURRENT_TIMESTAMP db - two_days <=? f_utc r)%Z)
               (metdesk_forecasts db))).

(** Without an issue the latest one is looked up with the default
    location, whatever [location] is. *)
Definition get_ensemble_forecasts (db : Store) (model element : string)
  (issue : option Z) (location : option string) : result DataFrame :=
  let location := or_default COUNTRY location in
  match
    match issue with
    | Some i => Some i
    | None => _get_latest_issue db model element None
    end
  with
  | None => Ok DataFrame_new
  | Some issue =>
      cfg <- available_model model ;;
      let numeric_members := map str (seq 1 (n_members cfg)) in
      if negb (reachable db) then Ok DataFrame_new
      else
        let df :=
          select_ensemble db location model element issue
                          numeric_members in
        match df with
        | [] => Ok DataFrame_new
        | _ :: _ =>
            let pivot := pivot_table df in
            let pivot := rename ens_name pivot in
            sort_values pivot
        end
  end.

Definition get_renewable_ensembles (db : Store) (model : string)
  (issue : option Z) (location : option string) : result DataFrame :=
  wind <- get_ensemble_forecasts db model "wind" issue location ;;
  solar <- get_ensemble_forecasts db model "solar" issue location ;;
  if empty wind && empty solar then Ok DataFrame_new
  else
    let wind_renamed :=
      if negb (empty wind) then rename (fun c => "wind_" ++ c) wind
      else DataFrame_new in
    let solar_renamed :=
      if negb (empty solar) then rename (fun c => "solar_" ++ c) solar
      else DataFrame_new in
    if empty wind_renamed then Ok solar_renamed
    else if empty solar_renamed then Ok wind_renamed
    else
      df <- merge Outer "_x" "_y" wind_renamed solar_renamed ;;
      let df := fillna df in
      cfg <- available_model model ;;
      ' (df, total_ren_cols) <-
        foldM (fun (acc : DataFrame * list string) i =>
                 let (df, total_ren_cols) := acc in
                 let w_col := wind_ens i in
                 let s_col := solar_ens i in
                 if has_column w_col df && has_column s_col df then
                   w <- getitem df w_col ;;
                   s <- getitem df s_col ;;
                   Ok (setitem df (total_ren_ens i) (zip_with cell_add w s),
                       List.app total_ren_cols [total_ren_ens i])
                 else Ok (df, total_ren_cols))
              (seq 1 (n_members cfg)) (df, []) ;;
      Ok df.

Definition rename_inplace (col : string) (df : DataFrame) : DataFrame :=
  rename (fun c => if c =? col then "ens_" ++ col else c) df.

(** The query of [get_ensemble_by_issue_and_time]. *)
Definition select_window (db : Store) (location model element : string)
  (issue valid_start valid_end : Z) : list forecast_row :=
  firstn LIMIT
    (isort by_time_member
       (filter (fun r =>
                  (f_location r =? location)
                  && (f_model r =? model)
                  && (f_element r =? element)
                  && (f_issue r =? issue)%Z
                  && (valid_start <=? f_utc r)%Z
                  && (f_utc r <=? valid_end)%Z)
               (metdesk_forecasts db))).

(** The whole body runs under [try]: any exception gives
    [pd.DataFrame()]. *)
Definition get_ensemble_by_issue_and_time (db : Store)
  (model element : string) (issue valid_start valid_end : Z)
  (location : option string) : DataFrame :=
  let location := or_default COUNTRY location in
  if negb (reachable db) then DataFrame_new
  else
    let df :=
      select_window db location model element issue
                    valid_start valid_end in
    match df with
    | [] => DataFrame_new
    | _ :: _ =>
        let pivot := pivot_table df in
        let member_cols := names pivot in
        let pivot :=
          fold_left (fun pv col => rename_inplace col pv)
                    member_cols pivot in
        let ens_cols := filter (prefix "ens_") (names pivot) in
        match ens_cols with
        | [] => pivot
        | _ :: _ =>
            match getitems pivot ens_cols with
            | Ok cs =>
                setitem pivot "ens_mean"
                        (map nanmean (values (nrows pivot) cs))
            | Raise _ => DataFrame_new
            end
        end
    end.

Definition coalesce (a b : cell) : cell :=
  match a with
  | NaN => b
  | Num _ => a
  end.

Definition no_consumption : DataFrame :=
  mkDF (Some []) [("consumption_mw", [])].

Definition get_eq_consumption (db : Store) (issue : option Z)
  (location : option string) : DataFrame :=
  let location := or_default "fr" location in
  if negb (reachable db) then no_consumption
  else
    let rows :=
      firstn 500
        (isort (fun a b => Z.leb (c_utc b) (c_utc a))
           (filter (fun r =>
                      (lower (c_country r) =? location)
                      && (CURRENT_TIMESTAMP db - two_days <=? c_utc r)%Z)
                   (eq_consumption db))) in
    match rows with
    | [] => no_consumption
    | _ :: _ =>
        match
          sort_values
            (mkDF (Some (map c_utc rows))
               [("consumption_mw",
                 map (fun r => coalesce (consumption_fcst_latest r)
                                        (consumption_act r)) rows)])
        with
        | Ok df => df
        | Raise _ => no_consumption
        end
    end.

End MetDeskDBClient.

(* ================================================================= *)
(** ** Alignment of frames indexed by timestamp *)

(** The cell of column [name] on the first row stamped [t]; NaN where the
    frame has no such column or row. *)
Definition cell_at (df : DataFrame) (name : string) (t : Z) : cell :=
  match utc_datetime df, lookup name (columns df) with
  | Some ts, Some c =>
      match positions t ts with
      | i :: _ => nth i c NaN
      | [] => NaN
      end
  | _, _ => NaN
  end.

(** One cell of [a.add(b, fill_value=0)]: a side that is missing counts
    as zero, unless both are. *)
Definition add_fill0 (x y : cell) : cell :=
  match x, y with
  | NaN, NaN => NaN
  | _, _ => cell_add (fillna0 x) (fillna0 y)
  end.

Definition list_eqb {A} (eqb : A -> A -> bool) (l l' : list A) : bool :=
  (List.length l =? List.length l')%nat
  && forallb (fun p => eqb (fst p) (snd p)) (combine l l').

(** [a.set_index("utc_datetime").add(b.set_index("utc_datetime"),
    fill_value=0).reset_index()]: both axes are aligned on their union,
    which pandas sorts unless the two sides already agree.  The indexes
    come from pivots and hold each timestamp once. *)
Definition add (a b : DataFrame) : result DataFrame :=
  ta <- getitem_time a ;;
  tb <- getitem_time b ;;
  let index :=
    if list_eqb Z.eqb ta tb then ta else sorted_unique (ta ++ tb) in
  let cols :=
    if list_eqb String.eqb (names a) (names b) then names a
    else sorted_unique_str (names a ++ names b) in
  Ok (mkDF (Some index)
        (map (fun n =>
                (n, map (fun t => add_fill0 (cell_at a n t) (cell_at b n t))
                        index))
             cols)).

(** [pd.concat(frames, ignore_index=True)] for consumption frames, which
    all carry the columns [utc_datetime] and [consumption_mw]. *)
Definition concat (frames : list DataFrame) : result DataFrame :=
  parts <- mapM (fun df =>
                   ts <- getitem_time df ;;
                   c <- getitem df "consumption_mw" ;;
                   Ok (ts, c)) frames ;;
  Ok (mkDF (Some (List.concat (map fst parts)))
        [("consumption_mw", List.concat (map snd parts))]).

(** [df.groupby("utc_datetime", as_index=False)["consumption_mw"].sum()]:
    one row per timestamp, in order; the sum skips NaN. *)
Definition groupby_sum (df : DataFrame) : result DataFrame :=
  ts <- getitem_time df ;;
  c <- getitem df "consumption_mw" ;;
  let keys := sorted_unique ts in
  Ok (mkDF (Some keys)
        [("consumption_mw",
          map (fun t =>
                 Num (Qsum (numbers
                              (take (map Some (positions t ts)) c))))
              keys)]).

(* ================================================================= *)
(** ** engine.py *)

Module ResidualLoadEngine.
Import MetDeskDBClient.

Record Metadata : Type := mkMetadata {
  meta_model : string;
  meta_model_label : string;
  meta_issue : option Z;
  meta_updated_at : Z;
  meta_n_members : nat;
  meta_countries : list string
}.

(** The dict stored in [self.scenarios] by a completed update. *)
Record Scenarios : Type := mkScenarios {
  residual_scenarios : DataFrame;
  consumption : DataFrame;
  renewables_ens : DataFrame;
  metadata : Metadata
}.

(** A file written by [_save_to_disk].  Its path is
    [f"{model}_{name}_{ts}.csv"] under [DATA_DIR], with [ts] the time of
    writing cut to the minute; no two of the triples model, table name,
    minute give the same path, and the model keeps the triple. *)
Record Snapshot : Type := mkSnapshot {
  snap_model : string;
  snap_name : string;
  snap_minute : Z;
  snap_data : DataFrame
}.

Definition same_path (a b : Snapshot) : bool :=
  (snap_model a =? snap_model b) && (snap_name a =? snap_name b)
  && (snap_minute a =? snap_minute b)%Z.

(** The directory [DATA_DIR] of [config.py]: its files, and the writes it
    refuses (disk full, no permission), on which [to_csv] raises. *)
Record Directory : Type := mkDirectory {
  files : list Snapshot;
  refuses : Snapshot -> bool
}.

(** The engine object, with the snapshot directory it writes to.
    [scenarios = None] is the empty dict. *)
Record Engine : Type := mkEngine {
  last_update : option Z;
  current_model : option string;
  scenarios : option Scenarios;
  DATA_DIR : Directory
}.

(** [__init__], on a directory that is empty and refuses no write. *)
Definition init : Engine :=
  mkEngine None None None (mkDirectory [] (fun _ => false)).

(** Methods read and write the engine and may raise. *)
Definition M (A : Type) : Type := Engine -> result A * Engine.

Definition ret {A} (a : A) : M A := fun self => (Ok a, self).

Definition mbind {A B} (c : M A) (k : A -> M B) : M B :=
  fun self =>
    match c self with
    | (Ok a, self') => k a self'
    | (Raise e, self') => (Raise e, self')
    end.

Definition lift {A} (c : result A) : M A := fun self => (c, self).

Definition modify (f : Engine -> Engine) : M unit :=
  fun self => (Ok tt, f self).

Notation "x <~ c ;; k" := (mbind c (fun x => k))
  (at level 61, c at next level, right associativity).

(** [range(0, 101, 5)]. *)
Definition percentile_levels : list nat := map (fun k => 5 * k) (seq 0 21).

Definition _compute_residual_scenarios (np_sqrt : Q -> Q)
  (consumption ren_ens : DataFrame) (model : string) : result DataFrame :=
  if empty consumption then Ok DataFrame_new
  else if empty ren_ens then Ok DataFrame_new
  else
    merged <- merge Inner "_x" "_y" consumption ren_ens ;;
    if empty merged then Ok DataFrame_new
    else
      ts <- getitem_time merged ;;
      let result := mkDF (Some ts) [] in
      cfg <- available_model model ;;
      let n_members := n_members cfg in
      ' (result, ens_cols) <-
        foldM (fun (acc : DataFrame * list string) i =>
                 let (result, ens_cols) := acc in
                 let ren_col := total_ren_ens i in
                 if has_column ren_col merged then
                   c <- getitem merged "consumption_mw" ;;
                   r <- getitem merged ren_col ;;
                   Ok (setitem result (residual_ens i)
                               (zip_with cell_sub c r),
                       List.app ens_cols [residual_ens i])
                 else Ok (result, ens_cols))
              (seq 1 n_members) (result, []) ;;
      match ens_cols with
      | [] => Ok result
      | _ :: _ =>
          cs <- getitems result ens_cols ;;
          let values := values (nrows result) cs in
          let result := setitem result "ens_mean" (map nanmean values) in
          let result :=
            setitem result "ens_std" (map (nanstd np_sqrt) values) in
          let result := setitem result "ens_min" (map nanmin values) in
          let result := setitem result "ens_max" (map nanmax values) in
          Ok (fold_left
                (fun result p =>
                   setitem result (ens_P p)
                           (map (fun row => nanpercentile row p) values))
                percentile_levels result)
      end.

(** [data.to_csv(path, index=False)]: the file at this path is created or
    replaced.  A refused write raises and leaves the files as they were;
    what a failing write leaves of the file itself is not modelled. *)
Definition to_csv (file : Snapshot) : M unit :=
  fun self =>
    let dir := DATA_DIR self in
    if refuses dir file then (Raise OSError, self)
    else
      (Ok tt,
       mkEngine (last_update self) (current_model self) (scenarios self)
                (mkDirectory
                   (List.app
                      (filter (fun f => negb (same_path f file)) (files dir))
                      [file])
                   (refuses dir))).

(** The loop of [_save_to_disk] over the items of the dict. *)
Fixpoint save_items (model : string) (minute : Z)
  (items : list (string * DataFrame)) : M unit :=
  match items with
  | [] => ret tt
  | (name, data) :: rest =>
      _ <~ (if empty data then ret tt
            else to_csv (mkSnapshot model name minute data)) ;;
      save_items model minute rest
  end.

(** [_save_to_disk]; [now] is its reading of the clock.  Every table of
    the bundle that is not empty is written out, in the order of the dict;
    the metadata are no table. *)
Definition _save_to_disk (model : string) (now : Z) : M unit :=
  fun self =>
    match scenarios self with
    | None => (Ok tt, self)
    | Some sc =>
        save_items model (now / 60)
                   [("residual_scenarios", residual_scenarios sc);
                    ("consumption", consumption sc);
                    ("renewables_ens", renewables_ens sc)] self
    end.

Definition set_current_model (model : string) (self : Engine) : Engine :=
  mkEngine (last_update self) (Some model) (scenarios self)
           (DATA_DIR self).

Definition set_scenarios (sc : Scenarios) (self : Engine) : Engine :=
  mkEngine (last_update self) (current_model self) (Some sc)
           (DATA_DIR self).

Definition set_last_update (t : Z) (self : Engine) : Engine :=
  mkEngine (Some t) (current_model self) (scenarios self) (DATA_DIR self).

(** [update].  [utcnow k] is what the call number [k] of
    [datetime.utcnow()] returns: the dict of metadata reads the clock
    first, [last_update] second and [_save_to_disk] third.  The result
    [None] is the empty dict.  The results are stored before the files are
    written, so that a failing write leaves them stored. *)
Definition update (np_sqrt : Q -> Q) (db : Store) (utcnow : nat -> Z)
  (model : string) (issue : option Z) (countries : option (list string))
  : M (option Scenarios) :=
  _ <~ modify (set_current_model model) ;;
  let countries :=
    match countries with
    | None | Some [] => [COUNTRY]
    | Some cs => cs
    end in
  fetched <~ lift (mapM (fun c => get_renewable_ensembles
                                    db model issue (Some (upper c)))
                        countries) ;;
  let ren_list := filter (fun df => negb (empty df)) fetched in
  match ren_list with
  | [] => ret None
  | df :: rest =>
      (* set_index on the first table, then add for each further one *)
      ren_agg <~ lift (first <- getitem_time df ;;
                       foldM add rest df) ;;
      let ren_ens := ren_agg in
      let cons_list :=
        filter (fun dfc => negb (empty dfc))
               (map (fun c => get_eq_consumption db issue (Some (lower c)))
                    countries) in
      match cons_list with
      | [] => ret None
      | _ :: _ =>
          cons_concat <~ lift (concat cons_list) ;;
          consumption <~ lift (grouped <- groupby_sum cons_concat ;;
                               sort_values grouped) ;;
          if empty consumption then ret None
          else
            residual_scenarios <~
              lift (_compute_residual_scenarios np_sqrt consumption
                                                ren_ens model) ;;
            let first_loc := upper (hd COUNTRY countries) in
            let actual_issue :=
              match issue with
              | None => _get_latest_issue db model "wind" (Some first_loc)
              | Some i => Some i
              end in
            cfg <~ lift (available_model model) ;;
            let bundle :=
              mkScenarios residual_scenarios consumption ren_ens
                (mkMetadata model (label cfg) actual_issue (utcnow 0)
                            (n_members cfg) countries) in
            _ <~ modify (set_scenarios bundle) ;;
            _ <~ modify (set_last_update (utcnow 1)) ;;
            _ <~ _save_to_disk model (utcnow 2) ;;
            ret (Some bundle)
      end
  end.

Definition resolve_location (countries : option (list string))
  (location : option string) : string :=
  match location with
  | Some l => l
  | None =>
      match countries with
      | Some (c :: _) => c
      | _ => COUNTRY
      end
  end.

(** [old_df[["utc_datetime", "ens_mean"]]]. *)
Definition time_and (name : string) (df : DataFrame) : result DataFrame :=
  ts <- getitem_time df ;;
  c <- getitem df name ;;
  Ok (mkDF (Some ts) [(name, c)]).

Definition compute_forecast_delta (db : Store) (model element : string)
  (issue_new issue_old valid_start valid_end : Z)
  (countries : option (list string)) (location : option string)
  : result DataFrame :=
  let location := upper (resolve_location countries location) in
  let old_df :=
    get_ensemble_by_issue_and_time db model element issue_old
                                   valid_start valid_end (Some location) in
  let new_df :=
    get_ensemble_by_issue_and_time db model element issue_new
                                   valid_start valid_end (Some location) in
  if empty old_df || empty new_df then Ok DataFrame_new
  else
    old_sel <- time_and "ens_mean" old_df ;;
    new_sel <- time_and "ens_mean" new_df ;;
    comparison <- merge Inner "_old" "_new" old_sel new_sel ;;
    if empty comparison then Ok DataFrame_new
    else
      new_mean <- getitem comparison "ens_mean_new" ;;
      old_mean <- getitem comparison "ens_mean_old" ;;
      let comparison :=
        setitem comparison "delta" (zip_with cell_sub new_mean old_mean) in
      delta <- getitem comparison "delta" ;;
      old_mean <- getitem comparison "ens_mean_old" ;;
      let comparison :=
        setitem comparison "delta_pct"
          (map (fun q => cell_mul q (Num 100%Q))
               (zip_with cell_div delta
                  (map (fun o => cell_add o (Num (1 # 10)%Q)) old_mean))) in
      Ok (rename (fun c =>
                    if c =? "ens_mean_old" then "old_mean"
                    else if c =? "ens_mean_new" then "new_mean"
                    else c)
                 comparison).

(** [df[["utc_datetime", "delta"]].rename(columns={"delta": name})]. *)
Definition delta_as (name : string) (df : DataFrame) : result DataFrame :=
  sel <- time_and "delta" df ;;
  Ok (rename (fun c => if c =? "delta" then name else c) sel).

Definition compute_residual_load_delta (db : Store) (model : string)
  (issue_new issue_old valid_start valid_end : Z)
  (countries : option (list string)) (location : option string)
  : result DataFrame :=
  let location := resolve_location countries location in
  wind_delta <- compute_forecast_delta db model "wind" issue_new issue_old
                  valid_start valid_end countries (Some location) ;;
  solar_delta <- compute_forecast_delta db model "solar" issue_new issue_old
                   valid_start valid_end countries (Some location) ;;
  if empty wind_delta && empty solar_delta then Ok DataFrame_new
  else
    result <-
      (if negb (empty wind_delta) && negb (empty solar_delta) then
         w <- delta_as "wind_delta" wind_delta ;;
         s <- delta_as "solar_delta" solar_delta ;;
         merge Outer "_x" "_y" w s
       else if negb (empty wind_delta) then
         w <- delta_as "wind_delta" wind_delta ;;
         Ok (setitem w "solar_delta"
                     (repeat (Num 0%Q) (nrows w)))
       else
         s <- delta_as "solar_delta" solar_delta ;;
         Ok (setitem s "wind_delta"
                     (repeat (Num 0%Q) (nrows s)))) ;;
    if empty result then Ok DataFrame_new
    else
      result <- sort_values result ;;
      wind <- getitem result "wind_delta" ;;
      let result := setitem result "wind_delta" (map fillna0 wind) in
      solar <- getitem result "solar_delta" ;;
      let result := setitem result "solar_delta" (map fillna0 solar) in
      wind <- getitem result "wind_delta" ;;
      solar <- getitem result "solar_delta" ;;
      let result :=
        setitem result "residual_delta"
                (map cell_neg (zip_with cell_add wind solar)) in
      residual_delta <- getitem result "residual_delta" ;;
      let result :=
        setitem result "residual_delta_pct"
          (map (fun x => cell_mul (cell_div x (Num 100%Q)) (Num 100%Q))
               residual_delta) in
      Ok result.

End ResidualLoadEngine.

(* ================================================================= *)
(** ** The rest of metdesk_db.py and engine.py *)

(** A call whose query is not guarded by [try]: it returns, raises one of
    the exceptions above, or fails with the error of the database
    driver. *)
Inductive outcome (A : Type) : Type :=
| Returned (a : A)
| Raised (e : exn)
| DatabaseError.
Arguments Returned {A} a.
Arguments Raised {A} e.
Arguments DatabaseError {A}.

Definition obind {A B} (c : outcome A) (k : A -> outcome B) : outcome B :=
  match c with
  | Returned a => k a
  | Raised e => Raised e
  | DatabaseError => DatabaseError
  end.

Definition of_result {A} (c : result A) : outcome A :=
  match c with
  | Ok a => Returned a
  | Raise e => Raised e
  end.

Notation "x <-- c ;; k" := (obind c (fun x => k))
  (at level 61, c at next level, right associativity).

Definition METDESK_PERCENTILE_MEMBERS : list string :=
  ["0%"; "10%"; "25%"; "40%"; "60%"; "75%"; "90%"; "100%"].

Definition METDESK_SPECIAL_MEMBERS : list string :=
  ["control"; "mean"; "median"].

Module MetDeskDBClientRest.
Import MetDeskDBClient.

(** The query of [get_available_issues]:
    [SELECT DISTINCT issue ... ORDER BY issue DESC LIMIT :n]. *)
Definition select_issues (db : Store) (location model element : string)
  (n : nat) : list Z :=
  firstn n
    (isort (fun a b => Z.leb b a)
       (nodup Z.eq_dec
          (map f_issue
               (filter (fun r => (f_location r =? location)
                                 && (f_model r =? model)
                                 && (f_element r =? element))
                       (metdesk_forecasts db))))).

(** [get_available_issues(model, element, n_latest, location)]; the
    defaults of the source are ["wind"] and 10. *)
Definition get_available_issues (db : Store) (model element : string)
  (n_latest : nat) (location : option string) : outcome (list Z) :=
  let location := or_default COUNTRY location in
  if reachable db
  then Returned (select_issues db location model element n_latest)
  else DatabaseError.

(** The query of [get_percentile_forecasts]: no window and no limit. *)
Definition select_percentiles (db : Store) (location model element : string)
  (issue : Z) (members : list string) : list forecast_row :=
  isort by_time_member
    (filter (fun r =>
               (f_location r =? location)
               && (f_model r =? model)
               && (f_element r =? element)
               && (f_issue r =? issue)%Z
               && existsb (String.eqb (f_member r)) members)
            (metdesk_forecasts db)).

Definition get_percentile_forecasts (db : Store) (model element : string)
  (issue : option Z) (location : option string) : outcome DataFrame :=
  match
    match issue with
    | Some i => Some i
    | None => _get_latest_issue db model element None
    end
  with
  | None => Returned DataFrame_new
  | Some issue =>
      let members :=
        List.app METDESK_PERCENTILE_MEMBERS METDESK_SPECIAL_MEMBERS in
      let location := or_default COUNTRY location in
      if negb (reachable db) then DatabaseError
      else
        let df := select_percentiles db location model element issue
                                     members in
        match df with
        | [] => Returned DataFrame_new
        | _ :: _ =>
            let pivot := pivot_table df in
            of_result (sort_values pivot)
        end
  end.

Definition get_renewable_percentiles (db : Store) (model : string)
  (issue : option Z) : outcome DataFrame :=
  wind <-- get_percentile_forecasts db model "wind" issue None ;;
  solar <-- get_percentile_forecasts db model "solar" issue None ;;
  if empty wind && empty solar then Returned DataFrame_new
  else
    let wind :=
      if negb (empty wind) then rename (fun c => "wind_" ++ c) wind
      else wind in
    let solar :=
      if negb (empty solar) then rename (fun c => "solar_" ++ c) solar
      else solar in
    if empty wind then Returned solar
    else if empty solar then Returned wind
    else
      df <-- of_result (merge Outer "_x" "_y" wind solar) ;;
      let df := fillna df in
      of_result
        (foldM (fun df pct =>
                  let w_col := "wind_" ++ pct in
                  let s_col := "solar_" ++ pct in
                  if has_column w_col df && has_column s_col df then
                    w <- getitem df w_col ;;
                    s <- getitem df s_col ;;
                    Ok (setitem df ("total_ren_" ++ pct)
                                (zip_with cell_add w s))
                  else Ok df)
               (List.app METDESK_PERCENTILE_MEMBERS METDESK_SPECIAL_MEMBERS)
               df).

End MetDeskDBClientRest.

Module ResidualLoadEngineRest.

(** [ResidualLoadEngine.get_available_issues]: the location in upper case,
    and the empty list for whatever the client raises. *)
Definition get_available_issues (db : Store) (model : string)
  (location : option string) : list Z :=
  let location := option_map upper location in
  match MetDeskDBClientRest.get_available_issues db model "wind" 10 location
  with
  | Returned issues => issues
  | Raised _ => []
  | DatabaseError => []
  end.

End ResidualLoadEngineRest.

Import MetDeskDBClient ResidualLoadEngine.

(* ================================================================= *)
(** * Auxiliary definitions of the statements and proofs *)

(** Reading back a number printed by [str] or [pad2]. *)
Definition unpad (s : string) : option nat :=
  option_map Nat.of_uint (NilEmpty.uint_of_string s).

(** The timestamps of a frame; none when it has no such column. *)
Definition timestamps (df : DataFrame) : list Z :=
  match utc_datetime df with
  | Some ts => ts
  | None => []
  end.

(** The body of the loop over the member indices. *)
Definition member_step (merged : DataFrame) (acc : DataFrame * list string)
  (i : nat) : result (DataFrame * list string) :=
  let (result, ens_cols) := acc in
  let ren_col := total_ren_ens i in
  if has_column ren_col merged then
    c <- getitem merged "consumption_mw" ;;
    r <- getitem merged ren_col ;;
    Ok (setitem result (residual_ens i) (zip_with cell_sub c r),
        List.app ens_cols [residual_ens i])
  else Ok (result, ens_cols).

(** The statistics columns appended once the members are in. *)
Definition with_stats (np_sqrt : Q -> Q) (res : DataFrame)
  (vals : list (list cell)) : DataFrame :=
  fold_left
    (fun result p =>
       setitem result (ens_P p) (map (fun row => nanpercentile row p) vals))
    percentile_levels
    (setitem
       (setitem
          (setitem (setitem res "ens_mean" (map nanmean vals))
                   "ens_std" (map (nanstd np_sqrt) vals))
          "ens_min" (map nanmin vals))
       "ens_max" (map nanmax vals)).

(** ** Example tables *)

(** Consumption 100, 110, 120, 130 at four consecutive hours. *)
Definition example_consumption : DataFrame :=
  mkDF (Some [0; 3600; 7200; 10800]%Z)
       [("consumption_mw", [Num 100; Num 110; Num 120; Num 130])].

(** Two members with constant total renewables 10 and 20. *)
Definition example_renewables : DataFrame :=
  mkDF (Some [0; 3600; 7200; 10800]%Z)
       [("total_ren_ens_01", [Num 10; Num 10; Num 10; Num 10]);
        ("total_ren_ens_02", [Num 20; Num 20; Num 20; Num 20])].

(** A row whose consumption is missing. *)
Definition nan_consumption : DataFrame :=
  mkDF (Some [0]%Z) [("consumption_mw", [NaN])].

Definition one_renewables : DataFrame :=
  mkDF (Some [0]%Z) [("total_ren_ens_01", [Num 10])].

(** The cell of column [name] on row [k]; NaN where there is none. *)
Definition cell_of (df : DataFrame) (name : string) (k : nat) : cell :=
  match lookup name (columns df) with
  | Some c => nth k c NaN
  | None => NaN
  end.

(** The table [compute_forecast_delta] builds from the timestamps and the
    [ens_mean] column of the old and of the new issue. *)
Definition delta_frame (ots : list Z) (om : list cell) (nts : list Z)
  (nm : list cell) : DataFrame :=
  let rows := inner_rows ots nts in
  let old := take (map left_row rows) om in
  let new := take (map right_row rows) nm in
  mkDF (Some (map key rows))
       [("old_mean", old);
        ("new_mean", new);
        ("delta", zip_with cell_sub new old);
        ("delta_pct",
         map (fun q => cell_mul q (Num 100%Q))
             (zip_with cell_div (zip_with cell_sub new old)
                       (map (fun o => cell_add o (Num (1 # 10)%Q)) old)))].

(** What a row of the outer join holds: on each side a row with the same
    key, or nothing when the side has no such key. *)
Definition side_row (ts : list Z) (t : Z) (o : option nat) : Prop :=
  match o with
  | Some i => nth_error ts i = Some t
  | None => ~ In t ts
  end.


(** The end of [compute_residual_load_delta], from the emptiness test on
    the joined deltas. *)
Definition finish_delta (joined_deltas : DataFrame) : result DataFrame :=
  if empty joined_deltas then Ok DataFrame_new
  else
    sorted <- sort_values joined_deltas ;;
    wind <- getitem sorted "wind_delta" ;;
    let r1 := setitem sorted "wind_delta" (map fillna0 wind) in
    solar <- getitem r1 "solar_delta" ;;
    let r2 := setitem r1 "solar_delta" (map fillna0 solar) in
    wind <- getitem r2 "wind_delta" ;;
    solar <- getitem r2 "solar_delta" ;;
    let r3 :=
      setitem r2 "residual_delta"
              (map cell_neg (zip_with cell_add wind solar)) in
    residual_delta <- getitem r3 "residual_delta" ;;
    Ok (setitem r3 "residual_delta_pct"
          (map (fun x => cell_mul (cell_div x (Num 100%Q)) (Num 100%Q))
               residual_delta)).

(** The value a row stamped [t] shows for one side of the residual delta:
    the delta of that side at [t], a missing one counted as zero, or zero
    when the side has no row at [t]. *)
Definition side_value (side : DataFrame) (t : Z) (v : cell) : Prop :=
  (exists i, nth_error (timestamps side) i = Some t
             /\ v = fillna0 (cell_of side "delta" i))
  \/ (~ In t (timestamps side) /\ v = Num 0).

(** What [compute_forecast_delta] can return. *)
Definition delta_result (d : DataFrame) : Prop :=
  d = DataFrame_new
  \/ exists ots om nts nm,
       inner_rows ots nts <> [] /\ d = delta_frame ots om nts nm.

(** The table handed to the final steps: its rows cover the timestamps of
    both deltas, and each side shows its delta or nothing. *)
Definition joined_ok (wdf sdf pre : DataFrame) : Prop :=
  exists pts PW PS,
    utc_datetime pre = Some pts
    /\ lookup "wind_delta" (columns pre) = Some PW
    /\ lookup "solar_delta" (columns pre) = Some PS
    /\ List.length PW = List.length pts
    /\ List.length PS = List.length pts
    /\ pts <> []
    /\ (forall t, In t pts <->
                  In t (timestamps wdf) \/ In t (timestamps sdf))
    /\ forall m t, nth_error pts m = Some t ->
         side_value wdf t (fillna0 (nth m PW NaN))
         /\ side_value sdf t (fillna0 (nth m PS NaN)).

(** What [finish_delta] returns on such a table. *)
Definition residual_ok (wdf sdf r : DataFrame) : Prop :=
  exists ts W S,
    utc_datetime r = Some ts
    /\ lookup "wind_delta" (columns r) = Some W
    /\ lookup "solar_delta" (columns r) = Some S
    /\ lookup "residual_delta" (columns r)
       = Some (map cell_neg (zip_with cell_add W S))
    /\ lookup "residual_delta_pct" (columns r)
       = Some (map (fun x => cell_mul (cell_div x (Num 100%Q)) (Num 100%Q))
                   (map cell_neg (zip_with cell_add W S)))
    /\ List.length W = List.length ts
    /\ List.length S = List.length ts
    /\ ts <> []
    /\ (forall t, In t ts <->
                  In t (timestamps wdf) \/ In t (timestamps sdf))
    /\ forall k t, nth_error ts k = Some t ->
         side_value wdf t (nth k W NaN) /\ side_value sdf t (nth k S NaN).

(** A list of rationals in non-decreasing order. *)
Inductive ascending : list Q -> Prop :=
| ascending_nil : ascending []
| ascending_cons x l :
    (forall y, In y l -> (x <= y)%Q) -> ascending l -> ascending (x :: l).

(** The countries an update works on. *)
Definition requested (countries : option (list string)) : list string :=
  match countries with
  | None | Some [] => [COUNTRY]
  | Some cs => cs
  end.

(** The issue [get_ensemble_forecasts] queries: the one given, or the
    latest one of the default country. *)
Definition resolved_issue (db : Store) (model element : string)
  (issue : option Z) : option Z :=
  match issue with
  | Some i => Some i
  | None => _get_latest_issue db model element None
  end.

(** ** Example stores *)

(** Wind and solar of two members from issue 100 of [eceps] for France,
    with the consumption of the same hour; nothing for [gfsens]. *)
Definition example_store : Store :=
  mkStore
    [ mkForecast "FR" "eceps" "wind" 100 "1" 0 (Num 5);
      mkForecast "FR" "eceps" "wind" 100 "2" 0 (Num 7);
      mkForecast "FR" "eceps" "solar" 100 "1" 0 (Num 1);
      mkForecast "FR" "eceps" "solar" 100 "2" 0 (Num 2) ]%Z
    [ mkConsumption "FR" 0 (Num 100) NaN ]%Z
    true 0%Z.

(** The same wind, no solar row at all. *)
Definition wind_only_store : Store :=
  mkStore
    [ mkForecast "FR" "eceps" "wind" 100 "1" 0 (Num 5);
      mkForecast "FR" "eceps" "wind" 100 "2" 0 (Num 7);
      mkForecast "FR" "eceps" "wind" 100 "1" 3600 (Num 6);
      mkForecast "FR" "eceps" "wind" 100 "2" 3600 (Num 8) ]%Z
    [ mkConsumption "FR" 0 (Num 100) NaN;
      mkConsumption "FR" 3600 (Num 110) NaN ]%Z
    true 0%Z.

(** Two issues, 50 and 100.  Wind goes from 0 to 5 at the first hour and
    from 1 to 4 at the second; solar has the second hour only, from 1
    to 3. *)
Definition delta_store : Store :=
  mkStore
    [ mkForecast "FR" "eceps" "wind" 50 "1" 0 (Num 0);
      mkForecast "FR" "eceps" "wind" 100 "1" 0 (Num 5);
      mkForecast "FR" "eceps" "wind" 50 "1" 3600 (Num 1);
      mkForecast "FR" "eceps" "wind" 100 "1" 3600 (Num 4);
      mkForecast "FR" "eceps" "solar" 50 "1" 3600 (Num 1);
      mkForecast "FR" "eceps" "solar" 100 "1" 3600 (Num 3) ]%Z
    [] true 0%Z.

(** A store without any row. *)
Definition empty_store : Store := mkStore [] [] true 0%Z.

(** The renewables table of [wind_only_store]. *)
Definition wind_only_table : DataFrame :=
  mkDF (Some [0; 3600]%Z)
       [("wind_ens_01", [Num 5; Num 6]); ("wind_ens_02", [Num 7; Num 8])].

(** The forecasts of [example_store], and no consumption row. *)
Definition renewables_only_store : Store :=
  mkStore (metdesk_forecasts example_store) [] true 0%Z.

(** The rows of one forecast series: a location, a model and an
    element. *)
Definition series_row (location model element : string) (r : forecast_row)
  : bool :=
  (f_location r =? location) && (f_model r =? model)
  && (f_element r =? element).

(** The consumption rows a fetch looks at: the country, whatever its
    case, from two days before the call. *)
Definition consumption_candidate (db : Store) (location : string)
  (r : consumption_row) : bool :=
  (lower (c_country r) =? location)
  && (CURRENT_TIMESTAMP db - two_days <=? c_utc r)%Z.

(** The files [_save_to_disk] has to write for a bundle when its reading
    of the clock is [now]: one for each table that is not empty. *)
Definition written (model : string) (now : Z) (sc : Scenarios)
  : list Snapshot :=
  map (fun nd => mkSnapshot model (fst nd) (now / 60) (snd nd))
      (filter (fun nd => negb (empty (snd nd)))
              [("residual_scenarios", residual_scenarios sc);
               ("consumption", consumption sc);
               ("renewables_ens", renewables_ens sc)]).

(** The files of [new] up to the first one the directory refuses. *)
Fixpoint accepted (dir : Directory) (new : list Snapshot) : list Snapshot :=
  match new with
  | [] => []
  | f :: rest => if refuses dir f then [] else f :: accepted dir rest
  end.

(** The directory once the files [new] are written: the files of their
    paths are gone, every other file is kept, the new ones are there. *)
Definition overwritten (dir : Directory) (new : list Snapshot) : Directory :=
  mkDirectory
    (List.app
       (filter (fun f => negb (existsb (same_path f) new)) (files dir))
       new)
    (refuses dir).

Definition set_DATA_DIR (dir : Directory) (self : Engine) : Engine :=
  mkEngine (last_update self) (current_model self) (scenarios self) dir.

(** The issue an update records in its metadata: the one given, or the
    latest wind issue of the first country. *)
Definition recorded_issue (db : Store) (model : string) (issue : option Z)
  (countries : option (list string)) : option Z :=
  match issue with
  | Some i => Some i
  | None =>
      _get_latest_issue db model "wind"
        (Some (upper (hd COUNTRY (requested countries))))
  end.

(** The outcomes of an update on engine [self]: nothing returned, an
    exception before anything is stored, or a bundle that is stored and
    then written out, file by file, until a write is refused. *)
Definition update_outcome (db : Store) (utcnow : nat -> Z) (model : string)
  (issue : option Z) (countries : option (list string)) (self : Engine)
  (out : result (option Scenarios) * Engine) : Prop :=
  out = (Ok None, set_current_model model self)
  \/ (exists key,
        out = (Raise (KeyError key), set_current_model model self))
  \/ exists b cfg,
       available_model model = Ok cfg
       /\ metadata b
          = mkMetadata model (label cfg)
                       (recorded_issue db model issue countries) (utcnow 0)
                       (n_members cfg) (requested countries)
       /\ empty (consumption b) = false
       /\ empty (renewables_ens b) = false
       /\ let new := written model (utcnow 2) b in
          let dir := DATA_DIR self in
          out = (if forallb (fun f => negb (refuses dir f)) new
                 then Ok (Some b) else Raise OSError,
                 mkEngine (Some (utcnow 1)) (Some model) (Some b)
                          (overwritten dir (accepted dir new))).

(** A clock that starts at [t] and advances by one second a reading. *)
Definition clock_from (t : Z) : nat -> Z := fun k => (t + Z.of_nat k)%Z.



(** The labels of the percentile series. *)
Definition percentile_labels : list string :=
  List.app METDESK_PERCENTILE_MEMBERS METDESK_SPECIAL_MEMBERS.



(** A computation on tables raises [KeyError] if it raises at all. *)
Definition no_OSError {A} (c : result A) : Prop := c <> Raise OSError.

(** An engine whose snapshot directory refuses every write. *)
Definition read_only_engine : Engine :=
  mkEngine None None None (mkDirectory [] (fun _ => true)).

(** In the table built by the loop over the members every column is a
    member column, and the one its name fetches. *)
Definition member_columns (res : DataFrame) : Prop :=
  forall n c, In (n, c) (columns res) ->
              lookup n (columns res) = Some c /\ exists i, n = residual_ens i.

(** Two countries.  France has the first hour only, Germany two hours;
    each has wind and solar of member 1 from issue 100 and its
    consumption. *)
Definition two_country_store : Store :=
  mkStore
    [ mkForecast "FR" "eceps" "wind" 100 "1" 0 (Num 5);
      mkForecast "FR" "eceps" "solar" 100 "1" 0 (Num 1);
      mkForecast "DE" "eceps" "wind" 100 "1" 0 (Num 9);
      mkForecast "DE" "eceps" "solar" 100 "1" 0 (Num 3);
      mkForecast "DE" "eceps" "wind" 100 "1" 3600 (Num 4);
      mkForecast "DE" "eceps" "solar" 100 "1" 3600 (Num 2) ]%Z
    [ mkConsumption "fr" 0 (Num 100) NaN;
      mkConsumption "de" 0 (Num 200) NaN;
      mkConsumption "de" 3600 (Num 210) NaN ]%Z
    true 0%Z.

(** Percentile rows of wind only: the members [10%] and [mean] of issue
    100 at two hours. *)
Definition wind_percentile_store : Store :=
  mkStore
    [ mkForecast "FR" "eceps" "wind" 100 "10%" 0 (Num 3);
      mkForecast "FR" "eceps" "wind" 100 "mean" 0 (Num 5);
      mkForecast "FR" "eceps" "wind" 100 "10%" 3600 (Num 4);
      mkForecast "FR" "eceps" "wind" 100 "mean" 3600 (Num 6) ]%Z
    [] true 0%Z.

(** The expression [compute_residual_load_delta] computes the column
    [residual_delta_pct] with, on one cell: [(d / 100.0) * 100]. *)
Definition normalized (d : cell) : cell :=
  cell_mul (cell_div d (Num 100%Q)) (Num 100%Q).

Section Binary64.
Import PrimFloat.


End Binary64.


(* ================================================================= *)
(** * The snapshot directory *)

Lemma filter_twice {A} (P Q : A -> bool) (l : list A) :
  filter P (filter Q l) = filter (fun x => Q x && P x) l.
Proof.
  induction l as [|x l IH]; [reflexivity|]. simpl.
  destruct (Q x); simpl; [destruct (P x)|]; now rewrite IH.
Qed.

Lemma filter_true {A} (l : list A) : filter (fun _ => true) l = l.
Proof. induction l as [|x l IH]; [reflexivity|]. simpl. now rewrite IH. Qed.

Lemma overwritten_nil (dir : Directory) : overwritten dir [] = dir.
Proof.
  destruct dir as [fs rf]. unfold overwritten. simpl.
  now rewrite filter_true, app_nil_r.
Qed.

Lemma set_DATA_DIR_same (self : Engine) : set_DATA_DIR (DATA_DIR self) self = self.
Proof. now destruct self. Qed.

(** The files accepted are among those to write. *)
Lemma accepted_incl (dir : Directory) (new : list Snapshot) :
  incl (accepted dir new) new.
Proof.
  induction new as [|f new IH]; [easy|]. simpl.
  destruct (refuses dir f); [intros x []|].
  intros x [<-|Hx]; [now left | right; auto].
Qed.

Lemma accepted_all (dir : Directory) (new : list Snapshot) :
  forallb (fun f => negb (refuses dir f)) new = true ->
  accepted dir new = new.
Proof.
  induction new as [|f new IH]; [reflexivity|]. simpl.
  destruct (refuses dir f); [discriminate|]. simpl.
  intros H. now rewrite IH.
Qed.

Lemma accepted_ext (d1 d2 : Directory) (new : list Snapshot) :
  refuses d1 = refuses d2 -> accepted d1 new = accepted d2 new.
Proof.
  intros H. induction new as [|f new IH]; [reflexivity|]. simpl.
  now rewrite H, IH.
Qed.

(** Writing [f] and then files of other paths amounts to writing them
    all. *)
Lemma overwritten_cons (fs : list Snapshot) (rf : Snapshot -> bool)
  (f : Snapshot) (new : list Snapshot) :
  existsb (same_path f) new = false ->
  overwritten
    (mkDirectory
       (List.app (filter (fun g => negb (same_path g f)) fs) [f]) rf) new
  = overwritten (mkDirectory fs rf) (f :: new).
Proof.
  intros Hf. unfold overwritten. simpl. f_equal.
  rewrite filter_app, filter_twice. simpl. rewrite Hf. simpl.
  rewrite <- app_assoc. simpl. f_equal.
  apply filter_ext. intros g. now rewrite negb_orb.
Qed.

Lemma save_items_spec (model : string) (minute : Z)
  (items : list (string * DataFrame)) :
  NoDup (map fst items) ->
  forall self,
    let new :=
      map (fun nd => mkSnapshot model (fst nd) minute (snd nd))
          (filter (fun nd => negb (empty (snd nd))) items) in
    let dir := DATA_DIR self in
    save_items model minute items self
    = (if forallb (fun f => negb (refuses dir f)) new
       then Ok tt else Raise OSError,
       set_DATA_DIR (overwritten dir (accepted dir new)) self).
Proof.
  induction items as [|[name data] rest IH]; intros Hnd self; cbv zeta.
  - simpl. unfold ret. now rewrite overwritten_nil, set_DATA_DIR_same.
  - apply NoDup_cons_iff in Hnd. destruct Hnd as (Hname & Hnd).
    specialize (IH Hnd). cbv zeta in IH.
    cbn [save_items filter snd fst]. unfold mbind.
    destruct (empty data); cbn [negb].
    + unfold ret at 1. apply IH.
    + cbn [map forallb accepted fst snd]. unfold to_csv.
      destruct (refuses (DATA_DIR self) (mkSnapshot model name minute data))
        eqn:Er; cbn [negb andb].
      * now rewrite overwritten_nil, set_DATA_DIR_same.
      * rewrite IH. cbn [DATA_DIR refuses files].
        destruct self as [lu cm sc [fs rf]]. cbn [DATA_DIR refuses files].
        f_equal. unfold set_DATA_DIR. cbn [last_update current_model scenarios].
        f_equal.
        rewrite (accepted_ext _ (mkDirectory fs rf)) by reflexivity.
        apply overwritten_cons.
        apply not_true_is_false. intros Hex.
        apply existsb_exists in Hex. destruct Hex as (g & Hg & Hsame).
        apply accepted_incl in Hg. apply in_map_iff in Hg.
        destruct Hg as ([n d] & <- & Hin). apply filter_In in Hin.
        destruct Hin as (Hin & _). unfold same_path in Hsame.
        cbn [snap_model snap_name snap_minute fst snd] in Hsame.
        apply andb_prop in Hsame. destruct Hsame as (Hsame & _).
        apply andb_prop in Hsame. destruct Hsame as (_ & Hsame).
        apply String.eqb_eq in Hsame. subst n.
        apply Hname. apply (in_map fst) in Hin. exact Hin.
Qed.

(** [_save_to_disk] on an engine that holds a bundle: the files are
    written in turn until one is refused. *)
Lemma save_to_disk_spec (model : string) (now : Z) (sc : Scenarios)
  (self : Engine) :
  scenarios self = Some sc ->
  let dir := DATA_DIR self in
  _save_to_disk model now self
  = (if forallb (fun f => negb (refuses dir f)) (written model now sc)
     then Ok tt else Raise OSError,
     set_DATA_DIR (overwritten dir (accepted dir (written model now sc)))
                  self).
Proof.
  intros Hs. cbv zeta. unfold _save_to_disk. rewrite Hs.
  rewrite save_items_spec; [reflexivity|].
  simpl. repeat constructor; simpl; intuition discriminate.
Qed.

(** The end of [update]: the bundle is stored, then written out. *)
Lemma update_tail (model : string) (t1 t2 : Z) (b : Scenarios)
  (self : Engine) :
  let dir := DATA_DIR self in
  (_ <~ modify (set_scenarios b) ;;
   _ <~ modify (set_last_update t1) ;;
   _ <~ _save_to_disk model t2 ;;
   ret (Some b)) self
  = (if forallb (fun f => negb (refuses dir f)) (written model t2 b)
     then Ok (Some b) else Raise OSError,
     mkEngine (Some t1) (current_model self) (Some b)
              (overwritten dir (accepted dir (written model t2 b)))).
Proof.
  cbv zeta. unfold mbind, modify.
  rewrite (save_to_disk_spec model t2 b) by reflexivity.
  cbn [DATA_DIR set_last_update set_scenarios].
  destruct (forallb _ _); reflexivity.
Qed.

(* ================================================================= *)
(** * The exceptions of the table operations *)

Lemma no_OSError_Ok {A} (a : A) : no_OSError (Ok a).
Proof. discriminate. Qed.

Lemma no_OSError_KeyError {A} (key : string) :
  no_OSError (@Raise A (KeyError key)).
Proof. discriminate. Qed.

Lemma no_OSError_bind {A B} (c : result A) (k : A -> result B) :
  no_OSError c -> (forall a, no_OSError (k a)) -> no_OSError (bind c k).
Proof.
  unfold no_OSError. destruct c as [a|e]; simpl; [auto|].
  intros H _ E. apply H. injection E as ->. reflexivity.
Qed.

Lemma no_OSError_foldM {A S} (body : S -> A -> result S) (xs : list A) :
  (forall s x, no_OSError (body s x)) ->
  forall s, no_OSError (foldM body xs s).
Proof.
  intros H. induction xs as [|x xs IH]; intros s; simpl.
  - apply no_OSError_Ok.
  - apply no_OSError_bind; auto.
Qed.

Lemma no_OSError_mapM {A B} (f : A -> result B) (xs : list A) :
  (forall x, no_OSError (f x)) -> no_OSError (mapM f xs).
Proof.
  intros H. induction xs as [|x xs IH]; simpl.
  - apply no_OSError_Ok.
  - apply no_OSError_bind; [auto|]. intros y.
    apply no_OSError_bind; [auto|]. intros ys. apply no_OSError_Ok.
Qed.

Ltac no_OSError_step :=
  first
    [ apply no_OSError_Ok
    | apply no_OSError_KeyError
    | apply no_OSError_bind; [|intros ?]
    | apply no_OSError_foldM; intros ? ?
    | apply no_OSError_mapM; intros ?
    | match goal with
      | |- no_OSError (match ?x with _ => _ end) => destruct x
      end ].

Ltac no_OSError_tac := repeat no_OSError_step.

Lemma no_OSError_getitem (df : DataFrame) (name : string) :
  no_OSError (getitem df name).
Proof. unfold getitem. no_OSError_tac. Qed.

Lemma no_OSError_getitem_time (df : DataFrame) :
  no_OSError (getitem_time df).
Proof. unfold getitem_time. no_OSError_tac. Qed.

Lemma no_OSError_available_model (model : string) :
  no_OSError (available_model model).
Proof. unfold available_model. no_OSError_tac. Qed.

Lemma no_OSError_getitems (df : DataFrame) (cols : list string) :
  no_OSError (getitems df cols).
Proof. unfold getitems. no_OSError_tac. Qed.

Lemma no_OSError_sort_values (df : DataFrame) : no_OSError (sort_values df).
Proof.
  unfold sort_values. no_OSError_tac. apply no_OSError_getitem_time.
Qed.

Lemma no_OSError_merge (h : how) (l r : string) (a b : DataFrame) :
  no_OSError (merge h l r a b).
Proof.
  unfold merge. no_OSError_tac; apply no_OSError_getitem_time.
Qed.

Create HintDb no_OSError.

#[export] Hint Resolve no_OSError_getitem no_OSError_getitem_time
  no_OSError_available_model no_OSError_getitems no_OSError_sort_values
  no_OSError_merge : no_OSError.

Ltac no_OSError_all :=
  repeat first [solve [auto with no_OSError] | no_OSError_step].

Lemma no_OSError_get_ensemble_forecasts (db : Store) (model element : string)
  (issue : option Z) (location : option string) :
  no_OSError (get_ensemble_forecasts db model element issue location).
Proof. unfold get_ensemble_forecasts. no_OSError_all. Qed.

Lemma no_OSError_get_renewable_ensembles (db : Store) (model : string)
  (issue : option Z) (location : option string) :
  no_OSError (get_renewable_ensembles db model issue location).
Proof.
  unfold get_renewable_ensembles.
  apply no_OSError_bind; [apply no_OSError_get_ensemble_forecasts|].
  intros wind.
  apply no_OSError_bind; [apply no_OSError_get_ensemble_forecasts|].
  intros solar. no_OSError_all.
Qed.

Lemma no_OSError_add (a b : DataFrame) : no_OSError (add a b).
Proof. unfold add. no_OSError_all. Qed.

Lemma no_OSError_concat (frames : list DataFrame) :
  no_OSError (concat frames).
Proof. unfold concat. no_OSError_all. Qed.

Lemma no_OSError_groupby_sum (df : DataFrame) : no_OSError (groupby_sum df).
Proof. unfold groupby_sum. no_OSError_all. Qed.

Lemma no_OSError_compute (np_sqrt : Q -> Q) (cons ren : DataFrame)
  (model : string) :
  no_OSError (_compute_residual_scenarios np_sqrt cons ren model).
Proof. unfold _compute_residual_scenarios. no_OSError_all. Qed.

#[export] Hint Resolve no_OSError_get_renewable_ensembles no_OSError_add
  no_OSError_concat no_OSError_groupby_sum no_OSError_compute : no_OSError.

(** Closes the case of a table operation that raised: the exception is a
    [KeyError], found in hypothesis [H]. *)
Ltac raised_KeyError H :=
  match type of H with
  | ?c = Raise ?e =>
      let key := fresh "key" in
      destruct e as [key|];
      [ exists key; reflexivity
      | exfalso; revert H; change (no_OSError c); no_OSError_all ]
  end.

(* ================================================================= *)
(** * Properties *)

(** ** The error monad and its loops *)

Lemma bind_Ok {A B} (c : result A) (k : A -> result B) (b : B) :
  bind c k = Ok b -> exists a, c = Ok a /\ k a = Ok b.
Proof.
  destruct c as [a|e]; simpl; intros H; [eauto | discriminate].
Qed.

Tactic Notation "inv_bind" hyp(H) "as" ident(a) ident(Ha) :=
  apply bind_Ok in H; destruct H as (a & Ha & H).

Tactic Notation "inv_bind" hyp(H) :=
  let a := fresh "a" in
  let Ha := fresh "Ha" in
  apply bind_Ok in H; destruct H as (a & Ha & H).

Lemma foldM_invariant {A S} (P : S -> Prop) (body : S -> A -> result S)
  (xs : list A) :
  forall s0 s,
    P s0 ->
    (forall s x s', P s -> In x xs -> body s x = Ok s' -> P s') ->
    foldM body xs s0 = Ok s -> P s.
Proof.
  induction xs as [|x xs IH]; simpl; intros s0 s H0 Hstep H.
  - injection H as <-. exact H0.
  - inv_bind H. apply (IH a s); auto.
    + apply (Hstep s0 x); auto.
    + intros s1 y s2 Hs1 Hy. apply Hstep; auto.
Qed.

Lemma mapM_Ok {A B} (f : A -> result B) (xs : list A) (ys : list B) :
  mapM f xs = Ok ys -> Forall2 (fun x y => f x = Ok y) xs ys.
Proof.
  revert ys; induction xs as [|x xs IH]; simpl; intros ys H.
  - injection H as <-. constructor.
  - inv_bind H. inv_bind H. injection H as <-. constructor; auto.
Qed.

Lemma mapM_total {A B} (f : A -> result B) (xs : list A) :
  (forall x, In x xs -> exists y, f x = Ok y) ->
  exists ys, mapM f xs = Ok ys.
Proof.
  induction xs as [|x xs IH]; simpl; intros H.
  - eauto.
  - destruct (H x) as (y & Hy); auto.
    destruct IH as (ys & Hys); auto.
    rewrite Hy, Hys. simpl. eauto.
Qed.

(** ** Column names *)

Lemma str_inj (n m : nat) : str n = str m -> n = m.
Proof.
  unfold str. intros H.
  apply (f_equal NilEmpty.uint_of_string) in H.
  rewrite !NilEmpty.usu in H. injection H as H.
  apply (f_equal Nat.of_uint) in H.
  now rewrite !Unsigned.of_to in H.
Qed.


Lemma unpad_str (n : nat) : unpad (str n) = Some n.
Proof.
  unfold unpad, str. rewrite NilEmpty.usu. simpl.
  now rewrite Unsigned.of_to.
Qed.

Lemma unpad_pad2 (n : nat) : unpad (pad2 n) = Some n.
Proof.
  unfold pad2. destruct (n <? 10)%nat.
  - generalize (unpad_str n). unfold unpad, str. simpl.
    rewrite NilEmpty.usu. simpl. intros H. exact H.
  - apply unpad_str.
Qed.

Lemma pad2_inj (n m : nat) : pad2 n = pad2 m -> n = m.
Proof.
  intros H. apply (f_equal unpad) in H.
  rewrite !unpad_pad2 in H. now injection H.
Qed.

Lemma append_inj (s a b : string) : s ++ a = s ++ b -> a = b.
Proof.
  induction s as [|c s IH]; simpl; intros H; [exact H|].
  injection H as H. auto.
Qed.

Lemma residual_ens_inj (i j : nat) : residual_ens i = residual_ens j -> i = j.
Proof. intros H. apply append_inj in H. now apply pad2_inj. Qed.

Lemma ens_P_inj (p q : nat) : ens_P p = ens_P q -> p = q.
Proof. intros H. apply append_inj in H. now apply str_inj. Qed.

(** ** Columns of a frame *)

Lemma has_column_lookup (name : string) (df : DataFrame) :
  has_column name df = true <-> lookup name (columns df) <> None.
Proof.
  unfold has_column, names. induction (columns df) as [|c cols IH]; simpl.
  - split; [discriminate | congruence].
  - rewrite (String.eqb_sym name (fst c)).
    destruct (fst c =? name); simpl.
    + split; [discriminate | reflexivity].
    + exact IH.
Qed.

Lemma has_column_false (name : string) (df : DataFrame) :
  has_column name df = false <-> lookup name (columns df) = None.
Proof.
  pose proof (has_column_lookup name df) as H.
  destruct (has_column name df), (lookup name (columns df));
    split; intros; try reflexivity; try discriminate.
  - exfalso. apply (proj1 H); auto.
  - exfalso. assert (false = true) by (apply H; discriminate). discriminate.
Qed.

Lemma lookup_app (name : string) (a b : list (string * list cell)) :
  lookup name (a ++ b)%list =
  match lookup name a with
  | Some c => Some c
  | None => lookup name b
  end.
Proof.
  induction a as [|c a IH]; simpl; [reflexivity|].
  destruct (fst c =? name); auto.
Qed.

Lemma lookup_replace_same (name : string) (c : list cell)
  (cols : list (string * list cell)) :
  lookup name cols <> None ->
  lookup name (replace_col name c cols) = Some c.
Proof.
  induction cols as [|d cols IH]; simpl; [congruence|].
  destruct (fst d =? name) eqn:E; simpl.
  - now rewrite String.eqb_refl.
  - rewrite E. exact IH.
Qed.

Lemma lookup_replace_other (name other : string) (c : list cell)
  (cols : list (string * list cell)) :
  other <> name ->
  lookup other (replace_col name c cols) = lookup other cols.
Proof.
  intros Hne. induction cols as [|d cols IH]; simpl; [reflexivity|].
  destruct (fst d =? name) eqn:E; simpl.
  - apply String.eqb_eq in E. rewrite E.
    destruct (name =? other) eqn:E'.
    + apply String.eqb_eq in E'. congruence.
    + exact IH.
  - destruct (fst d =? other); auto.
Qed.

Lemma lookup_setitem_same (df : DataFrame) (name : string) (c : list cell) :
  lookup name (columns (setitem df name c)) = Some c.
Proof.
  unfold setitem. destruct (has_column name df) eqn:E; simpl.
  - apply lookup_replace_same. now apply has_column_lookup.
  - rewrite lookup_app. apply has_column_false in E. rewrite E.
    simpl. now rewrite String.eqb_refl.
Qed.

Lemma lookup_setitem_other (df : DataFrame) (name other : string)
  (c : list cell) :
  other <> name ->
  lookup other (columns (setitem df name c)) = lookup other (columns df).
Proof.
  intros Hne. unfold setitem. destruct (has_column name df); simpl.
  - now apply lookup_replace_other.
  - rewrite lookup_app. destruct (lookup other (columns df)); auto.
    simpl. destruct (name =? other) eqn:E; auto.
    apply String.eqb_eq in E. congruence.
Qed.

Lemma utc_setitem (df : DataFrame) (name : string) (c : list cell) :
  utc_datetime (setitem df name c) = utc_datetime df.
Proof. unfold setitem. now destruct (has_column name df). Qed.

Lemma getitem_Ok (df : DataFrame) (name : string) (c : list cell) :
  getitem df name = Ok c <-> lookup name (columns df) = Some c.
Proof.
  unfold getitem. destruct (lookup name (columns df)); split; intros H;
    try discriminate; congruence.
Qed.

Lemma names_replace_col (name : string) (c : list cell)
  (cols : list (string * list cell)) :
  map fst (replace_col name c cols) = map fst cols.
Proof.
  induction cols as [|d cols IH]; simpl; [reflexivity|].
  rewrite IH. destruct (fst d =? name) eqn:E; simpl; auto.
  apply String.eqb_eq in E. now rewrite E.
Qed.


(** ** Joins *)

Lemma enumerate_shift {A} (l : list A) (s : nat) (j : nat) (x : A) :
  In (j, x) (combine (seq s (List.length l)) l) <->
  (s <= j /\ nth_error l (j - s) = Some x).
Proof.
  revert s; induction l as [|y l IH]; simpl; intros s.
  - split; [tauto|]. intros [_ H]. destruct (j - s); discriminate.
  - split.
    + intros [H|H].
      * injection H as <- <-. rewrite Nat.sub_diag. simpl. auto.
      * apply IH in H. destruct H as [Hle H].
        split; [lia|]. replace (j - s) with (S (j - S s)) by lia. exact H.
    + intros [Hle H]. destruct (j - s) as [|k] eqn:E; simpl in H.
      * left. injection H as ->. f_equal. lia.
      * right. apply IH. split; [lia|].
        replace (j - S s) with k by lia. exact H.
Qed.

Lemma in_enumerate {A} (l : list A) (j : nat) (x : A) :
  In (j, x) (enumerate l) <-> nth_error l j = Some x.
Proof.
  unfold enumerate. rewrite enumerate_shift, Nat.sub_0_r.
  split; [tauto | intros; split; [lia | assumption]].
Qed.

Lemma in_positions (t : Z) (ts : list Z) (j : nat) :
  In j (positions t ts) <-> nth_error ts j = Some t.
Proof.
  unfold positions. rewrite in_map_iff. split.
  - intros ((j', t') & Hj & H). simpl in Hj. subst j'.
    apply filter_In in H. destruct H as [H E]. simpl in E.
    apply Z.eqb_eq in E. subst t'. now apply in_enumerate.
  - intros H. exists (j, t). split; [reflexivity|].
    apply filter_In. split; [now apply in_enumerate|].
    simpl. apply Z.eqb_refl.
Qed.

Lemma length_positions_shift (t : Z) (ts : list Z) (s : nat) :
  List.length (filter (fun jt : nat * Z => Z.eqb (snd jt) t)
                      (combine (seq s (List.length ts)) ts))
  = count_occ Z.eq_dec ts t.
Proof.
  revert s; induction ts as [|x ts IH]; simpl; intros s; [reflexivity|].
  destruct (Z.eq_dec x t) as [->|Hne].
  - rewrite Z.eqb_refl. simpl. now rewrite IH.
  - destruct (Z.eqb_spec x t); [congruence|]. apply IH.
Qed.

Lemma length_positions (t : Z) (ts : list Z) :
  List.length (positions t ts) = count_occ Z.eq_dec ts t.
Proof.
  unfold positions, enumerate. rewrite length_map.
  apply length_positions_shift.
Qed.

Lemma length_inner_rows_shift (lt rt : list Z) (s : nat) :
  List.length
    (flat_map (fun it : nat * Z =>
                 map (fun j => mkJoined (snd it) (Some (fst it)) (Some j))
                     (positions (snd it) rt))
              (combine (seq s (List.length lt)) lt))
  = list_sum (map (count_occ Z.eq_dec rt) lt).
Proof.
  revert s; induction lt as [|x lt IH]; simpl; intros s; [reflexivity|].
  rewrite length_app, length_map, length_positions, IH. reflexivity.
Qed.

Lemma length_inner_rows (lt rt : list Z) :
  List.length (inner_rows lt rt) = list_sum (map (count_occ Z.eq_dec rt) lt).
Proof. apply length_inner_rows_shift. Qed.

Lemma sum_count_occ_le_right (lt rt : list Z) :
  NoDup lt -> list_sum (map (count_occ Z.eq_dec rt) lt) <= List.length rt.
Proof.
  revert lt; induction rt as [|y rt IH]; intros lt Hnd.
  - clear Hnd. induction lt as [|x lt IHl]; simpl in *; [lia | exact IHl].
  - assert (Hsplit :
      list_sum (map (count_occ Z.eq_dec (y :: rt)) lt)
      = count_occ Z.eq_dec lt y
        + list_sum (map (count_occ Z.eq_dec rt) lt)).
    { clear. induction lt as [|x lt IHl]; simpl; [reflexivity|].
      simpl in IHl. rewrite IHl.
      destruct (Z.eq_dec y x) as [->|Hne].
      - destruct (Z.eq_dec x x); [lia | congruence].
      - destruct (Z.eq_dec x y); [congruence | lia]. }
    rewrite Hsplit. simpl.
    pose proof (proj1 (NoDup_count_occ Z.eq_dec lt) Hnd y).
    specialize (IH lt Hnd). lia.
Qed.

Lemma sum_count_occ_le_left (lt rt : list Z) :
  NoDup rt -> list_sum (map (count_occ Z.eq_dec rt) lt) <= List.length lt.
Proof.
  intros Hnd. induction lt as [|x lt IH]; simpl; [lia|].
  pose proof (proj1 (NoDup_count_occ Z.eq_dec rt) Hnd x). lia.
Qed.

Lemma in_inner_rows (lt rt : list Z) (r : joined) :
  In r (inner_rows lt rt) <->
  exists i j, r = mkJoined (key r) (Some i) (Some j)
              /\ nth_error lt i = Some (key r)
              /\ nth_error rt j = Some (key r).
Proof.
  unfold inner_rows. rewrite in_flat_map. split.
  - intros ((i, t) & Hi & H). apply in_enumerate in Hi.
    apply in_map_iff in H. destruct H as (j & <- & Hj).
    apply in_positions in Hj. simpl in *. eauto.
  - intros (i & j & Hr & Hi & Hj). exists (i, key r). split.
    + now apply in_enumerate.
    + apply in_map_iff. exists j. simpl. split; [now symmetry|].
      now apply in_positions.
Qed.

Lemma inner_rows_keys (lt rt : list Z) (t : Z) :
  In t (map key (inner_rows lt rt)) -> In t lt /\ In t rt.
Proof.
  rewrite in_map_iff. intros (r & <- & H).
  apply in_inner_rows in H. destruct H as (i & j & _ & Hi & Hj).
  split; eapply nth_error_In; eauto.
Qed.

(** ** The member loop of [_compute_residual_scenarios] *)



Lemma merge_Ok (h : how) (sl sr : string) (a b m : DataFrame) :
  merge h sl sr a b = Ok m ->
  exists lt rt,
    utc_datetime a = Some lt /\ utc_datetime b = Some rt
    /\ utc_datetime m = Some (map key (join_rows h lt rt)).
Proof.
  unfold merge, getitem_time. intros H.
  destruct (utc_datetime a) as [lt|]; [|discriminate].
  destruct (utc_datetime b) as [rt|]; [|discriminate].
  simpl in H. injection H as <-. simpl. eauto.
Qed.

Lemma compute_cases (np_sqrt : Q -> Q) (cons ren : DataFrame)
  (model : string) (r : DataFrame) :
  _compute_residual_scenarios np_sqrt cons ren model = Ok r ->
  r = DataFrame_new \/
  exists merged cfg res ens_cols,
    empty cons = false /\ empty ren = false
    /\ merge Inner "_x" "_y" cons ren = Ok merged
    /\ empty merged = false
    /\ available_model model = Ok cfg
    /\ foldM (member_step merged) (seq 1 (n_members cfg))
             (mkDF (utc_datetime merged) [], []) = Ok (res, ens_cols)
    /\ ((ens_cols = [] /\ r = res)
        \/ (ens_cols <> [] /\ exists cs,
               getitems res ens_cols = Ok cs
               /\ r = with_stats np_sqrt res (values (nrows res) cs))).
Proof.
  unfold _compute_residual_scenarios. intros H.
  destruct (empty cons) eqn:Ec; [left; congruence|].
  destruct (empty ren) eqn:Er; [left; congruence|].
  inv_bind H as merged Hm.
  destruct (empty merged) eqn:Em; [left; congruence|].
  inv_bind H as ts Hts. inv_bind H as cfg Hcfg.
  inv_bind H as acc Hacc. destruct acc as [res ens_cols].
  right. exists merged, cfg, res, ens_cols.
  assert (Hu : utc_datetime merged = Some ts).
  { unfold getitem_time in Hts. destruct (utc_datetime merged);
      [congruence | discriminate]. }
  rewrite Hu. repeat (split; [first [assumption | reflexivity]|]).
  destruct ens_cols as [|n0 ens_cols].
  - left. split; congruence.
  - right. split; [discriminate|]. inv_bind H as cs Hcs. exists cs.
    split; [assumption|]. unfold with_stats. congruence.
Qed.

Lemma names_setitem (df : DataFrame) (name : string) (c : list cell)
  (n : string) :
  In n (names (setitem df name c)) <-> In n (names df) \/
                                        (n = name /\ True).
Proof.
  unfold setitem, names. destruct (has_column name df) eqn:E; simpl.
  - rewrite names_replace_col. split; [tauto|].
    intros [H|[-> _]]; [exact H|].
    unfold has_column in E. apply existsb_exists in E.
    destruct E as (x & Hx & E). apply String.eqb_eq in E. now subst x.
  - rewrite map_app, in_app_iff. simpl. split.
    + intros [H|[H|[]]]; auto.
    + intros [H|[-> _]]; auto.
Qed.

Lemma in_names_lookup (df : DataFrame) (n : string) :
  In n (names df) <-> lookup n (columns df) <> None.
Proof.
  rewrite <- has_column_lookup. unfold has_column.
  rewrite existsb_exists. split.
  - intros H. exists n. split; [exact H | apply String.eqb_refl].
  - intros (x & Hx & E). apply String.eqb_eq in E. now subst x.
Qed.

Lemma member_step_Ok (merged : DataFrame) (res0 res : DataFrame)
  (cols0 cols : list string) (i : nat) :
  member_step merged (res0, cols0) i = Ok (res, cols) ->
  (has_column (total_ren_ens i) merged = false
   /\ res = res0 /\ cols = cols0)
  \/ (exists c rc,
        getitem merged "consumption_mw" = Ok c
        /\ getitem merged (total_ren_ens i) = Ok rc
        /\ res = setitem res0 (residual_ens i) (zip_with cell_sub c rc)
        /\ cols = List.app cols0 [residual_ens i]).
Proof.
  unfold member_step. destruct (has_column (total_ren_ens i) merged) eqn:E.
  - intros H. inv_bind H. inv_bind H. injection H as <- <-.
    right. eauto 6.
  - intros H. injection H as <- <-. left. auto.
Qed.

Lemma member_loop (merged : DataFrame) (idx : list nat) :
  forall res0 cols0 res cols,
    foldM (member_step merged) idx (res0, cols0) = Ok (res, cols) ->
    utc_datetime res = utc_datetime res0
    /\ (forall name, (forall i, In i idx -> name <> residual_ens i) ->
                     lookup name (columns res) = lookup name (columns res0))
    /\ (NoDup idx ->
        forall i rc, In i idx ->
          getitem merged (total_ren_ens i) = Ok rc ->
          exists c, getitem merged "consumption_mw" = Ok c
                    /\ lookup (residual_ens i) (columns res)
                       = Some (zip_with cell_sub c rc))
    /\ ((forall n, In n (names res0) -> In n cols0) ->
        forall n, In n (names res) -> In n cols)
    /\ ((forall n, In n cols0 -> In n (names res0)) ->
        forall n, In n cols -> In n (names res)).
Proof.
  induction idx as [|i idx IH]; simpl; intros res0 cols0 res cols H.
  - injection H as <- <-. repeat split; auto.
    intros _ i rc [].
  - inv_bind H as acc Ha. destruct acc as [res1 cols1].
    destruct (IH _ _ _ _ H) as (Ht & Hother & Hcol & Hsub & Hsup).
    apply member_step_Ok in Ha.
    destruct Ha as [(Hno & -> & ->) | (c & rc & Hc & Hrc & -> & ->)].
    + repeat split; auto.
      intros Hnd j rcj [<-|Hj] Hg.
      * apply getitem_Ok in Hg. apply has_column_false in Hno. congruence.
      * inversion Hnd; subst. eauto.
    + split; [now rewrite Ht, utc_setitem|].
      split; [|split; [|split]].
      * intros name Hname. rewrite Hother by auto.
        apply lookup_setitem_other. auto.
      * intros Hnd j rcj [<-|Hj] Hg.
        -- exists c. split; [assumption|].
           inversion Hnd; subst.
           rewrite Hother.
           ++ rewrite lookup_setitem_same. congruence.
           ++ intros k Hk E. apply residual_ens_inj in E. congruence.
        -- inversion Hnd; subst. eauto.
      * intros H0. apply Hsub. intros n Hn.
        apply names_setitem in Hn. apply in_app_iff.
        destruct Hn as [Hn|[-> _]]; [left; auto | right; simpl; auto].
      * intros H0. apply Hsup. intros n Hn.
        apply names_setitem. apply in_app_iff in Hn.
        destruct Hn as [Hn|[<-|[]]]; auto.
Qed.

Lemma member_loop_total (merged : DataFrame) (c : list cell) :
  getitem merged "consumption_mw" = Ok c ->
  forall idx acc, exists acc', foldM (member_step merged) idx acc = Ok acc'.
Proof.
  intros Hc. induction idx as [|i idx IH]; simpl; intros acc; [eauto|].
  assert (Hs : exists acc1, member_step merged acc i = Ok acc1).
  { unfold member_step. destruct acc as [res cols].
    destruct (has_column (total_ren_ens i) merged) eqn:E; [|eauto].
    rewrite Hc. simpl. apply has_column_lookup in E.
    unfold getitem. destruct (lookup (total_ren_ens i) (columns merged));
      [simpl; eauto | congruence]. }
  destruct Hs as (acc1 & ->). simpl. apply IH.
Qed.

(** ** The statistics columns *)

Lemma utc_with_stats (np_sqrt : Q -> Q) (res : DataFrame)
  (vals : list (list cell)) :
  utc_datetime (with_stats np_sqrt res vals) = utc_datetime res.
Proof.
  unfold with_stats.
  generalize percentile_levels as ps.
  assert (G : forall ps d,
             utc_datetime
               (fold_left
                  (fun result p =>
                     setitem result (ens_P p)
                             (map (fun row => nanpercentile row p) vals))
                  ps d) = utc_datetime d).
  { induction ps as [|p ps IH]; simpl; intros d; [reflexivity|].
    now rewrite IH, utc_setitem. }
  intros ps. rewrite G. now rewrite !utc_setitem.
Qed.

Lemma lookup_percentiles_other (vals : list (list cell)) (name : string)
  (ps : list nat) :
  (forall p, In p ps -> name <> ens_P p) ->
  forall d,
    lookup name
      (columns
         (fold_left
            (fun result p =>
               setitem result (ens_P p)
                       (map (fun row => nanpercentile row p) vals))
            ps d))
    = lookup name (columns d).
Proof.
  induction ps as [|p ps IH]; simpl; intros Hne d; [reflexivity|].
  rewrite IH by auto. apply lookup_setitem_other. auto.
Qed.

Lemma lookup_percentiles_same (vals : list (list cell)) (ps : list nat) :
  NoDup ps ->
  forall d p, In p ps ->
    lookup (ens_P p)
      (columns
         (fold_left
            (fun result p =>
               setitem result (ens_P p)
                       (map (fun row => nanpercentile row p) vals))
            ps d))
    = Some (map (fun row => nanpercentile row p) vals).
Proof.
  induction ps as [|q ps IH]; simpl; intros Hnd d p Hp; [contradiction|].
  inversion Hnd; subst. destruct Hp as [->|Hp].
  - rewrite lookup_percentiles_other.
    + apply lookup_setitem_same.
    + intros k Hk E. apply ens_P_inj in E. congruence.
  - now apply IH.
Qed.

Lemma NoDup_percentile_levels : NoDup percentile_levels.
Proof.
  unfold percentile_levels.
  apply Finite.Injective_map_NoDup; [|apply seq_NoDup].
  intros a b H. lia.
Qed.

Lemma residual_not_stat (i : nat) :
  residual_ens i <> "ens_mean" /\ residual_ens i <> "ens_std"
  /\ residual_ens i <> "ens_min" /\ residual_ens i <> "ens_max"
  /\ forall p, residual_ens i <> ens_P p.
Proof.
  unfold residual_ens, ens_P. simpl. repeat split; try discriminate.
Qed.

Lemma lookup_with_stats_residual (np_sqrt : Q -> Q) (res : DataFrame)
  (vals : list (list cell)) (i : nat) :
  lookup (residual_ens i) (columns (with_stats np_sqrt res vals))
  = lookup (residual_ens i) (columns res).
Proof.
  destruct (residual_not_stat i) as (H1 & H2 & H3 & H4 & H5).
  unfold with_stats. rewrite lookup_percentiles_other by auto.
  now rewrite !lookup_setitem_other by assumption.
Qed.

Lemma lookup_with_stats_P (np_sqrt : Q -> Q) (res : DataFrame)
  (vals : list (list cell)) (p : nat) :
  In p percentile_levels ->
  lookup (ens_P p) (columns (with_stats np_sqrt res vals))
  = Some (map (fun row => nanpercentile row p) vals).
Proof.
  intros Hp. unfold with_stats.
  now apply lookup_percentiles_same; [apply NoDup_percentile_levels|].
Qed.

Lemma lookup_with_stats_mean (np_sqrt : Q -> Q) (res : DataFrame)
  (vals : list (list cell)) :
  lookup "ens_mean" (columns (with_stats np_sqrt res vals))
  = Some (map nanmean vals).
Proof.
  unfold with_stats. rewrite lookup_percentiles_other.
  - rewrite !lookup_setitem_other by discriminate.
    apply lookup_setitem_same.
  - intros p _. unfold ens_P. simpl. discriminate.
Qed.

(** ** Row counts and timestamps of the inner join *)

Lemma nrows_time (df : DataFrame) (ts : list Z) :
  utc_datetime df = Some ts -> nrows df = List.length ts.
Proof. unfold nrows. now intros ->. Qed.

Lemma compute_time (np_sqrt : Q -> Q) (cons ren : DataFrame)
  (model : string) (r : DataFrame) :
  _compute_residual_scenarios np_sqrt cons ren model = Ok r ->
  r = DataFrame_new \/
  exists lt rt,
    utc_datetime cons = Some lt /\ utc_datetime ren = Some rt
    /\ utc_datetime r = Some (map key (inner_rows lt rt)).
Proof.
  intros H. apply compute_cases in H.
  destruct H as [H | (merged & cfg & res & cols & _ & _ & Hm & _ & _ & Hl
                      & Hr)]; [now left | right].
  apply merge_Ok in Hm. destruct Hm as (lt & rt & Hlt & Hrt & Hmt).
  cbn [join_rows] in Hmt. exists lt, rt. repeat (split; [assumption|]).
  apply member_loop in Hl. destruct Hl as (Hu & _). simpl in Hu.
  destruct Hr as [[_ ->] | (_ & cs & _ & ->)].
  - congruence.
  - rewrite utc_with_stats. congruence.
Qed.

(** C7.  The input tables are time series: within one table no timestamp
    occurs twice, as in the tables [update] passes (lemma
    [update_joins_unique_timestamps] below).  The table returned by
    [_compute_residual_scenarios] then has at most as many rows as the
    smaller of the two inputs, and each of its timestamps occurs in both
    inputs; the latter holds of any two tables.  (The merge pairs every
    left row of a timestamp with every right row of it, whence the
    condition.) *)
Theorem inner_join_rows_bounded (np_sqrt : Q -> Q) (cons ren : DataFrame)
  (model : string) (r : DataFrame) :
  _compute_residual_scenarios np_sqrt cons ren model = Ok r ->
  (NoDup (timestamps cons) -> NoDup (timestamps ren) ->
   nrows r <= Nat.min (nrows cons) (nrows ren))
  /\ forall t, In t (timestamps r) ->
               In t (timestamps cons) /\ In t (timestamps ren).
Proof.
  intros H. apply compute_time in H.
  destruct H as [-> | (lt & rt & Hlt & Hrt & Ht)].
  - split; [intros _ _; change (nrows DataFrame_new) with 0; lia
           | intros t []].
  - unfold timestamps. rewrite Hlt, Hrt, Ht.
    rewrite (nrows_time _ _ Ht), (nrows_time _ _ Hlt), (nrows_time _ _ Hrt).
    split; [|apply inner_rows_keys].
    intros Hc Hr. rewrite length_map, length_inner_rows.
    apply Nat.min_glb.
    + now apply sum_count_occ_le_left.
    + now apply sum_count_occ_le_right.
Qed.

(** ** Member columns *)

Lemma getitems_total (df : DataFrame) (cols : list string) :
  (forall n, In n cols -> In n (names df)) ->
  exists cs, getitems df cols = Ok cs.
Proof.
  intros H. unfold getitems.
  destruct (mapM_total
              (fun n =>
                 match filter (fun c => fst c =? n) (columns df) with
                 | [] => Raise (KeyError n)
                 | cs => Ok (map snd cs)
                 end) cols) as (parts & Hp).
  - intros n Hn. apply H in Hn. unfold names in Hn.
    apply in_map_iff in Hn. destruct Hn as (c & Hc & Hin).
    destruct (filter (fun c0 => fst c0 =? n) (columns df)) eqn:E.
    + assert (Hf : In c (filter (fun c0 => fst c0 =? n) (columns df))).
      { apply filter_In. split; [assumption|]. now apply String.eqb_eq. }
      rewrite E in Hf. contradiction.
    + eauto.
  - rewrite Hp. simpl. eauto.
Qed.

Lemma compute_forward (np_sqrt : Q -> Q) (cons ren merged : DataFrame)
  (model : string) (cfg : model_config) (res : DataFrame)
  (ens_cols : list string) :
  empty cons = false -> empty ren = false ->
  merge Inner "_x" "_y" cons ren = Ok merged -> empty merged = false ->
  available_model model = Ok cfg ->
  foldM (member_step merged) (seq 1 (n_members cfg))
        (mkDF (utc_datetime merged) [], []) = Ok (res, ens_cols) ->
  _compute_residual_scenarios np_sqrt cons ren model
  = match ens_cols with
    | [] => Ok res
    | _ :: _ =>
        cs <- getitems res ens_cols ;;
        Ok (with_stats np_sqrt res (values (nrows res) cs))
    end.
Proof.
  intros Hc Hr Hm He Hcfg Hl.
  unfold _compute_residual_scenarios. rewrite Hc, Hr, Hm.
  cbn [bind]. rewrite He.
  destruct (merge_Ok _ _ _ _ _ _ Hm) as (lt & rt & _ & _ & Ht).
  unfold getitem_time. rewrite Ht. cbn [bind]. rewrite Hcfg. cbn [bind].
  rewrite Ht in Hl. fold (member_step merged).
  unfold member_step in *. rewrite Hl. cbn [bind].
  unfold with_stats. reflexivity.
Qed.

(** C1.  When the joined table is not empty and carries [consumption_mw],
    [_compute_residual_scenarios] returns a table on the joined timestamps
    in which, for each member [i] from 1 to the member count of the model
    whose column [total_ren_ens_i] is in the joined table, the column
    [residual_ens_i] is [consumption_mw] minus [total_ren_ens_i] row by
    row.  On the four-hour example the two members come out as
    90..120 and 80..110, [ens_mean] as their average and [ens_P50] as
    the same numbers. *)
Theorem residual_member_columns (np_sqrt : Q -> Q) :
  (forall (cons ren merged : DataFrame) (model : string)
          (cfg : model_config) (cm : list cell),
      empty cons = false -> empty ren = false ->
      merge Inner "_x" "_y" cons ren = Ok merged ->
      empty merged = false ->
      available_model model = Ok cfg ->
      getitem merged "consumption_mw" = Ok cm ->
      exists r,
        _compute_residual_scenarios np_sqrt cons ren model = Ok r
        /\ utc_datetime r = utc_datetime merged
        /\ forall i rc,
             1 <= i <= n_members cfg ->
             getitem merged (total_ren_ens i) = Ok rc ->
             getitem r (residual_ens i) = Ok (zip_with cell_sub cm rc))
  /\ exists r m1 m2 mean p50,
       _compute_residual_scenarios np_sqrt example_consumption
                                   example_renewables "eceps" = Ok r
       /\ getitem r "residual_ens_01" = Ok m1
       /\ m1 = [Num 90; Num 100; Num 110; Num 120]
       /\ getitem r "residual_ens_02" = Ok m2
       /\ m2 = [Num 80; Num 90; Num 100; Num 110]
       /\ getitem r "ens_mean" = Ok mean
       /\ Forall2 cell_eq mean
            (zip_with (fun a b => cell_div (cell_add a b) (Num 2)) m1 m2)
       /\ getitem r "ens_P50" = Ok p50
       /\ Forall2 cell_eq p50 mean.
Proof.
  split.
  - intros cons ren merged model cfg cm Hc Hr Hm He Hcfg Hcm.
    destruct (member_loop_total merged cm Hcm (seq 1 (n_members cfg))
                (mkDF (utc_datetime merged) [], [])) as ([res cols] & Hl).
    pose proof (compute_forward np_sqrt _ _ _ _ _ _ _ Hc Hr Hm He Hcfg Hl)
      as Hf.
    pose proof (member_loop _ _ _ _ _ _ Hl) as (Hu & _ & Hcol & _ & Hsup).
    simpl in Hu.
    assert (Hmem : forall i rc,
               1 <= i <= n_members cfg ->
               getitem merged (total_ren_ens i) = Ok rc ->
               lookup (residual_ens i) (columns res)
               = Some (zip_with cell_sub cm rc)).
    { intros i rc Hi Hrc.
      destruct (Hcol (seq_NoDup _ _) i rc) as (c & Hc' & Hlk); auto.
      - apply in_seq. lia.
      - congruence. }
    destruct cols as [|n0 cols].
    + exists res. repeat split; auto.
      intros i rc Hi Hrc. apply getitem_Ok. auto.
    + destruct (getitems_total res (n0 :: cols)) as (cs & Hcs).
      { apply Hsup. simpl. tauto. }
      rewrite Hcs in Hf. cbn [bind] in Hf.
      eexists. split; [exact Hf|]. split.
      * now rewrite utc_with_stats.
      * intros i rc Hi Hrc. apply getitem_Ok.
        rewrite lookup_with_stats_residual. auto.
  - eexists. do 4 eexists.
    split; [vm_compute; reflexivity|].
    split; [vm_compute; reflexivity|].
    split; [reflexivity|].
    split; [vm_compute; reflexivity|].
    split; [reflexivity|].
    split; [vm_compute; reflexivity|].
    split; [vm_compute; repeat constructor|].
    split; [vm_compute; reflexivity|].
    vm_compute; repeat constructor.
Qed.

Lemma residual_member_columns_example :
  exists r,
    _compute_residual_scenarios (fun q => q) example_consumption
                                example_renewables "eceps" = Ok r
    /\ utc_datetime r = Some [0; 3600; 7200; 10800]%Z
    /\ getitem r (residual_ens 2)
       = Ok (zip_with cell_sub [Num 100; Num 110; Num 120; Num 130]
                      [Num 20; Num 20; Num 20; Num 20]).
Proof.
  destruct (proj1 (residual_member_columns (fun q => q))
              example_consumption example_renewables
              (mkDF (Some [0; 3600; 7200; 10800]%Z)
                    (List.app (columns example_consumption)
                              (columns example_renewables)))
              "eceps"
              (mkModel "ECMWF ENS (eceps)"
                 "ECMWF Ensemble - 50 members, 15-day horizon" 50)
              [Num 100; Num 110; Num 120; Num 130])
    as (r & Hr & Hu & Hcol);
    try (vm_compute; reflexivity).
  exists r. split; [exact Hr|]. split; [exact Hu|].
  apply Hcol; [simpl; lia | vm_compute; reflexivity].
Defined.

(** ** Sorting rationals *)

Lemma in_insert {A} (leb : A -> A -> bool) (x z : A) (l : list A) :
  In z (insert leb x l) <-> z = x \/ In z l.
Proof.
  induction l as [|y l IH]; simpl.
  - intuition congruence.
  - destruct (leb x y); simpl; rewrite ?IH; intuition congruence.
Qed.

Lemma length_insert {A} (leb : A -> A -> bool) (x : A) (l : list A) :
  List.length (insert leb x l) = S (List.length l).
Proof.
  induction l as [|y l IH]; simpl; [reflexivity|].
  destruct (leb x y); simpl; auto.
Qed.

Lemma length_isort {A} (leb : A -> A -> bool) (l : list A) :
  List.length (isort leb l) = List.length l.
Proof.
  induction l as [|x l IH]; simpl; [reflexivity|].
  now rewrite length_insert, IH.
Qed.

Lemma ascending_insert (x : Q) (l : list Q) :
  ascending l -> ascending (insert Qle_bool x l).
Proof.
  induction 1 as [|y l Hy Hl IH]; simpl.
  - constructor; [intros y [] | constructor].
  - destruct (Qle_bool x y) eqn:E.
    + apply Qle_bool_iff in E. constructor.
      * intros z [<-|Hz]; [exact E|].
        apply Qle_trans with y; auto.
      * now constructor.
    + assert (Hyx : (y <= x)%Q).
      { destruct (Qlt_le_dec y x) as [Hlt|Hle].
        - now apply Qlt_le_weak.
        - apply Qle_bool_iff in Hle. congruence. }
      constructor; [|exact IH].
      intros z Hz. apply in_insert in Hz. destruct Hz as [->|Hz]; auto.
Qed.

Lemma ascending_isort (l : list Q) : ascending (isort Qle_bool l).
Proof.
  induction l as [|x l IH]; simpl; [constructor|].
  now apply ascending_insert.
Qed.

Lemma ascending_nth (l : list Q) :
  ascending l ->
  forall i j, i <= j -> j < List.length l ->
              (nth i l 0 <= nth j l 0)%Q.
Proof.
  induction 1 as [|x l Hx Hl IH]; intros i j Hij Hj; simpl in Hj; [lia|].
  destruct i as [|i], j as [|j]; simpl.
  - apply Qle_refl.
  - apply Hx. apply nth_In. lia.
  - lia.
  - apply IH; lia.
Qed.

(** ** Percentiles grow with the level *)

Lemma lerp_bounds (a b t : Q) :
  (a <= b)%Q -> (0 <= t)%Q -> (t <= 1)%Q ->
  (a <= lerp a b t)%Q /\ (lerp a b t <= b)%Q.
Proof. unfold lerp. intros. split; nra. Qed.

Lemma lerp_mono (a b s t : Q) :
  (a <= b)%Q -> (s <= t)%Q -> (lerp a b s <= lerp a b t)%Q.
Proof. unfold lerp. intros. nra. Qed.

Lemma percentile_sorted_mono (xs : list Q) (p q : Q) :
  ascending xs -> xs <> [] ->
  (0 <= p)%Q -> (p <= q)%Q -> (q <= 100)%Q ->
  (percentile_sorted xs p <= percentile_sorted xs q)%Q.
Proof.
  intros Hs Hne Hp Hpq Hq. unfold percentile_sorted.
  set (n := List.length xs).
  assert (Hn : 1 <= n).
  { subst n. destruct xs; [congruence | simpl; lia]. }
  set (M := inject_Z (Z.of_nat (n - 1))).
  assert (HM : (0 <= M)%Q).
  { subst M. change 0%Q with (inject_Z 0). rewrite <- Zle_Qle. lia. }
  set (vp := (M * (p / 100))%Q). set (vq := (M * (q / 100))%Q).
  assert (Hvp : (0 <= vp)%Q).
  { subst vp. apply Qmult_le_0_compat; [exact HM|].
    apply Qle_shift_div_l; [reflexivity | lra]. }
  assert (Hvpq : (vp <= vq)%Q).
  { subst vp vq.
    assert ((p / 100 <= q / 100)%Q).
    { apply Qle_shift_div_l; [reflexivity|].
      unfold Qdiv. field_simplify. lra. }
    nra. }
  assert (HvqM : (vq <= M)%Q).
  { subst vq.
    assert ((q / 100 <= 1)%Q).
    { apply Qle_shift_div_r; [reflexivity | lra]. }
    nra. }
  pose proof (Qfloor_le vp) as Hfp. pose proof (Qlt_floor vp) as Hfp'.
  pose proof (Qfloor_le vq) as Hfq. pose proof (Qlt_floor vq) as Hfq'.
  assert (Hfp0 : (0 <= Qfloor vp)%Z).
  { change 0%Z with (Qfloor 0). now apply Qfloor_resp_le. }
  assert (Hfpq : (Qfloor vp <= Qfloor vq)%Z) by now apply Qfloor_resp_le.
  assert (HfqM : (Qfloor vq <= Z.of_nat (n - 1))%Z).
  { rewrite <- (Qfloor_Z (Z.of_nat (n - 1))). now apply Qfloor_resp_le. }
  rewrite inject_Z_plus in Hfp', Hfq'.
  set (fp := Qfloor vp) in *. set (fq := Qfloor vq) in *.
  assert (Hlop : Z.to_nat fp <= n - 1) by lia.
  assert (Hloq : Z.to_nat fq <= n - 1) by lia.
  assert (Hgp : (0 <= vp - inject_Z fp)%Q /\ (vp - inject_Z fp <= 1)%Q).
  { change (inject_Z 1) with 1%Q in Hfp'. split; lra. }
  assert (Hgq : (0 <= vq - inject_Z fq)%Q /\ (vq - inject_Z fq <= 1)%Q).
  { change (inject_Z 1) with 1%Q in Hfq'. split; lra. }
  assert (Hab : forall lo, lo <= n - 1 ->
              (nth lo xs 0 <= nth (Nat.min (lo + 1) (n - 1)) xs 0)%Q).
  { intros lo Hlo. apply ascending_nth; auto; subst n; lia. }
  destruct (Z.eq_dec fp fq) as [E|E].
  - rewrite <- E. apply lerp_mono; [now apply Hab|].
    rewrite <- E in Hgq. lra.
  - assert (Hlt : Z.to_nat fp + 1 <= Z.to_nat fq) by lia.
    apply Qle_trans
      with (nth (Nat.min (Z.to_nat fp + 1) (n - 1)) xs 0%Q).
    + apply lerp_bounds; [now apply Hab | tauto | tauto].
    + apply Qle_trans with (nth (Z.to_nat fq) xs 0%Q).
      * apply ascending_nth; auto; subst n; lia.
      * apply lerp_bounds; [now apply Hab | tauto | tauto].
Qed.

Lemma nanpercentile_mono (row : list cell) (p q : nat) :
  numbers row <> [] -> p <= q -> q <= 100 ->
  cell_le (nanpercentile row p) (nanpercentile row q).
Proof.
  intros Hne Hpq Hq. unfold nanpercentile.
  destruct (numbers row) as [|x xs] eqn:E; [congruence|].
  unfold cell_le. apply percentile_sorted_mono.
  - apply ascending_isort.
  - intros H. apply (f_equal (@List.length Q)) in H.
    rewrite length_isort in H. discriminate.
  - change 0%Q with (inject_Z 0). rewrite <- Zle_Qle. lia.
  - rewrite <- Zle_Qle. lia.
  - change 100%Q with (inject_Z 100). rewrite <- Zle_Qle. lia.
Qed.

Lemma numbers_In (row : list cell) (x : Q) :
  In (Num x) row -> numbers row <> [].
Proof.
  induction row as [|c row IH]; simpl; [tauto|].
  intros [->|H]; [discriminate|].
  destruct c; [discriminate | auto].
Qed.

Lemma percentile_levels_le (p : nat) : In p percentile_levels -> p <= 100.
Proof.
  unfold percentile_levels. rewrite in_map_iff.
  intros (k & <- & Hk). apply in_seq in Hk. lia.
Qed.

Lemma lookup_In (name : string) (cols : list (string * list cell))
  (c : list cell) :
  lookup name cols = Some c -> In (name, c) cols.
Proof.
  induction cols as [|d cols IH]; simpl; [discriminate|].
  destruct (fst d =? name) eqn:E.
  - intros H. injection H as <-. apply String.eqb_eq in E.
    left. destruct d. simpl in *. now subst.
  - auto.
Qed.

Lemma getitems_In (df : DataFrame) (cols : list string)
  (cs : list (list cell)) (n : string) (c : list cell) :
  getitems df cols = Ok cs -> In n cols ->
  lookup n (columns df) = Some c -> In c cs.
Proof.
  unfold getitems. intros H Hn Hc. inv_bind H as parts Hp.
  injection H as <-. apply mapM_Ok in Hp.
  apply lookup_In in Hc.
  assert (G : exists part, In part parts /\ In c part).
  { clear -Hp Hn Hc. induction Hp as [|x part xs parts Hx Hxs IH].
    - contradiction.
    - destruct Hn as [->|Hn].
      + exists part. split; [now left|].
        remember (filter (fun c0 => fst c0 =? n) (columns df)) as fl
          eqn:E.
        destruct fl as [|d fl]; [discriminate|].
        injection Hx as <-. change (In c (map snd (d :: fl))). rewrite E.
        apply in_map_iff. exists (n, c). split; [reflexivity|].
        apply filter_In. split; [assumption | apply String.eqb_refl].
      + destruct (IH Hn) as (pt & Hpt & Hcp). exists pt. split; auto.
        now right. }
  destruct G as (part & Hpart & Hcp).
  apply (proj2 (List.in_concat _ _)). eauto.
Qed.

Lemma nth_values (n : nat) (cs : list (list cell)) (k : nat) :
  k < n ->
  nth k (values n cs) [] = map (fun c => nth k c NaN) cs.
Proof.
  intros Hk. unfold values.
  rewrite (nth_indep _ [] (map (fun c => nth 0 c NaN) cs))
    by (now rewrite length_map, length_seq).
  rewrite (map_nth (fun k => map (fun c => nth k c NaN) cs) (seq 0 n) 0 k).
  now rewrite seq_nth.
Qed.

(** C6, as amended.  In a table returned by [_compute_residual_scenarios],
    on every row where at least one member column [residual_ens_i] holds a
    number, the 21 percentile columns are there and do not decrease with
    the level: [ens_P p <= ens_P q] for levels [p <= q]. *)
Theorem percentiles_monotone (np_sqrt : Q -> Q) (cons ren : DataFrame)
  (model : string) (r : DataFrame) (k i : nat) (c : list cell) (x : Q)
  (p q : nat) :
  _compute_residual_scenarios np_sqrt cons ren model = Ok r ->
  k < nrows r ->
  getitem r (residual_ens i) = Ok c ->
  nth k c NaN = Num x ->
  In p percentile_levels -> In q percentile_levels -> p <= q ->
  exists a b,
    getitem r (ens_P p) = Ok a /\ getitem r (ens_P q) = Ok b
    /\ cell_le (nth k a NaN) (nth k b NaN).
Proof.
  intros H Hk Hc Hx Hp Hq Hpq. apply getitem_Ok in Hc.
  apply compute_cases in H.
  destruct H as [-> | (merged & cfg & res & cols & _ & _ & Hm & _ & _ & Hl
                       & Hr)]; [discriminate|].
  pose proof (member_loop _ _ _ _ _ _ Hl) as (Hu & _ & _ & Hsub & _).
  assert (Hin : forall n, In n (names res) -> In n cols).
  { apply Hsub. simpl. tauto. }
  destruct Hr as [[-> ->] | (_ & cs & Hcs & ->)].
  - exfalso. apply (Hin (residual_ens i)).
    apply in_names_lookup. congruence.
  - rewrite lookup_with_stats_residual in Hc.
    assert (Hrows : nrows (with_stats np_sqrt res (values (nrows res) cs))
                    = nrows res).
    { unfold nrows at 1 3. rewrite utc_with_stats.
      apply merge_Ok in Hm. destruct Hm as (lt & rt & _ & _ & Hmt).
      simpl in Hu. now rewrite Hu, Hmt. }
    rewrite Hrows in Hk.
    exists (map (fun row => nanpercentile row p) (values (nrows res) cs)),
           (map (fun row => nanpercentile row q) (values (nrows res) cs)).
    split; [apply getitem_Ok; now apply lookup_with_stats_P|].
    split; [apply getitem_Ok; now apply lookup_with_stats_P|].
    assert (Hnth : forall l,
               nth k (map (fun row => nanpercentile row l)
                          (values (nrows res) cs)) NaN
               = nanpercentile (map (fun c => nth k c NaN) cs) l).
    { intros l. rewrite <- (nth_values (nrows res) cs k Hk).
      rewrite (nth_indep _ NaN (nanpercentile [] l)).
      - apply (map_nth (fun row => nanpercentile row l)).
      - rewrite length_map. unfold values.
        now rewrite length_map, length_seq. }
    rewrite !Hnth. apply nanpercentile_mono; auto.
    + apply numbers_In with x. rewrite <- Hx.
      apply (in_map (fun c => nth k c NaN)).
      eapply getitems_In; eauto.
      apply Hin. apply in_names_lookup. congruence.
    + now apply percentile_levels_le.
Qed.

(** C6 as stated fails on a row without any number: all its percentiles
    are NaN, and no comparison with NaN holds. *)
Lemma percentiles_nan_row :
  exists r a b,
    _compute_residual_scenarios (fun q => q) nan_consumption
                                one_renewables "eceps" = Ok r
    /\ empty r = false
    /\ getitem r (ens_P 0) = Ok a /\ getitem r (ens_P 5) = Ok b
    /\ nth 0 a NaN = NaN /\ nth 0 b NaN = NaN
    /\ ~ cell_le (nth 0 a NaN) (nth 0 b NaN).
Proof.
  do 3 eexists.
  split; [vm_compute; reflexivity|].
  split; [reflexivity|].
  split; [vm_compute; reflexivity|].
  split; [vm_compute; reflexivity|].
  split; [reflexivity|]. split; [reflexivity|].
  simpl. tauto.
Qed.

Lemma percentiles_monotone_example :
  exists r a b,
    _compute_residual_scenarios (fun q => q) example_consumption
                                example_renewables "eceps" = Ok r
    /\ getitem r (ens_P 25) = Ok a /\ getitem r (ens_P 75) = Ok b
    /\ cell_le (nth 2 a NaN) (nth 2 b NaN).
Proof.
  destruct (_compute_residual_scenarios (fun q => q) example_consumption
              example_renewables "eceps") as [r|e] eqn:H;
    [|vm_compute in H; discriminate].
  pose proof H as Hr. vm_compute in Hr. injection Hr as Hr.
  destruct (percentiles_monotone (fun q => q) example_consumption
              example_renewables "eceps" r 2 1
              [Num 90; Num 100; Num 110; Num 120] 110 25 75 H)
    as (a & b & Ha & Hb & Hle).
  - rewrite <- Hr. vm_compute. lia.
  - rewrite <- Hr. vm_compute. reflexivity.
  - reflexivity.
  - vm_compute. tauto.
  - vm_compute. tauto.
  - lia.
  - exists r, a, b. auto.
Defined.

Lemma inner_join_rows_bounded_example :
  exists r,
    _compute_residual_scenarios (fun q => q) example_consumption
                                example_renewables "eceps" = Ok r
    /\ nrows r <= Nat.min (nrows example_consumption)
                          (nrows example_renewables).
Proof.
  destruct (_compute_residual_scenarios (fun q => q) example_consumption
              example_renewables "eceps") as [r|e] eqn:H;
    [|vm_compute in H; discriminate].
  exists r. split; [reflexivity|].
  apply (proj1 (inner_join_rows_bounded (fun q => q) example_consumption
                  example_renewables "eceps" r H)).
  - simpl. repeat constructor; simpl; intuition discriminate.
  - simpl. repeat constructor; simpl; intuition discriminate.
Defined.

(** ** Rows of joins and sorts *)

Lemma nth_take (idx : list (option nat)) (c : list cell) (k : nat)
  (oi : option nat) :
  nth_error idx k = Some oi ->
  nth k (take idx c) NaN
  = match oi with
    | Some i => nth i c NaN
    | None => NaN
    end.
Proof.
  intros H. unfold take.
  apply nth_error_nth. now rewrite nth_error_map, H.
Qed.

Lemma length_take (idx : list (option nat)) (c : list cell) :
  List.length (take idx c) = List.length idx.
Proof. unfold take. apply length_map. Qed.

Lemma length_zip_with {A B C} (f : A -> B -> C) (a : list A) (b : list B) :
  List.length (zip_with f a b) = Nat.min (List.length a) (List.length b).
Proof. unfold zip_with. now rewrite length_map, length_combine. Qed.

Lemma nth_zip_with (f : cell -> cell -> cell) (a b : list cell) (k : nat) :
  k < List.length a -> k < List.length b ->
  nth k (zip_with f a b) NaN = f (nth k a NaN) (nth k b NaN).
Proof.
  unfold zip_with. revert b k.
  induction a as [|x a IH]; intros b k Ha Hb; simpl in Ha; [lia|].
  destruct b as [|y b]; simpl in Hb; [lia|].
  destruct k as [|k]; simpl; [reflexivity|].
  apply IH; lia.
Qed.

Lemma nth_map_cell (f : cell -> cell) (a : list cell) (k : nat) :
  k < List.length a -> nth k (map f a) NaN = f (nth k a NaN).
Proof.
  intros Ha. rewrite (nth_indep _ NaN (f NaN)) by now rewrite length_map.
  apply map_nth.
Qed.

Lemma inner_row_at (lt rt : list Z) (k : nat) :
  k < List.length (inner_rows lt rt) ->
  exists t i j,
    nth_error (inner_rows lt rt) k = Some (mkJoined t (Some i) (Some j))
    /\ nth_error lt i = Some t /\ nth_error rt j = Some t.
Proof.
  intros Hk. destruct (nth_error (inner_rows lt rt) k) as [r|] eqn:E.
  - pose proof (nth_error_In _ _ E) as Hin.
    apply in_inner_rows in Hin. destruct Hin as (i & j & Hr & Hi & Hj).
    exists (key r), i, j. rewrite <- Hr. auto.
  - apply nth_error_None in E. lia.
Qed.

Lemma Permutation_insert {A} (leb : A -> A -> bool) (x : A) (l : list A) :
  Permutation (insert leb x l) (x :: l).
Proof.
  induction l as [|y l IH]; simpl; [reflexivity|].
  destruct (leb x y); [reflexivity|].
  rewrite IH. apply perm_swap.
Qed.

Lemma Permutation_isort {A} (leb : A -> A -> bool) (l : list A) :
  Permutation (isort leb l) l.
Proof.
  induction l as [|x l IH]; simpl; [reflexivity|].
  rewrite Permutation_insert. now constructor.
Qed.

Lemma in_isort {A} (leb : A -> A -> bool) (l : list A) (x : A) :
  In x (isort leb l) <-> In x l.
Proof.
  split; apply Permutation_in;
    [apply Permutation_isort | symmetry; apply Permutation_isort].
Qed.

Lemma in_sorted_unique (l : list Z) (t : Z) :
  In t (sorted_unique l) <-> In t l.
Proof. unfold sorted_unique. now rewrite in_isort, nodup_In. Qed.

Lemma in_sorted_unique_str (l : list string) (s : string) :
  In s (sorted_unique_str l) <-> In s l.
Proof. unfold sorted_unique_str. now rewrite in_isort, nodup_In. Qed.

Lemma positions_nil (t : Z) (ts : list Z) :
  positions t ts = [] <-> ~ In t ts.
Proof.
  split.
  - intros H Hin. apply In_nth_error in Hin. destruct Hin as (j & Hj).
    apply in_positions in Hj. rewrite H in Hj. contradiction.
  - intros H. destruct (positions t ts) as [|j js] eqn:E; [reflexivity|].
    exfalso. apply H.
    assert (Hj : In j (positions t ts)) by (rewrite E; now left).
    apply in_positions in Hj. eapply nth_error_In; eauto.
Qed.

Lemma in_outer_rows (lt rt : list Z) (r : joined) :
  In r (outer_rows lt rt) ->
  side_row lt (key r) (left_row r) /\ side_row rt (key r) (right_row r)
  /\ (In (key r) lt \/ In (key r) rt).
Proof.
  unfold outer_rows. rewrite in_flat_map. intros (t & Ht & H).
  apply (proj1 (in_sorted_unique _ _)) in Ht.
  apply (proj1 (in_app_iff _ _ _)) in Ht.
  destruct (positions t lt) as [|i li] eqn:El;
    destruct (positions t rt) as [|j rj] eqn:Er.
  - contradiction.
  - apply in_map_iff in H. destruct H as (j' & <- & Hj').
    rewrite <- Er in Hj'. apply in_positions in Hj'. simpl.
    split; [now apply positions_nil|]. split; [assumption|].
    right. eapply nth_error_In; eauto.
  - apply in_map_iff in H. destruct H as (i' & <- & Hi').
    rewrite <- El in Hi'. apply in_positions in Hi'. simpl.
    split; [assumption|]. split; [now apply positions_nil|].
    left. eapply nth_error_In; eauto.
  - apply in_flat_map in H. destruct H as (i' & Hi' & H).
    apply in_map_iff in H. destruct H as (j' & <- & Hj').
    rewrite <- El in Hi'. rewrite <- Er in Hj'.
    apply in_positions in Hi'. apply in_positions in Hj'. simpl.
    split; [assumption|]. split; [assumption|].
    left. eapply nth_error_In; eauto.
Qed.

Lemma outer_rows_keys (lt rt : list Z) (t : Z) :
  In t (map key (outer_rows lt rt)) <-> In t lt \/ In t rt.
Proof.
  split.
  - rewrite in_map_iff. intros (r & <- & H).
    now apply in_outer_rows in H.
  - intros H. rewrite in_map_iff. unfold outer_rows.
    assert (Ht : In t (sorted_unique (lt ++ rt)))
      by (apply in_sorted_unique, in_app_iff; exact H).
    assert (G : exists r,
               key r = t
               /\ In r match positions t lt, positions t rt with
                       | [], rj => map (fun j => mkJoined t None (Some j)) rj
                       | li, [] => map (fun i => mkJoined t (Some i) None) li
                       | li, rj =>
                           flat_map
                             (fun i =>
                                map (fun j => mkJoined t (Some i) (Some j))
                                    rj) li
                       end).
    { destruct (positions t lt) as [|i li] eqn:El;
        destruct (positions t rt) as [|j rj] eqn:Er.
      - apply positions_nil in El. apply positions_nil in Er. tauto.
      - exists (mkJoined t None (Some j)). simpl. auto.
      - exists (mkJoined t (Some i) None). simpl. auto.
      - exists (mkJoined t (Some i) (Some j)). simpl. auto. }
    destruct G as (r & Hk & Hr). exists r. split; [assumption|].
    apply in_flat_map. exists t. auto.
Qed.

Lemma sort_values_Ok (df : DataFrame) (ts : list Z) :
  utc_datetime df = Some ts ->
  let order := isort (fun a b : nat * Z => Z.leb (snd a) (snd b))
                     (enumerate ts) in
  sort_values df
  = Ok (mkDF (Some (map snd order))
          (map (fun c => (fst c, take (map (fun a => Some (fst a)) order)
                                       (snd c)))
               (columns df))).
Proof. intros H. unfold sort_values, getitem_time. now rewrite H. Qed.

Lemma sort_order_at (ts : list Z) (k : nat) :
  let order := isort (fun a b : nat * Z => Z.leb (snd a) (snd b))
                     (enumerate ts) in
  k < List.length order ->
  exists m t, nth_error order k = Some (m, t) /\ nth_error ts m = Some t.
Proof.
  intros order Hk. destruct (nth_error order k) as [[m t]|] eqn:E.
  - exists m, t. split; [reflexivity|].
    apply nth_error_In in E. apply in_isort in E.
    now apply in_enumerate in E.
  - apply nth_error_None in E. lia.
Qed.

Lemma sort_order_keys (ts : list Z) (t : Z) :
  In t (map snd (isort (fun a b : nat * Z => Z.leb (snd a) (snd b))
                       (enumerate ts)))
  <-> In t ts.
Proof.
  rewrite in_map_iff. split.
  - intros ((m, t') & <- & H). apply in_isort, in_enumerate in H.
    eapply nth_error_In; eauto.
  - intros H. apply In_nth_error in H. destruct H as (m & Hm).
    exists (m, t). split; [reflexivity|].
    now apply in_isort, in_enumerate.
Qed.

Lemma lookup_map_snd (f : list cell -> list cell) (name : string)
  (cols : list (string * list cell)) :
  lookup name (map (fun c => (fst c, f (snd c))) cols)
  = option_map f (lookup name cols).
Proof.
  induction cols as [|c cols IH]; simpl; [reflexivity|].
  destruct (fst c =? name); auto.
Qed.

(** ** The fetch of one issue over a window *)

Lemma names_rename (f : string -> string) (df : DataFrame) :
  names (rename f df) = map f (names df).
Proof. unfold names, rename. simpl. now rewrite !map_map. Qed.

Lemma prefix_ens (s : string) : prefix "ens_" ("ens_" ++ s) = true.
Proof. simpl. now destruct s. Qed.

Lemma rename_loop (l : list string) :
  forall df,
    let df' := fold_left (fun pv col => rename_inplace col pv) l df in
    utc_datetime df' = utc_datetime df
    /\ List.length (columns df') = List.length (columns df)
    /\ forall n, In n (names df') ->
                 prefix "ens_" n = true \/ (In n (names df) /\ ~ In n l).
Proof.
  induction l as [|col l IH]; intros df; simpl.
  - repeat split; auto.
  - destruct (IH (rename_inplace col df)) as (Hu & Hlen & Hn).
    split; [exact Hu|]. split.
    + rewrite Hlen. unfold rename_inplace, rename. simpl.
      apply length_map.
    + intros n Hin. destruct (Hn n Hin) as [Hp | [Hin' Hnl]]; [now left|].
      unfold rename_inplace in Hin'. rewrite names_rename in Hin'.
      apply in_map_iff in Hin'. destruct Hin' as (c & Hc & Hcin).
      destruct (c =? col) eqn:E.
      * left. subst n. apply prefix_ens.
      * right. subst n. split; [assumption|].
        intros [->|Hl]; [|contradiction].
        now rewrite String.eqb_refl in E.
Qed.

Lemma filter_all {A} (f : A -> bool) (l : list A) :
  (forall x, In x l -> f x = true) -> filter f l = l.
Proof.
  induction l as [|x l IH]; simpl; intros H; [reflexivity|].
  rewrite H by auto. f_equal. auto.
Qed.

Lemma pivot_table_no_member (rows : list forecast_row) :
  columns (pivot_table rows) = [] ->
  utc_datetime (pivot_table rows) = Some [].
Proof.
  unfold pivot_table. simpl.
  set (live := filter (fun r => negb (isnan (f_value r))) rows).
  intros H. apply map_eq_nil in H.
  destruct live as [|r live']; [reflexivity|].
  exfalso.
  assert (Hin : In (f_member r)
                   (sorted_unique_str (map f_member (r :: live'))))
    by (apply in_sorted_unique_str; now left).
  rewrite H in Hin. contradiction.
Qed.

Lemma fetch_window_shape (db : Store) (model element : string)
  (issue valid_start valid_end : Z) (location : option string) :
  let df := get_ensemble_by_issue_and_time db model element issue
                                           valid_start valid_end location in
  empty df = false ->
  exists ts m,
    utc_datetime df = Some ts /\ lookup "ens_mean" (columns df) = Some m.
Proof.
  unfold get_ensemble_by_issue_and_time. cbv zeta.
  destruct (reachable db); cbn [negb];
    [|intros H; cbv in H; discriminate H].
  destruct (select_window db (or_default COUNTRY location) model element
                          issue valid_start valid_end) as [|r0 rows];
    [intros H; cbv in H; discriminate H|].
  set (pv := pivot_table (r0 :: rows)).
  destruct (rename_loop (names pv) pv) as (Hu & Hlen & Hn).
  set (pv' := fold_left (fun pv col => rename_inplace col pv) (names pv) pv)
    in *.
  assert (Hall : filter (prefix "ens_") (names pv') = names pv').
  { apply filter_all. intros n Hin.
    destruct (Hn n Hin) as [Hp | [Hin' Hnot]]; [exact Hp | contradiction]. }
  rewrite Hall.
  destruct (names pv') as [|n0 ns] eqn:En.
  - intros He. exfalso.
    assert (Hc : columns pv = []).
    { apply length_zero_iff_nil. rewrite <- Hlen.
      unfold names in En. apply map_eq_nil in En. now rewrite En. }
    apply pivot_table_no_member in Hc. fold pv in Hc.
    unfold empty, nrows in He. rewrite Hu, Hc in He.
    simpl in He. rewrite orb_true_r in He. discriminate.
  - destruct (getitems_total pv' (n0 :: ns)) as (cs & Hcs).
    { rewrite En. auto. }
    rewrite Hcs. intros _.
    unfold pv at 1 in Hu. unfold pivot_table in Hu. simpl in Hu.
    eexists. eexists. split.
    + rewrite utc_setitem. exact Hu.
    + apply lookup_setitem_same.
Qed.

(** ** [compute_forecast_delta] *)

Lemma merge_means (ots nts : list Z) (om nm : list cell) :
  merge Inner "_old" "_new" (mkDF (Some ots) [("ens_mean", om)])
        (mkDF (Some nts) [("ens_mean", nm)])
  = Ok (mkDF (Some (map key (inner_rows ots nts)))
          [("ens_mean_old", take (map left_row (inner_rows ots nts)) om);
           ("ens_mean_new", take (map right_row (inner_rows ots nts)) nm)]).
Proof. reflexivity. Qed.

Lemma compute_forecast_delta_cases (db : Store) (model element : string)
  (issue_new issue_old valid_start valid_end : Z)
  (countries : option (list string)) (location : option string) :
  let loc := Some (upper (resolve_location countries location)) in
  let old_df := get_ensemble_by_issue_and_time db model element issue_old
                  valid_start valid_end loc in
  let new_df := get_ensemble_by_issue_and_time db model element issue_new
                  valid_start valid_end loc in
  compute_forecast_delta db model element issue_new issue_old
                         valid_start valid_end countries location
  = Ok DataFrame_new
  \/ exists ots om nts nm,
       utc_datetime old_df = Some ots
       /\ lookup "ens_mean" (columns old_df) = Some om
       /\ utc_datetime new_df = Some nts
       /\ lookup "ens_mean" (columns new_df) = Some nm
       /\ inner_rows ots nts <> []
       /\ compute_forecast_delta db model element issue_new issue_old
                                 valid_start valid_end countries location
          = Ok (delta_frame ots om nts nm).
Proof.
  intros loc old_df new_df. unfold compute_forecast_delta.
  fold loc. fold old_df. fold new_df.
  destruct (empty old_df) eqn:Eo; [now left|].
  destruct (empty new_df) eqn:En; [now left|].
  cbn [orb].
  destruct (fetch_window_shape db model element issue_old valid_start
              valid_end loc Eo) as (ots & om & Hot & Hom).
  destruct (fetch_window_shape db model element issue_new valid_start
              valid_end loc En) as (nts & nm & Hnt & Hnm).
  fold old_df in Hot, Hom. fold new_df in Hnt, Hnm.
  unfold time_and, getitem_time, getitem.
  rewrite Hot, Hom, Hnt, Hnm. cbn [bind].
  rewrite merge_means. cbn [bind].
  destruct (inner_rows ots nts) as [|j0 js] eqn:Ej; [now left|].
  right. exists ots, om, nts, nm.
  repeat (split; [first [assumption | reflexivity]|]).
  split; [rewrite Ej; discriminate|].
  unfold delta_frame. rewrite Ej. reflexivity.
Qed.

Lemma delta_guard (o d : cell) :
  cell_eq o (Num 0) -> cell_eq d (Num 5) ->
  cell_eq (cell_mul (cell_div d (cell_add o (Num (1 # 10)%Q))) (Num 100%Q))
          (Num 5000).
Proof.
  destruct o as [o|], d as [d|]; simpl; try tauto.
  intros Ho Hd.
  destruct (Qeq_bool (o + (1 # 10)) 0) eqn:E.
  - apply Qeq_bool_eq in E. rewrite Ho in E. discriminate E.
  - simpl. rewrite Ho, Hd. reflexivity.
Qed.

(** C4.  [compute_forecast_delta] always returns a table.  On each of its
    rows the two means are the [ens_mean] of the old and of the new issue
    at the timestamp of the row, [delta] is the new mean minus the old
    one, and [delta_pct] is [delta / (old mean + 0.1) * 100]; for an old
    mean of 0 and a delta of 5 this is 5000. *)
Theorem forecast_delta_rows (db : Store) (model element : string)
  (issue_new issue_old valid_start valid_end : Z)
  (countries : option (list string)) (location : option string) :
  exists r,
    compute_forecast_delta db model element issue_new issue_old
                           valid_start valid_end countries location = Ok r
    /\ (empty r = false ->
        has_column "old_mean" r = true /\ has_column "new_mean" r = true
        /\ has_column "delta" r = true /\ has_column "delta_pct" r = true)
    /\ forall k, k < nrows r ->
         (exists i j,
             nth_error
               (timestamps
                  (get_ensemble_by_issue_and_time db model element issue_old
                     valid_start valid_end
                     (Some (upper (resolve_location countries location)))))
               i = nth_error (timestamps r) k
             /\ nth_error
                  (timestamps
                     (get_ensemble_by_issue_and_time db model element
                        issue_new valid_start valid_end
                        (Some (upper (resolve_location countries
                                                       location)))))
                  j = nth_error (timestamps r) k
             /\ cell_of r "old_mean" k
                = cell_of (get_ensemble_by_issue_and_time db model element
                             issue_old valid_start valid_end
                             (Some (upper (resolve_location countries
                                                            location))))
                          "ens_mean" i
             /\ cell_of r "new_mean" k
                = cell_of (get_ensemble_by_issue_and_time db model element
                             issue_new valid_start valid_end
                             (Some (upper (resolve_location countries
                                                            location))))
                          "ens_mean" j)
         /\ cell_of r "delta" k
            = cell_sub (cell_of r "new_mean" k) (cell_of r "old_mean" k)
         /\ cell_of r "delta_pct" k
            = cell_mul (cell_div (cell_of r "delta" k)
                                 (cell_add (cell_of r "old_mean" k)
                                           (Num (1 # 10)%Q)))
                       (Num 100%Q)
         /\ (cell_eq (cell_of r "old_mean" k) (Num 0) ->
             cell_eq (cell_of r "delta" k) (Num 5) ->
             cell_eq (cell_of r "delta_pct" k) (Num 5000)).
Proof.
  destruct (compute_forecast_delta_cases db model element issue_new
              issue_old valid_start valid_end countries location)
    as [H | (ots & om & nts & nm & Hot & Hom & Hnt & Hnm & Hne & H)].
  - exists DataFrame_new. split; [exact H|]. split.
    + intros He. cbv in He. discriminate He.
    + intros k Hk. change (nrows DataFrame_new) with 0 in Hk. lia.
  - exists (delta_frame ots om nts nm). split; [exact H|]. split.
    + intros _. repeat split; reflexivity.
    + intros k Hk.
      set (rows := inner_rows ots nts).
      assert (Hk' : k < List.length rows).
      { unfold delta_frame, nrows in Hk. simpl in Hk.
        now rewrite length_map in Hk. }
      destruct (inner_row_at ots nts k Hk') as (t & i & j & Hrow & Hi & Hj).
      fold rows in Hrow.
      set (old := take (map left_row rows) om).
      set (new := take (map right_row rows) nm).
      assert (Hlo : List.length old = List.length rows)
        by (unfold old; now rewrite length_take, length_map).
      assert (Hln : List.length new = List.length rows)
        by (unfold new; now rewrite length_take, length_map).
      assert (Ho : cell_of (delta_frame ots om nts nm) "old_mean" k
                   = nth k old NaN) by reflexivity.
      assert (Hn : cell_of (delta_frame ots om nts nm) "new_mean" k
                   = nth k new NaN) by reflexivity.
      assert (Hd : cell_of (delta_frame ots om nts nm) "delta" k
                   = cell_sub (nth k new NaN) (nth k old NaN)).
      { change (cell_of (delta_frame ots om nts nm) "delta" k)
          with (nth k (zip_with cell_sub new old) NaN).
        apply nth_zip_with; lia. }
      assert (Hp : cell_of (delta_frame ots om nts nm) "delta_pct" k
                   = cell_mul
                       (cell_div (cell_sub (nth k new NaN) (nth k old NaN))
                                 (cell_add (nth k old NaN)
                                           (Num (1 # 10)%Q)))
                       (Num 100%Q)).
      { change (cell_of (delta_frame ots om nts nm) "delta_pct" k)
          with (nth k (map (fun q => cell_mul q (Num 100%Q))
                           (zip_with cell_div (zip_with cell_sub new old)
                              (map (fun o => cell_add o (Num (1 # 10)%Q))
                                   old))) NaN).
        rewrite nth_map_cell
          by (rewrite length_zip_with, length_zip_with, length_map; lia).
        rewrite nth_zip_with
          by (rewrite ?length_zip_with, ?length_map; lia).
        rewrite nth_zip_with by lia.
        now rewrite nth_map_cell by lia. }
      rewrite Ho, Hn, Hd, Hp.
      split; [|split; [reflexivity|split; [reflexivity|apply delta_guard]]].
      exists i, j.
      assert (Ht : nth_error (timestamps (delta_frame ots om nts nm)) k
                   = Some t).
      { unfold delta_frame, timestamps. simpl. fold rows.
        now rewrite nth_error_map, Hrow. }
      unfold timestamps at 1 3. rewrite Hot, Hnt, Ht.
      unfold cell_of. rewrite Hom, Hnm.
      repeat split; auto.
      * unfold old. now rewrite (nth_take _ _ _ (Some i))
          by (now rewrite nth_error_map, Hrow).
      * unfold new. now rewrite (nth_take _ _ _ (Some j))
          by (now rewrite nth_error_map, Hrow).
Qed.

(** ** [compute_residual_load_delta] *)

Lemma compute_forecast_delta_result (db : Store) (model element : string)
  (issue_new issue_old valid_start valid_end : Z)
  (countries : option (list string)) (location : option string) :
  exists d,
    compute_forecast_delta db model element issue_new issue_old
                           valid_start valid_end countries location = Ok d
    /\ delta_result d.
Proof.
  destruct (compute_forecast_delta_cases db model element issue_new
              issue_old valid_start valid_end countries location)
    as [H | (ots & om & nts & nm & _ & _ & _ & _ & Hne & H)].
  - exists DataFrame_new. split; [exact H | now left].
  - exists (delta_frame ots om nts nm). split; [exact H|].
    right. eauto 6.
Qed.

Lemma delta_result_shape (d : DataFrame) :
  delta_result d ->
  (d = DataFrame_new /\ empty d = true)
  \/ exists ts D,
       empty d = false /\ ts <> [] /\ List.length D = List.length ts
       /\ utc_datetime d = Some ts /\ lookup "delta" (columns d) = Some D.
Proof.
  intros [-> | (ots & om & nts & nm & Hne & ->)]; [left; auto|].
  right. unfold delta_frame.
  set (rows := inner_rows ots nts) in *.
  exists (map key rows),
         (zip_with cell_sub (take (map right_row rows) nm)
                   (take (map left_row rows) om)).
  split; [|split; [|split; [|split; [reflexivity | reflexivity]]]].
  - destruct rows; [congruence | reflexivity].
  - destruct rows; [congruence | discriminate].
  - rewrite length_zip_with, !length_take, !length_map. lia.
Qed.

Lemma delta_as_Ok (name : string) (d : DataFrame) (ts : list Z)
  (D : list cell) :
  utc_datetime d = Some ts -> lookup "delta" (columns d) = Some D ->
  delta_as name d = Ok (mkDF (Some ts) [(name, D)]).
Proof.
  intros Ht HD. unfold delta_as, time_and, getitem_time, getitem.
  now rewrite Ht, HD.
Qed.

Lemma nth_repeat_zero (n m : nat) :
  m < n -> nth m (repeat (Num 0%Q) n) NaN = Num 0.
Proof.
  intros H. rewrite (nth_indep _ NaN (Num 0%Q)) by now rewrite repeat_length.
  apply nth_repeat.
Qed.

Lemma joined_both (wdf sdf : DataFrame) (wts sts : list Z)
  (WD SD : list cell) :
  wts <> [] ->
  utc_datetime wdf = Some wts -> lookup "delta" (columns wdf) = Some WD ->
  utc_datetime sdf = Some sts -> lookup "delta" (columns sdf) = Some SD ->
  exists pre,
    merge Outer "_x" "_y" (mkDF (Some wts) [("wind_delta", WD)])
          (mkDF (Some sts) [("solar_delta", SD)]) = Ok pre
    /\ joined_ok wdf sdf pre.
Proof.
  intros Hne Hwt HWD Hst HSD. eexists. split; [reflexivity|].
  set (rows := outer_rows wts sts).
  exists (map key rows), (take (map left_row rows) WD),
         (take (map right_row rows) SD).
  split; [reflexivity|]. split; [reflexivity|]. split; [reflexivity|].
  split; [now rewrite length_take, !length_map|].
  split; [now rewrite length_take, !length_map|].
  assert (Hkeys : forall t, In t (map key rows) <-> In t wts \/ In t sts)
    by (intros t; apply outer_rows_keys).
  split.
  { destruct wts as [|t0 wts']; [congruence|].
    intros E. assert (Hin : In t0 (map key rows))
      by (apply Hkeys; left; now left).
    rewrite E in Hin. contradiction. }
  split.
  { unfold timestamps. now rewrite Hwt, Hst. }
  intros m t Hm. rewrite nth_error_map in Hm.
  destruct (nth_error rows m) as [row|] eqn:Erow; [|discriminate].
  simpl in Hm. injection Hm as Hm.
  pose proof (nth_error_In _ _ Erow) as Hin.
  apply in_outer_rows in Hin. rewrite Hm in Hin.
  destruct Hin as (Hl & Hr & _).
  split.
  - rewrite (nth_take _ _ _ (left_row row))
      by (now rewrite nth_error_map, Erow).
    unfold side_value, timestamps, cell_of. rewrite Hwt, HWD.
    destruct (left_row row) as [i|]; simpl in Hl; [left; eauto | right; auto].
  - rewrite (nth_take _ _ _ (right_row row))
      by (now rewrite nth_error_map, Erow).
    unfold side_value, timestamps, cell_of. rewrite Hst, HSD.
    destruct (right_row row) as [i|]; simpl in Hr; [left; eauto | right; auto].
Qed.

Lemma joined_wind_only (wdf : DataFrame) (wts : list Z) (WD : list cell) :
  wts <> [] -> List.length WD = List.length wts ->
  utc_datetime wdf = Some wts -> lookup "delta" (columns wdf) = Some WD ->
  joined_ok wdf DataFrame_new
    (setitem (mkDF (Some wts) [("wind_delta", WD)]) "solar_delta"
             (repeat (Num 0%Q) (nrows (mkDF (Some wts)
                                            [("wind_delta", WD)])))).
Proof.
  intros Hne Hlen Hwt HWD.
  exists wts, WD, (repeat (Num 0%Q) (List.length wts)).
  split; [reflexivity|]. split; [reflexivity|]. split; [reflexivity|].
  split; [assumption|]. split; [apply repeat_length|].
  split; [assumption|]. split.
  { intros t. unfold timestamps. rewrite Hwt. simpl. tauto. }
  intros m t Hm. split.
  - left. exists m. unfold timestamps, cell_of. rewrite Hwt, HWD. auto.
  - right. split; [intros []|].
    rewrite nth_repeat_zero; [reflexivity|].
    apply nth_error_Some. congruence.
Qed.

Lemma joined_solar_only (sdf : DataFrame) (sts : list Z) (SD : list cell) :
  sts <> [] -> List.length SD = List.length sts ->
  utc_datetime sdf = Some sts -> lookup "delta" (columns sdf) = Some SD ->
  joined_ok DataFrame_new sdf
    (setitem (mkDF (Some sts) [("solar_delta", SD)]) "wind_delta"
             (repeat (Num 0%Q) (nrows (mkDF (Some sts)
                                            [("solar_delta", SD)])))).
Proof.
  intros Hne Hlen Hst HSD.
  exists sts, (repeat (Num 0%Q) (List.length sts)), SD.
  split; [reflexivity|]. split; [reflexivity|]. split; [reflexivity|].
  split; [apply repeat_length|]. split; [assumption|].
  split; [assumption|]. split.
  { intros t. unfold timestamps. rewrite Hst. simpl. tauto. }
  intros m t Hm. split.
  - right. split; [intros []|].
    rewrite nth_repeat_zero; [reflexivity|].
    apply nth_error_Some. congruence.
  - left. exists m. unfold timestamps, cell_of. rewrite Hst, HSD. auto.
Qed.

Lemma length_enumerate {A} (l : list A) :
  List.length (enumerate l) = List.length l.
Proof.
  unfold enumerate. rewrite length_combine, length_seq. apply Nat.min_id.
Qed.

Lemma finish_delta_spec (wdf sdf pre : DataFrame) :
  joined_ok wdf sdf pre ->
  exists r, finish_delta pre = Ok r /\ residual_ok wdf sdf r.
Proof.
  intros (pts & PW & PS & Hu & HPW & HPS & HlW & HlS & Hne & Hcov & Hrow).
  assert (He : empty pre = false).
  { unfold empty, ncols, nrows. rewrite Hu.
    destruct pts; [congruence | reflexivity]. }
  set (order := isort (fun a b : nat * Z => Z.leb (snd a) (snd b))
                      (enumerate pts)).
  set (idx := map (fun a : nat * Z => Some (fst a)) order).
  set (sorted := mkDF (Some (map snd order))
                      (map (fun c => (fst c, take idx (snd c)))
                           (columns pre))).
  assert (Hs : sort_values pre = Ok sorted) by now apply sort_values_Ok.
  assert (Hw0 : lookup "wind_delta" (columns sorted) = Some (take idx PW)).
  { unfold sorted. simpl. now rewrite lookup_map_snd, HPW. }
  assert (Hs0 : lookup "solar_delta" (columns sorted) = Some (take idx PS)).
  { unfold sorted. simpl. now rewrite lookup_map_snd, HPS. }
  set (W := map fillna0 (take idx PW)).
  set (S := map fillna0 (take idx PS)).
  set (r1 := setitem sorted "wind_delta" W).
  set (r2 := setitem r1 "solar_delta" S).
  set (RD := map cell_neg (zip_with cell_add W S)).
  set (r3 := setitem r2 "residual_delta" RD).
  assert (H1 : lookup "solar_delta" (columns r1) = Some (take idx PS)).
  { unfold r1. now rewrite lookup_setitem_other by discriminate. }
  assert (H2w : lookup "wind_delta" (columns r2) = Some W).
  { unfold r2. rewrite lookup_setitem_other by discriminate.
    apply lookup_setitem_same. }
  assert (H2s : lookup "solar_delta" (columns r2) = Some S)
    by apply lookup_setitem_same.
  assert (H3 : lookup "residual_delta" (columns r3) = Some RD)
    by apply lookup_setitem_same.
  eexists. split.
  - unfold finish_delta. rewrite He, Hs. cbn [bind]. unfold getitem.
    rewrite Hw0. cbn [bind]. fold W. fold r1. rewrite H1. cbn [bind].
    fold S. fold r2. rewrite H2w, H2s. cbn [bind]. fold RD. fold r3.
    rewrite H3. cbn [bind]. reflexivity.
  - assert (Hlo : List.length order = List.length pts).
    { unfold order. now rewrite length_isort, length_enumerate. }
    exists (map snd order), W, S.
    split.
    { rewrite utc_setitem. unfold r3. rewrite utc_setitem.
      unfold r2. rewrite utc_setitem. unfold r1. now rewrite utc_setitem. }
    split.
    { rewrite lookup_setitem_other by discriminate. unfold r3.
      now rewrite lookup_setitem_other by discriminate. }
    split.
    { rewrite lookup_setitem_other by discriminate. unfold r3.
      now rewrite lookup_setitem_other by discriminate. }
    split; [now rewrite lookup_setitem_other by discriminate|].
    split; [apply lookup_setitem_same|].
    split; [unfold W, idx; now rewrite length_map, length_take, !length_map|].
    split; [unfold S, idx; now rewrite length_map, length_take, !length_map|].
    split.
    { intros E. apply (f_equal (@List.length Z)) in E.
      rewrite length_map, Hlo in E. destruct pts; [congruence|discriminate]. }
    split.
    { intros t. unfold order. rewrite sort_order_keys. apply Hcov. }
    intros k t Hk.
    assert (Hko : k < List.length order).
    { rewrite <- (length_map snd). apply nth_error_Some. congruence. }
    destruct (sort_order_at pts k Hko) as (m & t' & Hord & Hm).
    fold order in Hord.
    rewrite nth_error_map, Hord in Hk. simpl in Hk. injection Hk as ->.
    assert (Hidx : nth_error idx k = Some (Some m)).
    { unfold idx. now rewrite nth_error_map, Hord. }
    unfold W, S.
    rewrite !nth_map_cell by (rewrite length_take; unfold idx;
                              now rewrite length_map).
    rewrite (nth_take idx PW k (Some m) Hidx).
    rewrite (nth_take idx PS k (Some m) Hidx).
    now apply Hrow.
Qed.

Lemma residual_load_delta_unfold (db : Store) (model : string)
  (issue_new issue_old valid_start valid_end : Z)
  (countries : option (list string)) (location : option string) :
  compute_residual_load_delta db model issue_new issue_old valid_start
                              valid_end countries location
  = (wind_delta <- compute_forecast_delta db model "wind" issue_new
                     issue_old valid_start valid_end countries
                     (Some (resolve_location countries location)) ;;
     solar_delta <- compute_forecast_delta db model "solar" issue_new
                      issue_old valid_start valid_end countries
                      (Some (resolve_location countries location)) ;;
     if empty wind_delta && empty solar_delta then Ok DataFrame_new
     else
       pre <-
         (if negb (empty wind_delta) && negb (empty solar_delta) then
            w <- delta_as "wind_delta" wind_delta ;;
            s <- delta_as "solar_delta" solar_delta ;;
            merge Outer "_x" "_y" w s
          else if negb (empty wind_delta) then
            w <- delta_as "wind_delta" wind_delta ;;
            Ok (setitem w "solar_delta" (repeat (Num 0%Q) (nrows w)))
          else
            s <- delta_as "solar_delta" solar_delta ;;
            Ok (setitem s "wind_delta" (repeat (Num 0%Q) (nrows s)))) ;;
       finish_delta pre).
Proof. reflexivity. Qed.

Lemma residual_load_delta_spec (db : Store) (model : string)
  (issue_new issue_old valid_start valid_end : Z)
  (countries : option (list string)) (location : option string) :
  exists wdf sdf r,
    compute_forecast_delta db model "wind" issue_new issue_old valid_start
      valid_end countries (Some (resolve_location countries location))
    = Ok wdf
    /\ compute_forecast_delta db model "solar" issue_new issue_old
         valid_start valid_end countries
         (Some (resolve_location countries location))
       = Ok sdf
    /\ compute_residual_load_delta db model issue_new issue_old valid_start
         valid_end countries location = Ok r
    /\ ((wdf = DataFrame_new /\ sdf = DataFrame_new /\ r = DataFrame_new)
        \/ ((empty wdf = false \/ empty sdf = false)
            /\ residual_ok wdf sdf r)).
Proof.
  destruct (compute_forecast_delta_result db model "wind" issue_new
              issue_old valid_start valid_end countries
              (Some (resolve_location countries location)))
    as (wdf & Hw & Rw).
  destruct (compute_forecast_delta_result db model "solar" issue_new
              issue_old valid_start valid_end countries
              (Some (resolve_location countries location)))
    as (sdf & Hs & Rs).
  exists wdf, sdf. rewrite residual_load_delta_unfold, Hw, Hs.
  cbn [bind].
  destruct (delta_result_shape wdf Rw)
    as [[-> Ew] | (wts & WD & Ew & Hwne & HWl & Hwt & HWD)];
    destruct (delta_result_shape sdf Rs)
      as [[-> Es] | (sts & SD & Es & Hsne & HSl & Hst & HSD)];
    rewrite ?Ew, ?Es; cbn [andb negb].
  - exists DataFrame_new. repeat split; auto.
  - rewrite (delta_as_Ok _ _ _ _ Hst HSD). cbn [bind].
    destruct (finish_delta_spec _ _ _
                (joined_solar_only sdf sts SD Hsne HSl Hst HSD))
      as (r & Hr & Hok).
    exists r. repeat split; auto.
  - rewrite (delta_as_Ok _ _ _ _ Hwt HWD). cbn [bind].
    destruct (finish_delta_spec _ _ _
                (joined_wind_only wdf wts WD Hwne HWl Hwt HWD))
      as (r & Hr & Hok).
    exists r. repeat split; auto.
  - rewrite (delta_as_Ok _ _ _ _ Hwt HWD), (delta_as_Ok _ _ _ _ Hst HSD).
    cbn [bind].
    destruct (joined_both wdf sdf wts sts WD SD Hwne Hwt HWD Hst HSD)
      as (pre & Hpre & Hj).
    rewrite Hpre. cbn [bind].
    destruct (finish_delta_spec _ _ _ Hj) as (r & Hr & Hok).
    exists r. repeat split; auto.
Qed.

Lemma residual_sign (w s : cell) :
  cell_eq w (Num 3) -> cell_eq s (Num 2) ->
  cell_eq (cell_neg (cell_add w s)) (Num (-5 # 1)%Q).
Proof.
  destruct w as [w|], s as [s|]; simpl; try tauto.
  intros Hw Hs. rewrite Hw, Hs. reflexivity.
Qed.

(** With the quotient and the product taken exactly, the expression
    returns its argument. *)
Lemma normalized_exact (d : cell) : cell_eq (normalized d) d.
Proof.
  unfold normalized. destruct d as [q|]; simpl; [|exact I].
  field.
Qed.

Lemma residual_ok_nonempty (wdf sdf r : DataFrame) :
  residual_ok wdf sdf r -> empty r = false.
Proof.
  intros (ts & W & S & Hu & _ & _ & _ & _ & _ & _ & Hne & _).
  unfold empty, ncols, nrows. rewrite Hu.
  destruct ts; [congruence | reflexivity].
Qed.

(** C5.  [compute_residual_load_delta] always returns a table.  Its
    timestamps are those of the wind delta together with those of the
    solar delta; on each row a side shows its delta at that timestamp, or
    zero where it has none, and [residual_delta] is minus the sum of the
    two: 3 and 2 give -5.  When one side is empty the other still gives
    its rows. *)
Theorem residual_delta_rows (db : Store) (model : string)
  (issue_new issue_old valid_start valid_end : Z)
  (countries : option (list string)) (location : option string) :
  exists wind_delta solar_delta r,
    compute_forecast_delta db model "wind" issue_new issue_old valid_start
      valid_end countries (Some (resolve_location countries location))
    = Ok wind_delta
    /\ compute_forecast_delta db model "solar" issue_new issue_old
         valid_start valid_end countries
         (Some (resolve_location countries location))
       = Ok solar_delta
    /\ compute_residual_load_delta db model issue_new issue_old valid_start
         valid_end countries location = Ok r
    /\ (empty wind_delta = false \/ empty solar_delta = false ->
        empty r = false)
    /\ (empty r = false ->
        has_column "wind_delta" r = true
        /\ has_column "solar_delta" r = true
        /\ has_column "residual_delta" r = true)
    /\ (forall t, In t (timestamps r) <->
                  In t (timestamps wind_delta)
                  \/ In t (timestamps solar_delta))
    /\ forall k, k < nrows r ->
         exists t,
           nth_error (timestamps r) k = Some t
           /\ side_value wind_delta t (cell_of r "wind_delta" k)
           /\ side_value solar_delta t (cell_of r "solar_delta" k)
           /\ cell_of r "residual_delta" k
              = cell_neg (cell_add (cell_of r "wind_delta" k)
                                   (cell_of r "solar_delta" k))
           /\ (cell_eq (cell_of r "wind_delta" k) (Num 3) ->
               cell_eq (cell_of r "solar_delta" k) (Num 2) ->
               cell_eq (cell_of r "residual_delta" k) (Num (-5 # 1)%Q)).
Proof.
  destruct (residual_load_delta_spec db model issue_new issue_old
              valid_start valid_end countries location)
    as (wdf & sdf & r & Hw & Hs & Hr & Hcase).
  exists wdf, sdf, r. repeat (split; [assumption|]).
  destruct Hcase as [(-> & -> & ->) | (Hne & Hok)].
  - split; [intros [H|H]; cbv in H; discriminate H|].
    split; [intros H; cbv in H; discriminate H|].
    split; [simpl; tauto|].
    intros k Hk. change (nrows DataFrame_new) with 0 in Hk. lia.
  - pose proof (residual_ok_nonempty _ _ _ Hok) as He.
    destruct Hok as (ts & W & S & Hu & HW & HS & HRD & _ & HlW & HlS & _
                     & Hcov & Hrow).
    split; [auto|]. split.
    { intros _. repeat split; apply has_column_lookup; congruence. }
    split.
    { unfold timestamps at 1. rewrite Hu. exact Hcov. }
    intros k Hk. rewrite (nrows_time _ _ Hu) in Hk.
    destruct (nth_error ts k) as [t|] eqn:Et;
      [|apply nth_error_None in Et; lia].
    exists t. unfold timestamps at 1. rewrite Hu.
    split; [assumption|].
    unfold cell_of. rewrite HW, HS, HRD.
    destruct (Hrow k t Et) as (Hsw & Hss).
    split; [assumption|]. split; [assumption|].
    assert (Hrd : nth k (map cell_neg (zip_with cell_add W S)) NaN
                  = cell_neg (cell_add (nth k W NaN) (nth k S NaN))).
    { rewrite nth_map_cell by (rewrite length_zip_with; lia).
      now rewrite nth_zip_with by lia. }
    rewrite Hrd. split; [reflexivity | apply residual_sign].
Qed.


Section Binary64_example.
Import PrimFloat.


End Binary64_example.

(** ** Frames returned by the renewables fetch *)

(** A frame is blank, or has its timestamp column. *)
Lemma get_ensemble_forecasts_time (db : Store) (model element : string)
  (issue : option Z) (location : option string) (w : DataFrame) :
  get_ensemble_forecasts db model element issue location = Ok w ->
  w = DataFrame_new \/ exists ts, utc_datetime w = Some ts.
Proof.
  unfold get_ensemble_forecasts. fold (resolved_issue db model element issue).
  destruct (resolved_issue db model element issue) as [i|];
    [|intros H; left; congruence].
  intros H. inv_bind H as cfg Hcfg.
  destruct (reachable db); cbn [negb] in H; [|left; congruence].
  destruct (select_ensemble db (or_default COUNTRY location) model element i
                            (map str (seq 1 (n_members cfg))))
    as [|r0 rows]; [left; congruence|].
  right.
  rewrite (sort_values_Ok _ (sorted_unique
                               (map f_utc
                                    (filter (fun r => negb (isnan (f_value r)))
                                            (r0 :: rows)))))
    in H by reflexivity.
  injection H as <-. simpl. eauto.
Qed.

Lemma get_renewable_ensembles_time (db : Store) (model : string)
  (issue : option Z) (location : option string) (df : DataFrame) :
  get_renewable_ensembles db model issue location = Ok df ->
  empty df = false ->
  exists ts, utc_datetime df = Some ts.
Proof.
  unfold get_renewable_ensembles. intros H He.
  inv_bind H as wind Hw. inv_bind H as solar Hs.
  apply get_ensemble_forecasts_time in Hw, Hs.
  assert (G : forall d, (d = DataFrame_new \/ exists ts, utc_datetime d = Some ts)
                        -> empty d = false ->
                        exists ts, utc_datetime d = Some ts).
  { intros d [-> | Hts] Hd; [cbv in Hd; discriminate Hd | exact Hts]. }
  assert (R : forall f d,
             (d = DataFrame_new \/ exists ts, utc_datetime d = Some ts) ->
             rename f d = DataFrame_new
             \/ exists ts, utc_datetime (rename f d) = Some ts).
  { intros f d [-> | Hts]; [left; reflexivity | right; exact Hts]. }
  destruct (empty wind && empty solar);
    [injection H as <-; cbv in He; discriminate He|].
  set (wr := if negb (empty wind) then rename (fun c => "wind_" ++ c) wind
             else DataFrame_new) in *.
  set (sr := if negb (empty solar) then rename (fun c => "solar_" ++ c) solar
             else DataFrame_new) in *.
  assert (Pw : wr = DataFrame_new \/ exists ts, utc_datetime wr = Some ts).
  { unfold wr. destruct (negb (empty wind)); [now apply R | now left]. }
  assert (Ps : sr = DataFrame_new \/ exists ts, utc_datetime sr = Some ts).
  { unfold sr. destruct (negb (empty solar)); [now apply R | now left]. }
  destruct (empty wr); [injection H as <-; now apply G|].
  destruct (empty sr); [injection H as <-; now apply G|].
  inv_bind H as m Hm. inv_bind H as cfg Hcfg. inv_bind H as acc Hacc.
  destruct acc as [d cols]. injection H as <-.
  apply merge_Ok in Hm. destruct Hm as (lt & rt & _ & _ & Hmt).
  refine (foldM_invariant
            (fun acc : DataFrame * list string =>
               exists ts, utc_datetime (fst acc) = Some ts)
            _ _ _ _ _ _ Hacc).
  - simpl. eauto.
  - intros [d0 c0] i [d1 c1] (ts & Hts) _ Hstep. simpl in *.
    destruct (has_column (wind_ens i) d0 && has_column (solar_ens i) d0).
    + inv_bind Hstep as w Hw'. inv_bind Hstep as s Hs'.
      injection Hstep as <- <-. rewrite utc_setitem. eauto.
    + injection Hstep as <- <-. eauto.
Qed.

Lemma add_total (a b : DataFrame) (ta tb : list Z) :
  utc_datetime a = Some ta -> utc_datetime b = Some tb ->
  exists c tc, add a b = Ok c /\ utc_datetime c = Some tc.
Proof.
  intros Ha Hb. unfold add, getitem_time. rewrite Ha, Hb.
  cbn [bind]. eexists. eexists. split; reflexivity.
Qed.

Lemma add_all_total (rest : list DataFrame) :
  (forall d, In d rest -> exists ts, utc_datetime d = Some ts) ->
  forall a ta, utc_datetime a = Some ta ->
               exists c, foldM add rest a = Ok c.
Proof.
  induction rest as [|d rest IH]; simpl; intros H a ta Ha; [eauto|].
  destruct (H d) as (td & Hd); auto.
  destruct (add_total a d ta td Ha Hd) as (c & tc & Hc & Htc).
  rewrite Hc. cbn [bind]. apply (IH (fun d' Hd' => H d' (or_intror Hd')) c tc Htc).
Qed.

(** ** An update that finds no data *)

Lemma filter_none {A} (f : A -> bool) (l : list A) :
  (forall x, In x l -> f x = false) -> filter f l = [].
Proof.
  induction l as [|x l IH]; simpl; intros H; [reflexivity|].
  rewrite H by auto. auto.
Qed.

Lemma update_aborts (np_sqrt : Q -> Q) (db : Store) (utcnow : nat -> Z)
  (model : string) (issue : option Z) (countries : option (list string))
  (self : Engine) :
  (forall c, In c (requested countries) ->
             exists df, get_renewable_ensembles db model issue
                                                (Some (upper c)) = Ok df) ->
  (forall c df, In c (requested countries) ->
                get_renewable_ensembles db model issue (Some (upper c))
                = Ok df ->
                empty df = true)
  \/ (forall c, In c (requested countries) ->
                empty (get_eq_consumption db issue (Some (lower c))) = true) ->
  update np_sqrt db utcnow model issue countries self
  = (Ok None, set_current_model model self).
Proof.
  intros Hret Hnone.
  unfold update. fold (requested countries).
  destruct (mapM_total
              (fun c => get_renewable_ensembles db model issue
                                                (Some (upper c)))
              (requested countries) Hret) as (fetched & Hf).
  unfold mbind at 1. unfold modify at 1.
  unfold mbind at 1. unfold lift at 1. rewrite Hf.
  pose proof (mapM_Ok _ _ _ Hf) as Hall.
  assert (Hfetched : forall df, In df fetched ->
             exists c, In c (requested countries)
                       /\ get_renewable_ensembles db model issue
                                                  (Some (upper c)) = Ok df).
  { clear -Hall. induction Hall as [|c df cs dfs Hc Hcs IH];
      intros d Hd; [contradiction|].
    destruct Hd as [<-|Hd].
    - exists c. split; [now left | assumption].
    - destruct (IH d Hd) as (c' & Hc' & Hd'). exists c'. split; auto.
      now right. }
  destruct (filter (fun df => negb (empty df)) fetched) as [|df rest] eqn:Er;
    [reflexivity|].
  destruct Hnone as [Hren | Hcons].
  - exfalso.
    assert (Hin : In df (filter (fun df => negb (empty df)) fetched))
      by (rewrite Er; now left).
    apply filter_In in Hin. destruct Hin as (Hin & Hne).
    destruct (Hfetched df Hin) as (c & Hc & Hdf).
    rewrite (Hren c df Hc Hdf) in Hne. discriminate.
  - assert (Htime : forall d, In d (df :: rest) ->
                              exists ts, utc_datetime d = Some ts).
    { intros d Hd. rewrite <- Er in Hd. apply filter_In in Hd.
      destruct Hd as (Hin & Hne).
      destruct (Hfetched d Hin) as (c & Hc & Hdf).
      apply (get_renewable_ensembles_time _ _ _ _ _ Hdf).
      now destruct (empty d). }
    destruct (Htime df (or_introl eq_refl)) as (ts & Hts).
    destruct (add_all_total rest (fun d Hd => Htime d (or_intror Hd))
                df ts Hts) as (agg & Hagg).
    unfold mbind at 1. unfold lift at 1. unfold getitem_time.
    rewrite Hts. cbn [bind]. rewrite Hagg.
    rewrite filter_none; [reflexivity|].
    intros d Hd. apply in_map_iff in Hd. destruct Hd as (c & <- & Hc).
    now rewrite (Hcons c Hc).
Qed.

(** C2.  When the renewables fetch returns a table for every requested
    country, and either all these tables are empty or the consumption
    fetch is empty for every requested country, [update] returns the empty
    dict without raising and leaves the stored scenarios, with their
    metadata, as they were. *)
Theorem update_without_data (np_sqrt : Q -> Q) (db : Store) (utcnow : nat -> Z)
  (model : string) (issue : option Z) (countries : option (list string))
  (self : Engine) :
  (forall c, In c (requested countries) ->
             exists df, get_renewable_ensembles db model issue
                                                (Some (upper c)) = Ok df) ->
  (forall c df, In c (requested countries) ->
                get_renewable_ensembles db model issue (Some (upper c))
                = Ok df ->
                empty df = true)
  \/ (forall c, In c (requested countries) ->
                empty (get_eq_consumption db issue (Some (lower c))) = true) ->
  exists self',
    update np_sqrt db utcnow model issue countries self = (Ok None, self')
    /\ scenarios self' = scenarios self
    /\ last_update self' = last_update self
    /\ DATA_DIR self' = DATA_DIR self.
Proof.
  intros Hret Hnone. exists (set_current_model model self).
  split; [now apply update_aborts|]. repeat split.
Qed.

Lemma update_without_data_example :
  exists self',
    update (fun q => q) example_store (clock_from 60) "gfsens" None None
           (snd (update (fun q => q) example_store (clock_from 0) "eceps" None None init))
    = (Ok None, self')
    /\ scenarios self'
       = scenarios
           (snd (update (fun q => q) example_store (clock_from 0) "eceps" None None init)).
Proof.
  destruct (update_without_data (fun q => q) example_store (clock_from 60) "gfsens" None
              None
              (snd (update (fun q => q) example_store (clock_from 0) "eceps" None None
                           init)))
    as (self' & Hu & Hs & _).
  - intros c [<-|[]]. eexists. vm_compute. reflexivity.
  - left. intros c df [<-|[]] H. vm_compute in H. injection H as <-.
    reflexivity.
  - exists self'. split; assumption.
Defined.

(** The same on a store with renewables and no consumption. *)
Lemma update_without_consumption_example :
  exists self',
    update (fun q => q) renewables_only_store (clock_from 60) "eceps" None None
           (snd (update (fun q => q) example_store (clock_from 0) "eceps" None None init))
    = (Ok None, self')
    /\ scenarios self'
       = scenarios
           (snd (update (fun q => q) example_store (clock_from 0) "eceps" None None init))
    /\ scenarios self' <> None.
Proof.
  eexists. split; [vm_compute; reflexivity|].
  split; [reflexivity | discriminate].
Qed.

(** C9.  An update that aborts for lack of renewables or consumption data
    has already set [current_model] to the model asked for, while the
    stored scenarios are the former ones: after it, [current_model] can
    differ from the model of the stored metadata. *)
Theorem failed_update_sets_current_model (np_sqrt : Q -> Q) :
  (forall (db : Store) (utcnow : nat -> Z) (model : string) (issue : option Z)
          (countries : option (list string)) (self : Engine),
      (forall c, In c (requested countries) ->
                 exists df, get_renewable_ensembles db model issue
                                                    (Some (upper c))
                            = Ok df) ->
      (forall c df, In c (requested countries) ->
                    get_renewable_ensembles db model issue (Some (upper c))
                    = Ok df ->
                    empty df = true)
      \/ (forall c, In c (requested countries) ->
                    empty (get_eq_consumption db issue (Some (lower c)))
                    = true) ->
      current_model
        (snd (update np_sqrt db utcnow model issue countries self))
      = Some model
      /\ scenarios
           (snd (update np_sqrt db utcnow model issue countries self))
         = scenarios self)
  /\ exists sc,
       scenarios
         (snd (update np_sqrt example_store (clock_from 60) "gfsens" None None
                 (snd (update np_sqrt example_store (clock_from 0) "eceps" None None
                              init))))
       = Some sc
       /\ meta_model (metadata sc) = "eceps"
       /\ current_model
            (snd (update np_sqrt example_store (clock_from 60) "gfsens" None None
                    (snd (update np_sqrt example_store (clock_from 0) "eceps" None None
                                 init))))
          = Some "gfsens".
Proof.
  split.
  - intros db utcnow model issue countries self Hret Hnone.
    rewrite (update_aborts np_sqrt db utcnow model issue countries self
               Hret Hnone).
    split; reflexivity.
  - eexists. split; [vm_compute; reflexivity|].
    split; [reflexivity | vm_compute; reflexivity].
Qed.

Lemma failed_update_sets_current_model_example :
  current_model
    (snd (update (fun q => q) example_store (clock_from 60) "gfsens" None None init))
  = Some "gfsens"
  /\ scenarios
       (snd (update (fun q => q) example_store (clock_from 60) "gfsens" None None init))
     = scenarios init.
Proof.
  apply (proj1 (failed_update_sets_current_model (fun q => q))
               example_store (clock_from 60) "gfsens" None None init).
  - intros c [<-|[]]. eexists. vm_compute. reflexivity.
  - left. intros c df [<-|[]] H. vm_compute in H. injection H as <-.
    reflexivity.
Defined.

(** ** The ensemble fetch without data *)

(** C8, as amended.  When [get_ensemble_forecasts] finds no issue, or its
    query matches no row, it returns [pd.DataFrame()]: a table, not None,
    that is empty and has no column at all, the timestamp column
    included. *)
Theorem ensemble_fetch_without_rows (db : Store) (model element : string)
  (issue : option Z) (location : option string) :
  resolved_issue db model element issue = None
  \/ (exists i cfg,
         resolved_issue db model element issue = Some i
         /\ available_model model = Ok cfg
         /\ reachable db = true
         /\ select_ensemble db (or_default COUNTRY location) model element i
                            (map str (seq 1 (n_members cfg))) = []) ->
  exists df,
    get_ensemble_forecasts db model element issue location = Ok df
    /\ empty df = true
    /\ utc_datetime df = None
    /\ columns df = [].
Proof.
  intros H. exists DataFrame_new.
  split; [|repeat split].
  unfold get_ensemble_forecasts.
  fold (resolved_issue db model element issue).
  destruct H as [-> | (i & cfg & -> & Hcfg & Hreach & Hsel)];
    [reflexivity|].
  rewrite Hcfg. cbn [bind]. rewrite Hreach. cbn [negb]. now rewrite Hsel.
Qed.

Lemma ensemble_fetch_without_rows_example :
  exists df,
    get_ensemble_forecasts example_store "gfsens" "wind" None None = Ok df
    /\ empty df = true /\ utc_datetime df = None /\ columns df = [].
Proof.
  apply (ensemble_fetch_without_rows example_store "gfsens" "wind" None None).
  left. vm_compute. reflexivity.
Defined.

(** C8 as stated fails: the table returned when no issue is found has no
    timestamp column. *)
Lemma ensemble_fetch_no_timestamp_column :
  exists df,
    get_ensemble_forecasts empty_store "eceps" "wind" None None = Ok df
    /\ empty df = true
    /\ ncols df = 0
    /\ getitem_time df = Raise (KeyError "utc_datetime").
Proof.
  eexists. split; [vm_compute; reflexivity|]. repeat split.
Qed.

(** ** Wind without solar *)

(** C3 on the store that has wind rows only: the renewables table is the
    wind table, with both timestamps and no [total_ren_ens] column, and the
    update built on it stores residual scenarios without any member or
    statistics column. *)
Theorem wind_only_gives_no_residual :
  get_renewable_ensembles wind_only_store "eceps" None (Some "FR")
  = Ok wind_only_table
  /\ (forall i, has_column (total_ren_ens i) wind_only_table = false)
  /\ exists sc self',
       update (fun q => q) wind_only_store (clock_from 0) "eceps" None None init
       = (Ok (Some sc), self')
       /\ renewables_ens sc = wind_only_table
       /\ residual_scenarios sc = mkDF (Some [0; 3600]%Z) [].
Proof.
  split; [vm_compute; reflexivity|]. split.
  - intros i. reflexivity.
  - eexists. eexists. split; [vm_compute; reflexivity|].
    split; reflexivity.
Qed.

(** Where both sides have rows the total is there. *)
Lemma wind_and_solar_give_total :
  exists df,
    get_renewable_ensembles example_store "eceps" None (Some "FR") = Ok df
    /\ getitem df (total_ren_ens 1) = Ok [Num 6]
    /\ getitem df (total_ren_ens 2) = Ok [Num 9].
Proof.
  eexists. split; [vm_compute; reflexivity|].
  split; vm_compute; reflexivity.
Qed.

(** ** The deltas on an example *)

Lemma forecast_delta_guard_example :
  exists r,
    compute_forecast_delta delta_store "eceps" "wind" 100 50 0 7200
                           None None = Ok r
    /\ getitem r "old_mean" = Ok [Num 0; Num 1]
    /\ getitem r "delta" = Ok [Num 5; Num 3]
    /\ getitem r "delta_pct" = Ok [Num 5000; Num (3000 # 11)].
Proof.
  eexists. split; [vm_compute; reflexivity|].
  repeat split; vm_compute; reflexivity.
Qed.

Lemma residual_delta_example :
  exists r,
    compute_residual_load_delta delta_store "eceps" 100 50 0 7200
                                None None = Ok r
    /\ utc_datetime r = Some [0; 3600]%Z
    /\ getitem r "wind_delta" = Ok [Num 5; Num 3]
    /\ getitem r "solar_delta" = Ok [Num 0; Num 2]
    /\ getitem r "residual_delta" = Ok [Num (-5 # 1); Num (-5 # 1)].
Proof.
  eexists. split; [vm_compute; reflexivity|].
  repeat split; vm_compute; reflexivity.
Qed.

(** ** Wind without solar, on any store *)

Lemma empty_rename (f : string -> string) (df : DataFrame) :
  empty (rename f df) = empty df.
Proof.
  unfold empty, ncols, nrows, rename. simpl.
  rewrite length_map. destruct (utc_datetime df); [reflexivity|].
  now destruct (columns df).
Qed.

Lemma wind_without_solar (db : Store) (model : string) (issue : option Z)
  (location : option string) (wind solar : DataFrame) :
  get_ensemble_forecasts db model "wind" issue location = Ok wind ->
  empty wind = false ->
  get_ensemble_forecasts db model "solar" issue location = Ok solar ->
  empty solar = true ->
  get_renewable_ensembles db model issue location
  = Ok (rename (fun c => "wind_" ++ c) wind)
  /\ utc_datetime (rename (fun c => "wind_" ++ c) wind) = utc_datetime wind
  /\ forall i,
       has_column (total_ren_ens i) (rename (fun c => "wind_" ++ c) wind)
       = false.
Proof.
  intros Hw Ew Hs Es. split; [|split; [reflexivity|]].
  - unfold get_renewable_ensembles. rewrite Hw, Hs. cbn [bind].
    rewrite Ew, Es. cbn [andb negb]. rewrite empty_rename, Ew.
    reflexivity.
  - intros i. unfold has_column. rewrite names_rename.
    induction (names wind) as [|c cs IH]; [reflexivity|].
    cbn [map existsb]. rewrite IH. reflexivity.
Qed.

(** ** The tables an update joins hold each timestamp once *)

Lemma NoDup_sorted_unique (l : list Z) : NoDup (sorted_unique l).
Proof.
  unfold sorted_unique.
  apply (Permutation_NoDup (l := nodup Z.eq_dec l)).
  - symmetry. apply Permutation_isort.
  - apply NoDup_nodup.
Qed.

Lemma map_snd_enumerate {A} (l : list A) : map snd (enumerate l) = l.
Proof.
  unfold enumerate. generalize 0 as s.
  induction l as [|x l IH]; simpl; intros s; [reflexivity|].
  now rewrite IH.
Qed.

Lemma sort_values_NoDup (df df' : DataFrame) :
  sort_values df = Ok df' -> NoDup (timestamps df) -> NoDup (timestamps df').
Proof.
  unfold sort_values, getitem_time, timestamps.
  destruct (utc_datetime df) as [ts|]; [|discriminate].
  cbn [bind]. intros H Hnd. injection H as <-. simpl.
  apply (Permutation_NoDup (l := map snd (enumerate ts))).
  - apply Permutation_map. symmetry. apply Permutation_isort.
  - now rewrite map_snd_enumerate.
Qed.

Lemma positions_NoDup (t : Z) (ts : list Z) :
  NoDup ts -> positions t ts = [] \/ exists i, positions t ts = [i].
Proof.
  intros Hnd. pose proof (length_positions t ts) as Hl.
  pose proof (proj1 (NoDup_count_occ Z.eq_dec ts) Hnd t) as Hc.
  destruct (positions t ts) as [|i [|j l]]; simpl in Hl; [now left | | lia].
  right. eauto.
Qed.

Lemma outer_rows_NoDup (lt rt : list Z) :
  NoDup lt -> NoDup rt -> NoDup (map key (outer_rows lt rt)).
Proof.
  intros Hl Hr. unfold outer_rows.
  pose proof (NoDup_sorted_unique (lt ++ rt)) as Hk.
  induction (sorted_unique (lt ++ rt)) as [|t ks IH]; simpl; [constructor|].
  inversion Hk as [|t' ks' Hnot Hks]; subst.
  rewrite map_app.
  assert (Hrest : forall x,
             In x (map key
                     (flat_map
                        (fun t0 =>
                           match positions t0 lt, positions t0 rt with
                           | [], rj =>
                               map (fun j => mkJoined t0 None (Some j)) rj
                           | li, [] =>
                               map (fun i => mkJoined t0 (Some i) None) li
                           | li, rj =>
                               flat_map
                                 (fun i =>
                                    map (fun j =>
                                           mkJoined t0 (Some i) (Some j))
                                        rj) li
                           end) ks)) -> In x ks).
  { intros x Hx. apply in_map_iff in Hx. destruct Hx as (r & <- & Hr').
    apply in_flat_map in Hr'. destruct Hr' as (t0 & Ht0 & Hr').
    assert (key r = t0); [|now subst].
    destruct (positions t0 lt) as [|i li];
      destruct (positions t0 rt) as [|j rj].
    - contradiction.
    - apply in_map_iff in Hr'. now destruct Hr' as (? & <- & _).
    - apply in_map_iff in Hr'. now destruct Hr' as (? & <- & _).
    - apply in_flat_map in Hr'. destruct Hr' as (? & _ & Hr').
      apply in_map_iff in Hr'. now destruct Hr' as (? & <- & _). }
  destruct (positions_NoDup t lt Hl) as [-> | (i & ->)];
    destruct (positions_NoDup t rt Hr) as [-> | (j & ->)]; simpl;
    try (constructor; [intros Hin; apply Hnot, Hrest, Hin|]);
    now apply IH.
Qed.

Lemma get_ensemble_forecasts_NoDup (db : Store) (model element : string)
  (issue : option Z) (location : option string) (w : DataFrame) :
  get_ensemble_forecasts db model element issue location = Ok w ->
  NoDup (timestamps w).
Proof.
  unfold get_ensemble_forecasts.
  fold (resolved_issue db model element issue).
  destruct (resolved_issue db model element issue) as [i|];
    [|intros H; injection H as <-; constructor].
  intros H. inv_bind H as cfg Hcfg.
  destruct (reachable db); cbn [negb] in H;
    [|injection H as <-; constructor].
  destruct (select_ensemble db (or_default COUNTRY location) model element i
                            (map str (seq 1 (n_members cfg))))
    as [|r0 rows]; [injection H as <-; constructor|].
  apply sort_values_NoDup in H; [exact H|].
  unfold timestamps. simpl. apply NoDup_sorted_unique.
Qed.

Lemma get_renewable_ensembles_NoDup (db : Store) (model : string)
  (issue : option Z) (location : option string) (df : DataFrame) :
  get_renewable_ensembles db model issue location = Ok df ->
  NoDup (timestamps df).
Proof.
  unfold get_renewable_ensembles. intros H.
  inv_bind H as wind Hw. inv_bind H as solar Hs.
  apply get_ensemble_forecasts_NoDup in Hw, Hs.
  assert (Nnew : NoDup (timestamps DataFrame_new)) by constructor.
  destruct (empty wind && empty solar); [injection H as <-; exact Nnew|].
  set (wr := if negb (empty wind) then rename (fun c => "wind_" ++ c) wind
             else DataFrame_new) in *.
  set (sr := if negb (empty solar) then rename (fun c => "solar_" ++ c) solar
             else DataFrame_new) in *.
  assert (Pw : NoDup (timestamps wr))
    by (unfold wr; destruct (negb (empty wind)); assumption).
  assert (Ps : NoDup (timestamps sr))
    by (unfold sr; destruct (negb (empty solar)); assumption).
  destruct (empty wr); [injection H as <-; exact Ps|].
  destruct (empty sr); [injection H as <-; exact Pw|].
  inv_bind H as m Hm. inv_bind H as cfg Hcfg. inv_bind H as acc Hacc.
  destruct acc as [d cols]. injection H as <-.
  apply merge_Ok in Hm. destruct Hm as (lt & rt & Hlt & Hrt & Hmt).
  unfold timestamps in Pw, Ps. rewrite Hlt in Pw. rewrite Hrt in Ps.
  refine (foldM_invariant
            (fun acc : DataFrame * list string =>
               NoDup (timestamps (fst acc)))
            _ _ _ _ _ _ Hacc).
  - unfold timestamps. simpl. rewrite Hmt. now apply outer_rows_NoDup.
  - intros [d0 c0] i [d1 c1] Hd _ Hstep. simpl in *.
    destruct (has_column (wind_ens i) d0 && has_column (solar_ens i) d0).
    + inv_bind Hstep as w Hw'. inv_bind Hstep as s Hs'.
      injection Hstep as <- <-. unfold timestamps in *.
      now rewrite utc_setitem.
    + now injection Hstep as <- <-.
Qed.

Lemma add_NoDup (a b c : DataFrame) :
  add a b = Ok c -> NoDup (timestamps a) -> NoDup (timestamps c).
Proof.
  unfold add, getitem_time, timestamps.
  destruct (utc_datetime a) as [ta|]; [|discriminate].
  destruct (utc_datetime b) as [tb|]; [|discriminate].
  cbn [bind]. intros H Ha. injection H as <-. simpl.
  destruct (list_eqb Z.eqb ta tb); [exact Ha | apply NoDup_sorted_unique].
Qed.

Lemma add_all_NoDup (rest : list DataFrame) :
  forall a c, foldM add rest a = Ok c ->
              NoDup (timestamps a) -> NoDup (timestamps c).
Proof.
  induction rest as [|d rest IH]; simpl; intros a c H Ha.
  - now injection H as <-.
  - inv_bind H as a' Ha'. apply (IH a' c H).
    now apply (add_NoDup a d a').
Qed.

(** A completed update has joined a consumption table and a renewables
    table that each hold every timestamp once. *)
Lemma update_joins_unique_timestamps (np_sqrt : Q -> Q) (db : Store)
  (utcnow : nat -> Z) (model : string) (issue : option Z)
  (countries : option (list string)) (self self' : Engine)
  (sc : Scenarios) :
  update np_sqrt db utcnow model issue countries self = (Ok (Some sc), self')
  ->
  _compute_residual_scenarios np_sqrt (consumption sc) (renewables_ens sc)
                              model
  = Ok (residual_scenarios sc)
  /\ NoDup (timestamps (consumption sc))
  /\ NoDup (timestamps (renewables_ens sc)).
Proof.
  unfold update. fold (requested countries).
  unfold mbind at 1. unfold modify at 1.
  unfold mbind at 1. unfold lift at 1.
  destruct (mapM (fun c => get_renewable_ensembles db model issue
                                                   (Some (upper c)))
                 (requested countries)) as [fetched|e] eqn:Hf;
    [|discriminate].
  pose proof (mapM_Ok _ _ _ Hf) as Hall.
  assert (Hfetched : forall df, In df fetched -> NoDup (timestamps df)).
  { clear -Hall. induction Hall as [|c df cs dfs Hc Hcs IH];
      intros d Hd; [contradiction|].
    destruct Hd as [<-|Hd]; [|auto].
    now apply get_renewable_ensembles_NoDup in Hc. }
  destruct (filter (fun df => negb (empty df)) fetched) as [|df rest] eqn:Er;
    [discriminate|].
  assert (Hdf : NoDup (timestamps df)).
  { apply Hfetched.
    assert (Hin : In df (filter (fun df => negb (empty df)) fetched))
      by (rewrite Er; now left).
    now apply filter_In in Hin. }
  unfold mbind at 1. unfold lift at 1.
  destruct (first <- getitem_time df ;; foldM add rest df)
    as [ren_agg|e] eqn:Hagg; [|discriminate].
  inv_bind Hagg as ts0 Hts0.
  pose proof (add_all_NoDup rest df ren_agg Hagg Hdf) as Hren.
  destruct (filter (fun dfc => negb (empty dfc))
                   (map (fun c => get_eq_consumption db issue
                                                     (Some (lower c)))
                        (requested countries))) as [|c0 cl] eqn:Ec;
    [discriminate|].
  unfold mbind at 1. unfold lift at 1.
  destruct (concat (c0 :: cl)) as [cons_concat|e]; [|discriminate].
  unfold mbind at 1. unfold lift at 1.
  destruct (grouped <- groupby_sum cons_concat ;; sort_values grouped)
    as [cons|e] eqn:Hcons; [|discriminate].
  inv_bind Hcons as grouped Hg.
  assert (Hcn : NoDup (timestamps cons)).
  { apply (sort_values_NoDup grouped cons Hcons).
    unfold groupby_sum in Hg. inv_bind Hg as ts Hts. inv_bind Hg as c Hc.
    injection Hg as <-. unfold timestamps. simpl.
    apply NoDup_sorted_unique. }
  destruct (empty cons); [discriminate|].
  unfold mbind at 1. unfold lift at 1.
  destruct (_compute_residual_scenarios np_sqrt cons ren_agg model)
    as [res|e] eqn:Hres; [|discriminate].
  unfold mbind at 1. unfold lift at 1.
  destruct (available_model model) as [cfg|e]; [|discriminate].
  rewrite update_tail. cbv zeta.
  destruct (forallb _ _); [|discriminate].
  intros H. injection H as <- _. simpl. auto.
Qed.

Lemma update_joins_unique_timestamps_example :
  exists sc self',
    update (fun q => q) example_store (clock_from 0) "eceps" None None init
    = (Ok (Some sc), self')
    /\ NoDup (timestamps (consumption sc))
    /\ NoDup (timestamps (renewables_ens sc)).
Proof.
  destruct (update (fun q => q) example_store (clock_from 0) "eceps" None None init)
    as [[[sc|]|e] self'] eqn:H;
    try (vm_compute in H; discriminate H).
  exists sc, self'. split; [reflexivity|].
  now apply update_joins_unique_timestamps in H.
Qed.

(* ================================================================= *)
(** * Further properties *)

(** ** The statistics of one row *)

Lemma Qmin'_le (a b : Q) : (Qmin' a b <= a)%Q /\ (Qmin' a b <= b)%Q.
Proof.
  unfold Qmin'. destruct (Qle_bool a b) eqn:E.
  - apply Qle_bool_iff in E. split; [apply Qle_refl | exact E].
  - split; [|apply Qle_refl].
    destruct (Qlt_le_dec b a) as [H|H]; [now apply Qlt_le_weak|].
    apply Qle_bool_iff in H. congruence.
Qed.

Lemma Qmax'_ge (a b : Q) : (a <= Qmax' a b)%Q /\ (b <= Qmax' a b)%Q.
Proof.
  unfold Qmax'. destruct (Qle_bool a b) eqn:E.
  - apply Qle_bool_iff in E. split; [exact E | apply Qle_refl].
  - split; [apply Qle_refl|].
    destruct (Qlt_le_dec b a) as [H|H]; [now apply Qlt_le_weak|].
    apply Qle_bool_iff in H. congruence.
Qed.

Lemma fold_min_spec (xs : list Q) :
  forall x,
    In (fold_left Qmin' xs x) (x :: xs)
    /\ forall y, In y (x :: xs) -> (fold_left Qmin' xs x <= y)%Q.
Proof.
  induction xs as [|z xs IH]; intros x; simpl.
  - split; [now left|]. intros y [<-|[]]. apply Qle_refl.
  - destruct (IH (Qmin' x z)) as (Hin & Hle). split.
    + destruct Hin as [Hin|Hin]; [|now right; right].
      rewrite <- Hin. unfold Qmin'. destruct (Qle_bool x z); auto.
    + assert (Hm : (fold_left Qmin' xs (Qmin' x z) <= Qmin' x z)%Q)
        by (apply Hle; now left).
      destruct (Qmin'_le x z) as (Hx & Hz).
      intros y [<-|[<-|Hy]].
      * now apply Qle_trans with (Qmin' x z).
      * now apply Qle_trans with (Qmin' x z).
      * apply Hle. now right.
Qed.

Lemma fold_max_spec (xs : list Q) :
  forall x,
    In (fold_left Qmax' xs x) (x :: xs)
    /\ forall y, In y (x :: xs) -> (y <= fold_left Qmax' xs x)%Q.
Proof.
  induction xs as [|z xs IH]; intros x; simpl.
  - split; [now left|]. intros y [<-|[]]. apply Qle_refl.
  - destruct (IH (Qmax' x z)) as (Hin & Hle). split.
    + destruct Hin as [Hin|Hin]; [|now right; right].
      rewrite <- Hin. unfold Qmax'. destruct (Qle_bool x z); auto.
    + assert (Hm : (Qmax' x z <= fold_left Qmax' xs (Qmax' x z))%Q)
        by (apply Hle; now left).
      destruct (Qmax'_ge x z) as (Hx & Hz).
      intros y [<-|[<-|Hy]].
      * now apply Qle_trans with (Qmax' x z).
      * now apply Qle_trans with (Qmax' x z).
      * apply Hle. now right.
Qed.

Lemma in_numbers (row : list cell) (q : Q) :
  In q (numbers row) <-> In (Num q) row.
Proof.
  induction row as [|c row IH]; simpl; [tauto|].
  destruct c as [x|]; simpl; rewrite IH; split.
  - intros [->|H]; auto.
  - intros [E|H]; [injection E as ->|]; auto.
  - auto.
  - intros [E|H]; [discriminate | exact H].
Qed.

(** The minimum and the maximum of a row with a number are two of its
    numbers, and bound the others. *)
Lemma nanmin_nanmax_spec (row : list cell) :
  numbers row <> [] ->
  exists lo hi,
    nanmin row = Num lo /\ nanmax row = Num hi
    /\ In (Num lo) row /\ In (Num hi) row
    /\ forall x, In (Num x) row -> (lo <= x)%Q /\ (x <= hi)%Q.
Proof.
  unfold nanmin, nanmax. intros Hne.
  pose proof (in_numbers row) as Hin.
  destruct (numbers row) as [|x xs]; [congruence|].
  destruct (fold_min_spec xs x) as (Hmin_in & Hmin).
  destruct (fold_max_spec xs x) as (Hmax_in & Hmax).
  exists (fold_left Qmin' xs x), (fold_left Qmax' xs x).
  split; [reflexivity|]. split; [reflexivity|].
  split; [now apply Hin|]. split; [now apply Hin|].
  intros y Hy. apply Hin in Hy. auto.
Qed.

Lemma isort_nonempty {A} (leb : A -> A -> bool) (x : A) (xs : list A) :
  isort leb (x :: xs) <> [].
Proof.
  intros H. apply (f_equal (@List.length A)) in H.
  rewrite length_isort in H. discriminate.
Qed.

Lemma ascending_first (l : list Q) :
  ascending l -> forall y, In y l -> (nth 0 l 0 <= y)%Q.
Proof.
  intros Hl y Hy. apply In_nth with (d := 0%Q) in Hy.
  destruct Hy as (j & Hj & <-). apply ascending_nth; auto. lia.
Qed.

Lemma ascending_last (l : list Q) :
  ascending l ->
  forall y, In y l -> (y <= nth (List.length l - 1) l 0)%Q.
Proof.
  intros Hl y Hy. apply In_nth with (d := 0%Q) in Hy.
  destruct Hy as (j & Hj & <-). apply ascending_nth; auto; lia.
Qed.

Lemma percentile_sorted_0 (l : list Q) :
  (percentile_sorted l 0 == nth 0 l 0)%Q.
Proof.
  unfold percentile_sorted, lerp.
  set (v := (inject_Z (Z.of_nat (List.length l - 1)) * (0 / 100))%Q).
  assert (Hv : (v == 0)%Q) by (unfold v; field).
  assert (Hf : Qfloor v = 0%Z) by (rewrite Hv; reflexivity).
  rewrite Hf. simpl Z.to_nat. rewrite Hv.
  change (inject_Z 0) with 0%Q. ring.
Qed.

Lemma percentile_sorted_100 (l : list Q) :
  (percentile_sorted l 100 == nth (List.length l - 1) l 0)%Q.
Proof.
  unfold percentile_sorted, lerp.
  set (n := List.length l - 1).
  set (v := (inject_Z (Z.of_nat n) * (100 / 100))%Q).
  assert (Hv : (v == inject_Z (Z.of_nat n))%Q) by (unfold v; field).
  assert (Hf : Qfloor v = Z.of_nat n) by (rewrite Hv; apply Qfloor_Z).
  rewrite Hf, Nat2Z.id. replace (Nat.min (n + 1) n) with n by lia.
  rewrite Hv. ring.
Qed.

(** The percentiles 0 and 100 of a row are its minimum and maximum. *)
Lemma nanpercentile_ends (row : list cell) :
  cell_eq (nanpercentile row 0) (nanmin row)
  /\ cell_eq (nanpercentile row 100) (nanmax row).
Proof.
  unfold nanpercentile, nanmin, nanmax.
  destruct (numbers row) as [|x xs]; [simpl; tauto|].
  set (l := isort Qle_bool (x :: xs)).
  assert (Hl : ascending l) by apply ascending_isort.
  assert (Hin : forall y, In y l <-> In y (x :: xs))
    by (intros y; apply in_isort).
  assert (Hne : l <> []) by apply isort_nonempty.
  destruct (fold_min_spec xs x) as (Hmin_in & Hmin).
  destruct (fold_max_spec xs x) as (Hmax_in & Hmax).
  assert (Hlen : 0 < List.length l) by (destruct l; [congruence|simpl; lia]).
  unfold cell_eq. split.
  - change (inject_Z (Z.of_nat 0)) with 0%Q. rewrite percentile_sorted_0.
    apply Qle_antisym.
    + apply ascending_first; [exact Hl | now apply Hin].
    + apply Hmin. apply Hin. apply nth_In. exact Hlen.
  - change (inject_Z (Z.of_nat 100)) with 100%Q.
    rewrite percentile_sorted_100.
    apply Qle_antisym.
    + apply Hmax. apply Hin. apply nth_In. lia.
    + apply ascending_last; [exact Hl | now apply Hin].
Qed.

(** ** The statistics columns of the scenarios *)

Lemma lookup_with_stats_min (np_sqrt : Q -> Q) (res : DataFrame)
  (vals : list (list cell)) :
  lookup "ens_min" (columns (with_stats np_sqrt res vals))
  = Some (map nanmin vals).
Proof.
  unfold with_stats. rewrite lookup_percentiles_other.
  - rewrite !lookup_setitem_other by discriminate.
    apply lookup_setitem_same.
  - intros p _. unfold ens_P. simpl. discriminate.
Qed.

Lemma lookup_with_stats_max (np_sqrt : Q -> Q) (res : DataFrame)
  (vals : list (list cell)) :
  lookup "ens_max" (columns (with_stats np_sqrt res vals))
  = Some (map nanmax vals).
Proof.
  unfold with_stats. rewrite lookup_percentiles_other.
  - apply lookup_setitem_same.
  - intros p _. unfold ens_P. simpl. discriminate.
Qed.

Lemma nth_map_row {B} (f : list cell -> B) (vals : list (list cell))
  (k : nat) (d : B) :
  k < List.length vals -> nth k (map f vals) d = f (nth k vals []).
Proof.
  intros Hk. rewrite (nth_indep _ d (f [])) by now rewrite length_map.
  apply map_nth.
Qed.

Lemma lookup_None_In (name : string) (cols : list (string * list cell))
  (c : list cell) :
  lookup name cols = None -> ~ In (name, c) cols.
Proof.
  induction cols as [|d cols IH]; simpl; [tauto|].
  destruct (fst d =? name) eqn:E; [discriminate|].
  intros H [->|Hin]; [|now apply IH].
  simpl in E. now rewrite String.eqb_refl in E.
Qed.

Lemma in_replace_col (name : string) (c : list cell)
  (cols : list (string * list cell)) (m : string) (d : list cell) :
  In (m, d) (replace_col name c cols) ->
  (m = name /\ d = c) \/ (m <> name /\ In (m, d) cols).
Proof.
  induction cols as [|[n0 c0] cols IH]; simpl; [tauto|].
  destruct (n0 =? name) eqn:E.
  - intros [H|H]; [injection H as <- <-; now left|].
    destruct (IH H) as [G|(G1 & G2)]; auto.
  - apply String.eqb_neq in E.
    intros [H|H]; [injection H as <- <-; right; auto|].
    destruct (IH H) as [G|(G1 & G2)]; auto.
Qed.

Lemma member_columns_setitem (res : DataFrame) (i : nat) (c : list cell) :
  member_columns res -> member_columns (setitem res (residual_ens i) c).
Proof.
  intros Hres m d Hin.
  assert (Hcases : (m = residual_ens i /\ d = c)
                   \/ (m <> residual_ens i /\ In (m, d) (columns res))).
  { unfold setitem in Hin.
    destruct (has_column (residual_ens i) res) eqn:E; simpl in Hin.
    - now apply in_replace_col.
    - apply in_app_iff in Hin. destruct Hin as [Hin|[Hin|[]]].
      + right. split; [|exact Hin]. intros ->.
        apply has_column_false in E.
        now apply (lookup_None_In _ _ d) in E.
      + injection Hin as <- <-. now left. }
  destruct Hcases as [(-> & ->) | (Hne & Hold)].
  - split; [apply lookup_setitem_same | eauto].
  - rewrite lookup_setitem_other by assumption. now apply Hres.
Qed.

Lemma member_loop_columns (merged : DataFrame) (idx : list nat) :
  forall res0 cols0 res cols,
    foldM (member_step merged) idx (res0, cols0) = Ok (res, cols) ->
    member_columns res0 -> member_columns res.
Proof.
  induction idx as [|i idx IH]; simpl; intros res0 cols0 res cols H H0.
  - now injection H as <- _.
  - inv_bind H as acc Ha. destruct acc as [res1 cols1].
    apply (IH _ _ _ _ H). apply member_step_Ok in Ha.
    destruct Ha as [(_ & -> & _) | (c & rc & _ & _ & -> & _)];
      [assumption | now apply member_columns_setitem].
Qed.

Lemma getitems_from (df : DataFrame) (cols : list string)
  (cs : list (list cell)) (c : list cell) :
  getitems df cols = Ok cs -> In c cs ->
  exists n, In n cols /\ In (n, c) (columns df).
Proof.
  unfold getitems. intros H Hc. inv_bind H as parts Hp.
  injection H as <-. apply mapM_Ok in Hp.
  apply in_concat in Hc. destruct Hc as (part & Hpart & Hc).
  induction Hp as [|n p ns ps Hn Hns IH]; [contradiction|].
  destruct Hpart as [->|Hpart].
  - exists n. split; [now left|].
    destruct (filter (fun c0 => fst c0 =? n) (columns df)) as [|d l] eqn:E;
      [discriminate|].
    injection Hn as <-. change (In c (map snd (d :: l))) in Hc.
    apply in_map_iff in Hc.
    destruct Hc as ([m c'] & Hm & Hin). simpl in Hm. subst c'.
    rewrite <- E in Hin. apply filter_In in Hin.
    destruct Hin as (Hin & Heq). simpl in Heq.
    apply String.eqb_eq in Heq. now subst m.
  - destruct (IH Hpart) as (m & Hm & Hin). exists m. split; [now right|].
    exact Hin.
Qed.

(** A table of scenarios that holds a member column holds the statistics
    of the rows of member values: row [k] holds the value of each member
    column there, and nothing else. *)
Lemma scenario_stats (np_sqrt : Q -> Q) (cons ren : DataFrame)
  (model : string) (r : DataFrame) (i : nat) (c : list cell) :
  _compute_residual_scenarios np_sqrt cons ren model = Ok r ->
  getitem r (residual_ens i) = Ok c ->
  exists vals,
    List.length vals = nrows r
    /\ lookup "ens_mean" (columns r) = Some (map nanmean vals)
    /\ lookup "ens_min" (columns r) = Some (map nanmin vals)
    /\ lookup "ens_max" (columns r) = Some (map nanmax vals)
    /\ (forall p, In p percentile_levels ->
          lookup (ens_P p) (columns r)
          = Some (map (fun row => nanpercentile row p) vals))
    /\ (forall j cj k,
          getitem r (residual_ens j) = Ok cj -> k < nrows r ->
          In (nth k cj NaN) (nth k vals []))
    /\ forall k v, k < nrows r -> In v (nth k vals []) ->
         exists j cj,
           getitem r (residual_ens j) = Ok cj /\ nth k cj NaN = v.
Proof.
  intros H Hc. apply getitem_Ok in Hc. apply compute_cases in H.
  destruct H as [-> | (merged & cfg & res & cols & _ & _ & Hm & _ & _ & Hl
                       & Hr)]; [discriminate|].
  pose proof (member_loop _ _ _ _ _ _ Hl) as (Hu & _ & _ & Hsub & _).
  assert (Hmc : member_columns res).
  { apply (member_loop_columns _ _ _ _ _ _ Hl). intros n d []. }
  assert (Hin : forall n, In n (names res) -> In n cols).
  { apply Hsub. simpl. tauto. }
  destruct Hr as [[-> ->] | (_ & cs & Hcs & ->)].
  - exfalso. apply (Hin (residual_ens i)).
    apply in_names_lookup. congruence.
  - rewrite lookup_with_stats_residual in Hc.
    assert (Hrows : nrows (with_stats np_sqrt res (values (nrows res) cs))
                    = nrows res).
    { unfold nrows at 1 3. rewrite utc_with_stats.
      apply merge_Ok in Hm. destruct Hm as (lt & rt & _ & _ & Hmt).
      simpl in Hu. now rewrite Hu, Hmt. }
    rewrite Hrows. exists (values (nrows res) cs).
    split; [unfold values; now rewrite length_map, length_seq|].
    split; [apply lookup_with_stats_mean|].
    split; [apply lookup_with_stats_min|].
    split; [apply lookup_with_stats_max|].
    split; [intros p Hp; now apply lookup_with_stats_P|].
    split.
    + intros j cj k Hj Hk. rewrite (nth_values _ _ _ Hk).
      apply getitem_Ok in Hj. rewrite lookup_with_stats_residual in Hj.
      apply (in_map (fun c => nth k c NaN)).
      eapply getitems_In; eauto.
      apply Hin. apply in_names_lookup. congruence.
    + intros k v Hk Hv. rewrite (nth_values _ _ _ Hk) in Hv.
      apply in_map_iff in Hv. destruct Hv as (cj & <- & Hcj).
      destruct (getitems_from _ _ _ _ Hcs Hcj) as (n & _ & Hn).
      destruct (Hmc _ _ Hn) as (Hlook & j & ->).
      exists j, cj. split; [|reflexivity].
      apply getitem_Ok. now rewrite lookup_with_stats_residual.
Qed.

(** X1.  In a table returned by [_compute_residual_scenarios], on every
    row where at least one member column holds a number, [ens_min] and
    [ens_max] hold numbers and bound the members: each is the value a
    member column holds on this row, and every member value of the row
    that is a number lies between the two. *)
Theorem members_between_min_and_max (np_sqrt : Q -> Q)
  (cons ren : DataFrame) (model : string) (r : DataFrame) (k i : nat)
  (c : list cell) (x : Q) :
  _compute_residual_scenarios np_sqrt cons ren model = Ok r ->
  k < nrows r ->
  getitem r (residual_ens i) = Ok c ->
  nth k c NaN = Num x ->
  exists mn mx lo hi,
    getitem r "ens_min" = Ok mn /\ getitem r "ens_max" = Ok mx
    /\ nth k mn NaN = Num lo /\ nth k mx NaN = Num hi
    /\ (exists j cj, getitem r (residual_ens j) = Ok cj
                     /\ nth k cj NaN = Num lo)
    /\ (exists j cj, getitem r (residual_ens j) = Ok cj
                     /\ nth k cj NaN = Num hi)
    /\ forall j cj y,
         getitem r (residual_ens j) = Ok cj -> nth k cj NaN = Num y ->
         (lo <= y)%Q /\ (y <= hi)%Q.
Proof.
  intros H Hk Hc Hx.
  destruct (scenario_stats _ _ _ _ _ _ _ H Hc)
    as (vals & Hlen & _ & Hmin & Hmax & _ & Hrow & Hfrom).
  assert (Hne : numbers (nth k vals []) <> []).
  { apply numbers_In with x. rewrite <- Hx. now apply (Hrow i). }
  destruct (nanmin_nanmax_spec _ Hne)
    as (lo & hi & Elo & Ehi & Hlo & Hhi & Hbound).
  exists (map nanmin vals), (map nanmax vals), lo, hi.
  split; [now apply getitem_Ok|]. split; [now apply getitem_Ok|].
  rewrite <- Hlen in Hk. rewrite !nth_map_row by assumption.
  rewrite Hlen in Hk.
  split; [exact Elo|]. split; [exact Ehi|].
  split; [now apply Hfrom|]. split; [now apply Hfrom|].
  intros j cj y Hj Hy. apply Hbound. rewrite <- Hy. now apply (Hrow j).
Qed.

Lemma members_between_min_and_max_example :
  exists r mn mx,
    _compute_residual_scenarios (fun q => q) example_consumption
                                example_renewables "eceps" = Ok r
    /\ getitem r "ens_min" = Ok mn /\ getitem r "ens_max" = Ok mx
    /\ nth 2 mn NaN = Num 100 /\ nth 2 mx NaN = Num 110.
Proof.
  destruct (_compute_residual_scenarios (fun q => q) example_consumption
              example_renewables "eceps") as [r|e] eqn:H;
    [|vm_compute in H; discriminate].
  pose proof H as Hr. vm_compute in Hr. injection Hr as Hr.
  destruct (members_between_min_and_max (fun q => q) example_consumption
              example_renewables "eceps" r 2 1
              [Num 90; Num 100; Num 110; Num 120] 110 H)
    as (mn & mx & lo & hi & Gmn & Gmx & Elo & Ehi & _).
  - rewrite <- Hr. vm_compute. lia.
  - rewrite <- Hr. vm_compute. reflexivity.
  - reflexivity.
  - exists r, mn, mx. split; [reflexivity|].
    split; [exact Gmn|]. split; [exact Gmx|].
    pose proof Gmn as Vmn. pose proof Gmx as Vmx.
    rewrite <- Hr in Vmn, Vmx. vm_compute in Vmn, Vmx.
    injection Vmn as <-. injection Vmx as <-.
    split; reflexivity.
Defined.

(** X2.  In a table of scenarios that holds a member column, [ens_P0]
    is [ens_min] and [ens_P100] is [ens_max] on every row, rows without
    any number included. *)
Theorem extreme_percentiles_are_min_and_max (np_sqrt : Q -> Q)
  (cons ren : DataFrame) (model : string) (r : DataFrame) (i : nat)
  (c : list cell) :
  _compute_residual_scenarios np_sqrt cons ren model = Ok r ->
  getitem r (residual_ens i) = Ok c ->
  exists p0 mn p100 mx,
    getitem r (ens_P 0) = Ok p0 /\ getitem r "ens_min" = Ok mn
    /\ getitem r (ens_P 100) = Ok p100 /\ getitem r "ens_max" = Ok mx
    /\ forall k, k < nrows r ->
         cell_eq (nth k p0 NaN) (nth k mn NaN)
         /\ cell_eq (nth k p100 NaN) (nth k mx NaN).
Proof.
  intros H Hc.
  destruct (scenario_stats _ _ _ _ _ _ _ H Hc)
    as (vals & Hlen & _ & Hmin & Hmax & HP & _ & _).
  exists (map (fun row => nanpercentile row 0) vals), (map nanmin vals),
         (map (fun row => nanpercentile row 100) vals), (map nanmax vals).
  split; [apply getitem_Ok, HP; vm_compute; tauto|].
  split; [now apply getitem_Ok|].
  split; [apply getitem_Ok, HP; vm_compute; tauto|].
  split; [now apply getitem_Ok|].
  intros k Hk. rewrite <- Hlen in Hk.
  rewrite (nth_map_row (fun row => nanpercentile row 0)) by assumption.
  rewrite (nth_map_row (fun row => nanpercentile row 100)) by assumption.
  rewrite !nth_map_row by assumption.
  apply nanpercentile_ends.
Qed.

Lemma extreme_percentiles_are_min_and_max_example :
  exists r p0 mn p100 mx,
    _compute_residual_scenarios (fun q => q) example_consumption
                                example_renewables "eceps" = Ok r
    /\ getitem r (ens_P 0) = Ok p0 /\ getitem r "ens_min" = Ok mn
    /\ getitem r (ens_P 100) = Ok p100 /\ getitem r "ens_max" = Ok mx
    /\ nrows r = 4
    /\ mn = [Num 80; Num 90; Num 100; Num 110]
    /\ mx = [Num 90; Num 100; Num 110; Num 120]
    /\ forall k, k < nrows r ->
         cell_eq (nth k p0 NaN) (nth k mn NaN)
         /\ cell_eq (nth k p100 NaN) (nth k mx NaN).
Proof.
  destruct (_compute_residual_scenarios (fun q => q) example_consumption
              example_renewables "eceps") as [r|e] eqn:H;
    [|vm_compute in H; discriminate].
  pose proof H as Hr. vm_compute in Hr. injection Hr as Hr.
  destruct (extreme_percentiles_are_min_and_max (fun q => q)
              example_consumption example_renewables "eceps" r 1
              [Num 90; Num 100; Num 110; Num 120] H)
    as (p0 & mn & p100 & mx & G0 & Gmn & G100 & Gmx & G).
  - rewrite <- Hr. vm_compute. reflexivity.
  - exists r, p0, mn, p100, mx. split; [reflexivity|].
    repeat (split; [assumption|]).
    pose proof Gmn as Vmn. pose proof Gmx as Vmx.
    rewrite <- Hr in Vmn, Vmx. vm_compute in Vmn, Vmx.
    injection Vmn as <-. injection Vmx as <-.
    split; [rewrite <- Hr; reflexivity|].
    split; [reflexivity|]. split; [reflexivity | exact G].
Defined.

(** ** The paths of [_compute_residual_scenarios] without statistics *)

Lemma inner_rows_disjoint (lt rt : list Z) :
  (forall t, In t lt -> ~ In t rt) -> inner_rows lt rt = [].
Proof.
  intros H. destruct (inner_rows lt rt) as [|r rows] eqn:E; [reflexivity|].
  exfalso.
  assert (Hr : In (key r) (map key (inner_rows lt rt)))
    by (rewrite E; now left).
  apply inner_rows_keys in Hr. destruct Hr as (Hl & Hr).
  exact (H _ Hl Hr).
Qed.

Lemma inner_rows_common (lt rt : list Z) (t : Z) :
  In t lt -> In t rt -> inner_rows lt rt <> [].
Proof.
  intros Hl Hr E.
  apply In_nth_error in Hl. destruct Hl as (i & Hi).
  apply In_nth_error in Hr. destruct Hr as (j & Hj).
  assert (G : In (mkJoined t (Some i) (Some j)) (inner_rows lt rt)).
  { apply in_inner_rows. exists i, j. simpl. auto. }
  rewrite E in G. contradiction.
Qed.

Lemma merge_inner (a b : DataFrame) (lt rt : list Z) :
  utc_datetime a = Some lt -> utc_datetime b = Some rt ->
  exists m, merge Inner "_x" "_y" a b = Ok m
            /\ utc_datetime m = Some (map key (inner_rows lt rt)).
Proof.
  intros Ha Hb. unfold merge, getitem_time. rewrite Ha, Hb. cbn [bind].
  eexists. split; reflexivity.
Qed.

Lemma empty_rows (m : DataFrame) (ts : list Z) :
  utc_datetime m = Some ts -> empty m = match ts with [] => true | _ => false end.
Proof.
  intros H. unfold empty, ncols, nrows. rewrite H.
  destruct ts; reflexivity.
Qed.

(** X3.  Without any data on one side, or without a timestamp that both
    tables hold, [_compute_residual_scenarios] returns the empty table,
    whatever the model name, a name that is not configured included. *)
Theorem no_common_timestamp_gives_empty (np_sqrt : Q -> Q)
  (cons ren : DataFrame) (model : string) :
  empty cons = true \/ empty ren = true
  \/ (exists lt rt, utc_datetime cons = Some lt /\ utc_datetime ren = Some rt
                    /\ forall t, In t lt -> ~ In t rt) ->
  _compute_residual_scenarios np_sqrt cons ren model = Ok DataFrame_new.
Proof.
  intros H. unfold _compute_residual_scenarios.
  destruct (empty cons) eqn:Ec; [reflexivity|].
  destruct (empty ren) eqn:Er; [reflexivity|].
  destruct H as [H | [H | (lt & rt & Hl & Hr & Hd)]]; try discriminate.
  destruct (merge_inner _ _ _ _ Hl Hr) as (m & -> & Hm). cbn [bind].
  rewrite (empty_rows _ _ Hm), (inner_rows_disjoint _ _ Hd). reflexivity.
Qed.

Lemma no_common_timestamp_gives_empty_example :
  _compute_residual_scenarios (fun q => q) example_consumption
    (mkDF (Some [14400; 18000]%Z) [("total_ren_ens_01", [Num 1; Num 2])])
    "no such model" = Ok DataFrame_new.
Proof.
  apply no_common_timestamp_gives_empty. right; right.
  exists [0; 3600; 7200; 10800]%Z, [14400; 18000]%Z.
  split; [reflexivity|]. split; [reflexivity|].
  intros t Hl Hr. simpl in Hl, Hr. lia.
Defined.

Lemma available_model_unknown (model : string) :
  ~ In model (map fst AVAILABLE_MODELS) ->
  available_model model = Raise (KeyError model).
Proof.
  intros H. unfold available_model.
  destruct (find (fun m => fst m =? model) AVAILABLE_MODELS) as [m|] eqn:E;
    [|reflexivity].
  apply find_some in E. destruct E as (Hin & Heq).
  apply String.eqb_eq in Heq. exfalso. apply H. rewrite <- Heq.
  now apply in_map.
Qed.

(** X4.  When the two tables share a timestamp and the model is not one
    of the configured ones, [_compute_residual_scenarios] raises
    [KeyError] on the model name. *)
Theorem unknown_model_raises (np_sqrt : Q -> Q) (cons ren : DataFrame)
  (model : string) (lt rt : list Z) (t : Z) :
  utc_datetime cons = Some lt -> utc_datetime ren = Some rt ->
  In t lt -> In t rt ->
  ~ In model (map fst AVAILABLE_MODELS) ->
  _compute_residual_scenarios np_sqrt cons ren model
  = Raise (KeyError model).
Proof.
  intros Hl Hr Htl Htr Hm. unfold _compute_residual_scenarios.
  pose proof (inner_rows_common _ _ _ Htl Htr) as Hne.
  assert (Ec : empty cons = false).
  { rewrite (empty_rows _ _ Hl). destruct lt; [contradiction | reflexivity]. }
  assert (Er : empty ren = false).
  { rewrite (empty_rows _ _ Hr). destruct rt; [contradiction | reflexivity]. }
  rewrite Ec, Er.
  destruct (merge_inner _ _ _ _ Hl Hr) as (m & -> & Hmt). cbn [bind].
  rewrite (empty_rows _ _ Hmt).
  destruct (inner_rows lt rt) as [|j rows] eqn:E; [congruence|].
  cbn [map]. unfold getitem_time. rewrite Hmt. cbn [bind].
  rewrite (available_model_unknown _ Hm). reflexivity.
Qed.

Lemma unknown_model_raises_example :
  _compute_residual_scenarios (fun q => q) example_consumption
                              example_renewables "icon"
  = Raise (KeyError "icon").
Proof.
  apply (unknown_model_raises (fun q => q) example_consumption
           example_renewables "icon" [0; 3600; 7200; 10800]%Z
           [0; 3600; 7200; 10800]%Z 0%Z).
  - reflexivity.
  - reflexivity.
  - simpl. tauto.
  - simpl. tauto.
  - vm_compute. intros [H|[H|[H|[H|[]]]]]; discriminate H.
Defined.

Lemma member_loop_none (merged : DataFrame) (idx : list nat)
  (acc : DataFrame * list string) :
  (forall i, In i idx -> has_column (total_ren_ens i) merged = false) ->
  foldM (member_step merged) idx acc = Ok acc.
Proof.
  induction idx as [|i idx IH]; intros H; [reflexivity|].
  change (foldM (member_step merged) (i :: idx) acc)
    with (s' <- member_step merged acc i ;;
          foldM (member_step merged) idx s').
  assert (Hs : member_step merged acc i = Ok acc).
  { unfold member_step. destruct acc as [res cols].
    now rewrite (H i (or_introl eq_refl)). }
  rewrite Hs. cbn [bind]. apply IH. intros j Hj. apply H. now right.
Qed.

Lemma uint_of_string_app (a s : string) :
  NilEmpty.uint_of_string s = None ->
  NilEmpty.uint_of_string (a ++ s) = None.
Proof.
  intros H. induction a as [|c a IH]; simpl; [exact H|].
  now rewrite IH.
Qed.

(** No member column name ends with a suffix of the join. *)
Lemma total_ren_ens_not_suffixed (i : nat) (a sfx : string) :
  sfx = "_x" \/ sfx = "_y" -> a ++ sfx <> total_ren_ens i.
Proof.
  intros Hs H. unfold total_ren_ens in H.
  pose proof (unpad_pad2 i) as Hu.
  do 14 (destruct a as [|? a];
         [ cbn in H; destruct Hs as [-> | ->];
           first [ discriminate H
                 | injection H as H; rewrite <- H in Hu;
                   vm_compute in Hu; discriminate Hu ]
         | cbn in H; injection H as _ H ]).
  rewrite <- H in Hu. unfold unpad in Hu.
  rewrite uint_of_string_app in Hu; [discriminate Hu|].
  destruct Hs as [-> | ->]; reflexivity.
Qed.

Lemma has_column_In (name : string) (df : DataFrame) :
  has_column name df = true <-> In name (names df).
Proof.
  unfold has_column. rewrite existsb_exists. split.
  - intros (x & Hx & E). apply String.eqb_eq in E. now subst.
  - intros H. exists name. split; [exact H | apply String.eqb_refl].
Qed.

Lemma merged_member_column (cons ren m : DataFrame) (i : nat) :
  merge Inner "_x" "_y" cons ren = Ok m ->
  has_column (total_ren_ens i) m = true ->
  has_column (total_ren_ens i) cons = true
  \/ has_column (total_ren_ens i) ren = true.
Proof.
  intros Hm H. unfold merge in Hm.
  inv_bind Hm as lt Hl. inv_bind Hm as rt Hr. injection Hm as <-.
  apply has_column_In in H. unfold names in H. cbn [columns] in H.
  rewrite map_app, !map_map in H. cbn [fst] in H.
  assert (Hs : forall others sfx n,
             sfx = "_x" \/ sfx = "_y" ->
             suffixed others sfx n = total_ren_ens i ->
             n = total_ren_ens i).
  { intros others sfx n Hsfx. unfold suffixed.
    destruct (existsb (String.eqb n) others); [|auto].
    intros E. exfalso. exact (total_ren_ens_not_suffixed _ _ _ Hsfx E). }
  apply in_app_or in H. destruct H as [H|H];
    apply in_map_iff in H; destruct H as (d & E & Hd);
    apply Hs in E; auto; [left | right];
    apply has_column_In; rewrite <- E; now apply in_map.
Qed.

(** X5.  When neither table holds any of the columns [total_ren_ens_01]
    ... [total_ren_ens_N] of the model, the result is the joined
    timestamps alone: a table that is not empty and has no member and no
    statistics column. *)
Theorem no_member_gives_timestamps_only (np_sqrt : Q -> Q)
  (cons ren : DataFrame) (model : string) (cfg : model_config)
  (lt rt : list Z) (t : Z) :
  utc_datetime cons = Some lt -> utc_datetime ren = Some rt ->
  In t lt -> In t rt ->
  available_model model = Ok cfg ->
  (forall i, 1 <= i <= n_members cfg ->
             has_column (total_ren_ens i) cons = false
             /\ has_column (total_ren_ens i) ren = false) ->
  _compute_residual_scenarios np_sqrt cons ren model
  = Ok (mkDF (Some (map key (inner_rows lt rt))) [])
  /\ empty (mkDF (Some (map key (inner_rows lt rt))) []) = false.
Proof.
  intros Hl Hr Htl Htr Hcfg Hno.
  pose proof (inner_rows_common _ _ _ Htl Htr) as Hne.
  assert (Ee : empty (mkDF (Some (map key (inner_rows lt rt))) []) = false).
  { rewrite (empty_rows _ (map key (inner_rows lt rt))) by reflexivity.
    destruct (inner_rows lt rt); [congruence | reflexivity]. }
  split; [|exact Ee].
  assert (Ec : empty cons = false).
  { rewrite (empty_rows _ _ Hl). destruct lt; [contradiction | reflexivity]. }
  assert (Er : empty ren = false).
  { rewrite (empty_rows _ _ Hr). destruct rt; [contradiction | reflexivity]. }
  pose proof (merge_inner _ _ _ _ Hl Hr) as (m & Hm & Hmt).
  assert (Em : empty m = false).
  { rewrite (empty_rows _ _ Hmt).
    destruct (inner_rows lt rt); [congruence | reflexivity]. }
  rewrite (compute_forward np_sqrt cons ren m model cfg
             (mkDF (utc_datetime m) []) [] Ec Er Hm Em Hcfg).
  - now rewrite Hmt.
  - apply member_loop_none. intros i Hi. apply in_seq in Hi.
    destruct (has_column (total_ren_ens i) m) eqn:E; [|reflexivity].
    destruct (Hno i ltac:(lia)) as (Hc & Hn).
    destruct (merged_member_column _ _ _ _ Hm E); congruence.
Qed.

Lemma no_member_gives_timestamps_only_example :
  _compute_residual_scenarios (fun q => q) example_consumption
                              wind_only_table "eceps"
  = Ok (mkDF (Some (map key (inner_rows [0; 3600; 7200; 10800]%Z
                                        [0; 3600]%Z))) [])
  /\ empty (mkDF (Some (map key (inner_rows [0; 3600; 7200; 10800]%Z
                                            [0; 3600]%Z))) []) = false.
Proof.
  apply (no_member_gives_timestamps_only (fun q => q) example_consumption
           wind_only_table "eceps"
           (mkModel "ECMWF ENS (eceps)"
              "ECMWF Ensemble - 50 members, 15-day horizon" 50)
           [0; 3600; 7200; 10800]%Z [0; 3600]%Z 0%Z).
  - reflexivity.
  - reflexivity.
  - simpl. tauto.
  - simpl. tauto.
  - reflexivity.
  - intros i _. split; apply has_column_false.
    + unfold example_consumption, total_ren_ens. reflexivity.
    + unfold wind_only_table, total_ren_ens. reflexivity.
Defined.

(** ** Sorted query results *)

Section IsortSorted.
Context {A : Type} (leb : A -> A -> bool).
Hypothesis leb_total : forall a b, leb a b = true \/ leb b a = true.
Hypothesis leb_trans :
  forall a b c, leb a b = true -> leb b c = true -> leb a c = true.

Lemma HdRel_insert (a x : A) (l : list A) :
  HdRel (fun a b => leb a b = true) a l -> leb a x = true ->
  HdRel (fun a b => leb a b = true) a (insert leb x l).
Proof.
  intros H Hx. destruct l as [|y l]; simpl; [now constructor|].
  destruct (leb x y); constructor; auto. now inversion H.
Qed.

Lemma Sorted_insert (x : A) (l : list A) :
  Sorted (fun a b => leb a b = true) l ->
  Sorted (fun a b => leb a b = true) (insert leb x l).
Proof.
  induction l as [|y l IH]; simpl; intros H.
  - repeat constructor.
  - destruct (leb x y) eqn:E.
    + constructor; [exact H | now constructor].
    + inversion H; subst. constructor; [auto|].
      apply HdRel_insert; [assumption|].
      destruct (leb_total x y); congruence.
Qed.

Lemma Sorted_isort (l : list A) :
  Sorted (fun a b => leb a b = true) (isort leb l).
Proof.
  induction l as [|x l IH]; simpl; [constructor|].
  now apply Sorted_insert.
Qed.

Lemma StronglySorted_isort (l : list A) :
  StronglySorted (fun a b => leb a b = true) (isort leb l).
Proof.
  apply Sorted_StronglySorted; [|apply Sorted_isort].
  intros a b c. apply leb_trans.
Qed.
End IsortSorted.

Lemma StronglySorted_map {A B} (f : A -> B) (R : B -> B -> Prop)
  (l : list A) :
  StronglySorted (fun a b => R (f a) (f b)) l ->
  StronglySorted R (map f l).
Proof.
  induction 1 as [|a l Hl IH Ha]; simpl; constructor; auto.
  apply Forall_map. exact Ha.
Qed.

Lemma StronglySorted_weaken {A} (R S : A -> A -> Prop) (l : list A) :
  (forall a b, In a l -> In b l -> R a b -> S a b) ->
  StronglySorted R l -> StronglySorted S l.
Proof.
  intros H Hs. induction Hs as [|a l Hl IH Ha]; constructor.
  - apply IH. intros x y Hx Hy. apply H; now right.
  - rewrite Forall_forall in *. intros x Hx.
    apply H; [now left | now right | auto].
Qed.

Lemma StronglySorted_strict {A} (R : A -> A -> Prop) (l : list A) :
  StronglySorted R l -> NoDup l ->
  StronglySorted (fun a b => R a b /\ a <> b) l.
Proof.
  induction 1 as [|a l Hl IH Ha]; intros Hnd; constructor.
  - apply IH. now inversion Hnd.
  - inversion Hnd; subst. rewrite Forall_forall in *.
    intros x Hx. split; [auto|]. intros ->. contradiction.
Qed.

Lemma StronglySorted_firstn {A} (R : A -> A -> Prop) (n : nat)
  (l : list A) :
  StronglySorted R l -> StronglySorted R (firstn n l).
Proof.
  intros H. revert n. induction H as [|a l Hl IH Ha]; intros [|n]; simpl;
    try constructor; auto.
  rewrite Forall_forall in *. intros x Hx. apply Ha.
  rewrite <- (firstn_skipn n l). apply in_or_app. now left.
Qed.

(** What a [LIMIT n] keeps of sorted rows: a row that is left out comes
    after each of the [n] rows kept. *)
Lemma firstn_sorted_cut {A} (R : A -> A -> Prop) (l : list A) :
  StronglySorted R l ->
  forall n x, In x l ->
    In x (firstn n l)
    \/ (List.length (firstn n l) = n /\ forall y, In y (firstn n l) -> R y x).
Proof.
  induction 1 as [|a l Hl IH Ha]; intros n x Hx; [contradiction|].
  destruct n as [|n]; [right; simpl; split; [reflexivity | tauto]|].
  simpl. destruct Hx as [->|Hx]; [now left; left|].
  destruct (IH n x Hx) as [G | (Hn & G)]; [now left; right|].
  right. split; [now rewrite Hn|].
  intros y [<-|Hy]; [|auto]. rewrite Forall_forall in Ha. auto.
Qed.

Lemma StronglySorted_pair {A} (R : A -> A -> Prop) (l : list A) (d : A) :
  StronglySorted R l ->
  forall i j, i < j -> j < List.length l -> R (nth i l d) (nth j l d).
Proof.
  induction 1 as [|a l Hl IH Ha]; intros i j Hij Hj; simpl in Hj; [lia|].
  destruct j as [|j]; [lia|]. destruct i as [|i]; simpl.
  - rewrite Forall_forall in Ha. apply Ha. apply nth_In. lia.
  - apply IH; lia.
Qed.

Lemma sort_order_sorted (ts : list Z) :
  StronglySorted Z.le
    (map snd (isort (fun a b : nat * Z => Z.leb (snd a) (snd b))
                    (enumerate ts))).
Proof.
  apply StronglySorted_map.
  apply StronglySorted_weaken
    with (R := fun a b : nat * Z => Z.leb (snd a) (snd b) = true).
  - intros a b _ _ H. now apply Z.leb_le.
  - apply StronglySorted_isort.
    + intros a b. rewrite !Z.leb_le. lia.
    + intros a b c. rewrite !Z.leb_le. lia.
Qed.

(** [sort_values] leaves the timestamps in non-decreasing order. *)
Lemma sort_values_sorted (df df' : DataFrame) :
  sort_values df = Ok df' -> StronglySorted Z.le (timestamps df').
Proof.
  intros H. unfold sort_values in H. inv_bind H as ts Hts.
  injection H as <-. unfold timestamps. simpl. apply sort_order_sorted.
Qed.

Lemma sort_values_increasing (df df' : DataFrame) :
  sort_values df = Ok df' -> NoDup (timestamps df) ->
  StronglySorted Z.lt (timestamps df').
Proof.
  intros H Hnd.
  pose proof (sort_values_sorted _ _ H) as Hs.
  pose proof (sort_values_NoDup _ _ H Hnd) as Hnd'.
  apply StronglySorted_weaken
    with (R := fun a b => (a <= b)%Z /\ a <> b).
  - intros a b _ _. lia.
  - now apply StronglySorted_strict.
Qed.

(** ** [_get_latest_issue] and [get_available_issues] *)

Lemma fold_max_Z (l : list Z) :
  forall i,
    In (fold_left Z.max l i) (i :: l)
    /\ forall j, In j (i :: l) -> (j <= fold_left Z.max l i)%Z.
Proof.
  induction l as [|x l IH]; intros i; simpl.
  - split; [now left|]. intros j [<-|[]]. lia.
  - destruct (IH (Z.max i x)) as (Hin & Hle). split.
    + destruct Hin as [Hin|Hin]; [|now right; right].
      rewrite <- Hin. destruct (Z.max_spec i x) as [[_ ->]|[_ ->]]; auto.
    + assert (Hm : (Z.max i x <= fold_left Z.max l (Z.max i x))%Z)
        by (apply Hle; now left).
      intros j [<-|[<-|Hj]]; [lia | lia | apply Hle; now right].
Qed.

Lemma series_issues (db : Store) (location model element : string) (i : Z) :
  In i (map f_issue
            (filter (fun r => (f_location r =? location)
                              && (f_model r =? model)
                              && (f_element r =? element))
                    (metdesk_forecasts db)))
  <-> exists r, In r (metdesk_forecasts db)
                /\ series_row location model element r = true
                /\ f_issue r = i.
Proof.
  rewrite in_map_iff. split.
  - intros (r & <- & Hr). apply filter_In in Hr. exists r. tauto.
  - intros (r & Hr & Hs & <-). exists r. split; [reflexivity|].
    apply filter_In. tauto.
Qed.

(** X6.  [_get_latest_issue] returns the greatest issue among the rows of
    the series at the location (the default country without one), and
    nothing only when the database cannot be reached or holds no such
    row. *)
Theorem latest_issue_is_maximum (db : Store) (model element : string)
  (location : option string) :
  let loc := or_default COUNTRY location in
  match _get_latest_issue db model element location with
  | Some i =>
      (exists r, In r (metdesk_forecasts db)
                 /\ series_row loc model element r = true /\ f_issue r = i)
      /\ forall r, In r (metdesk_forecasts db) ->
                   series_row loc model element r = true ->
                   (f_issue r <= i)%Z
  | None =>
      reachable db = false
      \/ forall r, In r (metdesk_forecasts db) ->
                   series_row loc model element r = false
  end.
Proof.
  intros loc. unfold _get_latest_issue. fold loc.
  destruct (reachable db); [|now left].
  pose proof (series_issues db loc model element) as Hs.
  destruct (map f_issue _) as [|i rest] eqn:E.
  - right. intros r Hr.
    destruct (series_row loc model element r) eqn:Er; [|reflexivity].
    exfalso. apply (proj2 (Hs (f_issue r))). eauto.
  - destruct (fold_max_Z rest i) as (Hin & Hle). split.
    + now apply Hs.
    + intros r Hr Er. apply Hle. apply Hs. eauto.
Qed.

Lemma select_issues_sorted (db : Store) (location model element : string) :
  let all := isort (fun a b => Z.leb b a)
               (nodup Z.eq_dec
                  (map f_issue
                       (filter (fun r => (f_location r =? location)
                                         && (f_model r =? model)
                                         && (f_element r =? element))
                               (metdesk_forecasts db)))) in
  StronglySorted Z.gt all
  /\ forall i, In i all <->
       exists r, In r (metdesk_forecasts db)
                 /\ series_row location model element r = true
                 /\ f_issue r = i.
Proof.
  intros all. split.
  - apply StronglySorted_weaken
      with (R := fun a b => Z.leb b a = true /\ a <> b).
    + intros a b _ _ (H & Hne). apply Z.leb_le in H. lia.
    + apply StronglySorted_strict.
      * apply (StronglySorted_isort (fun a b => Z.leb b a)).
        -- intros a b. rewrite !Z.leb_le. lia.
        -- intros a b c. rewrite !Z.leb_le. lia.
      * eapply Permutation_NoDup;
          [symmetry; apply Permutation_isort | apply NoDup_nodup].
  - intros i. unfold all. rewrite in_isort, nodup_In.
    apply series_issues.
Qed.

Lemma select_issues_spec (db : Store) (model element : string)
  (n_latest : nat) (location : option string) :
  let loc := or_default COUNTRY location in
  let issues :=
    MetDeskDBClientRest.select_issues db loc model element n_latest in
  List.length issues <= n_latest
  /\ StronglySorted Z.gt issues
  /\ (forall i, In i issues ->
        exists r, In r (metdesk_forecasts db)
                  /\ series_row loc model element r = true /\ f_issue r = i)
  /\ (forall r, In r (metdesk_forecasts db) ->
                series_row loc model element r = true ->
                In (f_issue r) issues
                \/ (List.length issues = n_latest
                    /\ forall i, In i issues -> (i > f_issue r)%Z))
  /\ (reachable db = true -> 0 < n_latest ->
      hd_error issues = _get_latest_issue db model element location).
Proof.
  intros loc issues. unfold issues, MetDeskDBClientRest.select_issues.
  destruct (select_issues_sorted db loc model element) as (Hs & Hin).
  set (all := isort _ _) in *.
  split; [apply firstn_le_length|].
  split; [now apply StronglySorted_firstn|].
  split.
  { intros i Hi. apply Hin.
    rewrite <- (firstn_skipn n_latest all). apply in_or_app. now left. }
  split.
  { intros r Hr Er.
    apply (firstn_sorted_cut _ _ Hs n_latest (f_issue r)).
    apply Hin. eauto. }
  intros Hreach Hn. unfold _get_latest_issue. fold loc. rewrite Hreach.
  pose proof (series_issues db loc model element) as Hser.
  destruct (map f_issue _) as [|i rest] eqn:E.
  - destruct all as [|a tl] eqn:Ea; [now destruct n_latest|].
    exfalso. apply (proj2 (Hser a)). apply Hin. now left.
  - destruct (fold_max_Z rest i) as (Hmin & Hmax).
    set (m := fold_left Z.max rest i) in *.
    assert (Hm : In m all) by (apply Hin, Hser, Hmin).
    destruct all as [|a tl] eqn:Ea; [contradiction|].
    destruct n_latest as [|n]; [lia|]. simpl. f_equal.
    destruct Hm as [Hm|Hm]; [exact Hm|].
    apply StronglySorted_inv in Hs. destruct Hs as (_ & Ha).
    rewrite Forall_forall in Ha. specialize (Ha m Hm).
    assert (Hle : (a <= m)%Z).
    { apply Hmax. apply Hser. apply Hin. now left. }
    lia.
Qed.

(** X7.  The client's [get_available_issues] returns at most [n_latest]
    issues of the series, the latest first and none twice, starting with
    the one [_get_latest_issue] gives; an issue of the series that is left
    out is older than each of the [n_latest] issues returned. *)
Theorem available_issues_latest_first (db : Store) (model element : string)
  (n_latest : nat) (location : option string) (issues : list Z) :
  MetDeskDBClientRest.get_available_issues db model element n_latest
                                           location = Returned issues ->
  let loc := or_default COUNTRY location in
  List.length issues <= n_latest
  /\ StronglySorted Z.gt issues
  /\ (forall i, In i issues ->
        exists r, In r (metdesk_forecasts db)
                  /\ series_row loc model element r = true /\ f_issue r = i)
  /\ (forall r, In r (metdesk_forecasts db) ->
                series_row loc model element r = true ->
                In (f_issue r) issues
                \/ (List.length issues = n_latest
                    /\ forall i, In i issues -> (i > f_issue r)%Z))
  /\ (0 < n_latest ->
      hd_error issues = _get_latest_issue db model element location).
Proof.
  intros H loc. unfold MetDeskDBClientRest.get_available_issues in H.
  fold loc in H. destruct (reachable db) eqn:Hreach; [|discriminate].
  injection H as <-.
  destruct (select_issues_spec db model element n_latest location)
    as (H1 & H2 & H3 & H4 & H5).
  repeat (split; [assumption|]). auto.
Qed.

Lemma available_issues_latest_first_example :
  List.length [100; 50]%Z <= 10
  /\ StronglySorted Z.gt [100; 50]%Z
  /\ (forall i, In i [100; 50]%Z ->
        exists r, In r (metdesk_forecasts delta_store)
                  /\ series_row "FR" "eceps" "wind" r = true
                  /\ f_issue r = i)
  /\ (forall r, In r (metdesk_forecasts delta_store) ->
                series_row "FR" "eceps" "wind" r = true ->
                In (f_issue r) [100; 50]%Z
                \/ (List.length [100; 50]%Z = 10
                    /\ forall i, In i [100; 50]%Z -> (i > f_issue r)%Z))
  /\ (0 < 10 ->
      hd_error [100; 50]%Z
      = _get_latest_issue delta_store "eceps" "wind" None).
Proof.
  exact (available_issues_latest_first delta_store "eceps" "wind" 10 None
           [100; 50]%Z eq_refl).
Defined.

(** X8.  The engine's [get_available_issues] never raises: it gives no
    issue when the database cannot be reached, and otherwise at most ten
    issues of the wind series at the location in upper case, the latest
    first and none twice.  Its first entry is the issue
    [_get_latest_issue] gives for that series, which is the issue an
    update without an explicit issue records for its first country. *)
Theorem engine_available_issues (db : Store) (model : string)
  (location : option string) :
  let issues :=
    ResidualLoadEngineRest.get_available_issues db model location in
  (reachable db = false -> issues = [])
  /\ List.length issues <= 10
  /\ StronglySorted Z.gt issues
  /\ (forall i, In i issues ->
        exists r, In r (metdesk_forecasts db)
                  /\ series_row
                       (or_default COUNTRY (option_map upper location))
                       model "wind" r = true
                  /\ f_issue r = i)
  /\ hd_error issues
     = _get_latest_issue db model "wind" (option_map upper location).
Proof.
  intros issues. unfold issues, ResidualLoadEngineRest.get_available_issues,
    MetDeskDBClientRest.get_available_issues.
  destruct (reachable db) eqn:Hreach.
  - destruct (select_issues_spec db model "wind" 10
                (option_map upper location)) as (H1 & H2 & H3 & _ & H5).
    split; [discriminate|]. repeat (split; [assumption|]).
    apply H5; [assumption | lia].
  - split; [reflexivity|]. split; [simpl; lia|].
    split; [constructor|]. split; [intros i []|].
    unfold _get_latest_issue. now rewrite Hreach.
Qed.

(** ** [get_eq_consumption] *)

Lemma consumption_rows_spec (db : Store) (loc : string) :
  let rows :=
    firstn 500
      (isort (fun a b => Z.leb (c_utc b) (c_utc a))
         (filter (fun r =>
                    (lower (c_country r) =? loc)
                    && (CURRENT_TIMESTAMP db - two_days <=? c_utc r)%Z)
                 (eq_consumption db))) in
  List.length rows <= 500
  /\ (forall r, In r rows ->
        In r (eq_consumption db) /\ consumption_candidate db loc r = true)
  /\ forall r, In r (eq_consumption db) ->
       consumption_candidate db loc r = true ->
       In r rows
       \/ (List.length rows = 500
           /\ forall y, In y rows -> (c_utc r <= c_utc y)%Z).
Proof.
  intros rows. unfold rows. set (all := isort _ _).
  assert (Hin : forall r, In r all <->
              In r (eq_consumption db)
              /\ consumption_candidate db loc r = true).
  { intros r. unfold all. rewrite in_isort, filter_In. reflexivity. }
  assert (Hs : StronglySorted (fun a b => (c_utc b <= c_utc a)%Z) all).
  { apply StronglySorted_weaken
      with (R := fun a b => Z.leb (c_utc b) (c_utc a) = true).
    - intros a b _ _ H. now apply Z.leb_le.
    - apply (StronglySorted_isort
               (fun a b => Z.leb (c_utc b) (c_utc a))).
      + intros a b. rewrite !Z.leb_le. lia.
      + intros a b c. rewrite !Z.leb_le. lia. }
  split; [apply firstn_le_length|]. split.
  - intros r Hr. apply Hin.
    rewrite <- (firstn_skipn 500 all). apply in_or_app. now left.
  - intros r Hr Hc.
    apply (firstn_sorted_cut _ _ Hs 500 r). apply Hin. tauto.
Qed.


(** X9.  [get_eq_consumption] always returns a table with the columns
    [utc_datetime] and [consumption_mw], of at most 500 rows with the
    timestamps in non-decreasing order.  Each row is a row of the country
    (compared in lower case) from the last two days on, with the latest
    forecast, or the actual consumption where there is no forecast; a row
    of the country in that window that is left out is not later than any
    of the 500 rows returned. *)
Theorem eq_consumption_shape (db : Store) (issue : option Z)
  (location : option string) :
  let loc := or_default "fr" location in
  exists ts c,
    get_eq_consumption db issue location
    = mkDF (Some ts) [("consumption_mw", c)]
    /\ List.length c = List.length ts
    /\ List.length ts <= 500
    /\ StronglySorted Z.le ts
    /\ (forall k, k < List.length ts ->
          exists r, In r (eq_consumption db)
                    /\ consumption_candidate db loc r = true
                    /\ nth k ts 0%Z = c_utc r
                    /\ nth k c NaN
                       = coalesce (consumption_fcst_latest r)
                                  (consumption_act r))
    /\ (reachable db = true ->
        forall r, In r (eq_consumption db) ->
          consumption_candidate db loc r = true ->
          In (c_utc r) ts
          \/ (List.length ts = 500
              /\ forall t, In t ts -> (c_utc r <= t)%Z)).
Proof.
  intros loc. unfold get_eq_consumption. fold loc.
  destruct (reachable db) eqn:Hreach; cbn [negb].
  2:{ exists [], []. split; [reflexivity|]. split; [reflexivity|].
      split; [simpl; lia|]. split; [constructor|].
      split; [simpl; intros; lia | discriminate]. }
  destruct (consumption_rows_spec db loc) as (Hlen & Hsub & Hcut).
  set (rows := firstn 500 _) in *.
  destruct rows as [|r0 rows'] eqn:Erows.
  { exists [], []. split; [reflexivity|]. split; [reflexivity|].
    split; [simpl; lia|]. split; [constructor|].
    split; [simpl; intros; lia|].
    intros _ r Hr Hc. destruct (Hcut r Hr Hc) as [[] | (H & _)].
    discriminate H. }
  rewrite <- Erows in *. clear Erows r0 rows'.
  set (col := map (fun r => coalesce (consumption_fcst_latest r)
                                     (consumption_act r)) rows).
  rewrite (sort_values_Ok (mkDF (Some (map c_utc rows))
                                [("consumption_mw", col)])
                          (map c_utc rows) eq_refl).
  cbv zeta. cbn [columns map fst snd].
  set (order := isort _ (enumerate (map c_utc rows))).
  assert (Hlo : List.length order = List.length rows).
  { unfold order. now rewrite length_isort, length_enumerate, length_map. }
  exists (map snd order),
         (take (map (fun a => Some (fst a)) order) col).
  split; [reflexivity|].
  split; [now rewrite length_take, !length_map|].
  split; [rewrite length_map; lia|].
  split; [apply sort_order_sorted|].
  split.
  - intros k Hk. rewrite length_map in Hk.
    destruct (sort_order_at (map c_utc rows) k Hk) as (m & t & Hk' & Hm).
    fold order in Hk'.
    assert (Hmr : exists r, nth_error rows m = Some r /\ c_utc r = t).
    { rewrite nth_error_map in Hm.
      destruct (nth_error rows m) as [r|]; [|discriminate].
      injection Hm as Hm. eauto. }
    destruct Hmr as (r & Hr & Ht).
    destruct (Hsub r (nth_error_In _ _ Hr)) as (Hin & Hc).
    exists r. split; [exact Hin|]. split; [exact Hc|]. split.
    + rewrite (nth_indep _ 0%Z (snd (0, 0%Z)))
        by (rewrite length_map; lia).
      rewrite map_nth. erewrite nth_error_nth by exact Hk'. now simpl.
    + rewrite (nth_take _ _ k (Some m))
        by (rewrite nth_error_map, Hk'; reflexivity).
      unfold col.
      rewrite (nth_indep _ NaN
                 (coalesce (consumption_fcst_latest r) (consumption_act r))).
      * rewrite (map_nth (fun r => coalesce (consumption_fcst_latest r)
                                            (consumption_act r))).
        erewrite nth_error_nth by exact Hr. reflexivity.
      * rewrite length_map. apply nth_error_Some. congruence.
  - intros _ r Hr Hc.
    assert (Hk : forall t, In t (map snd order) <-> In t (map c_utc rows))
      by (intros t; apply sort_order_keys).
    destruct (Hcut r Hr Hc) as [G | (Hn & G)].
    + left. apply Hk. now apply in_map.
    + right. split; [rewrite length_map; lia|].
      intros t Ht. apply Hk in Ht. apply in_map_iff in Ht.
      destruct Ht as (y & <- & Hy). auto.
Qed.

(** ** The outcomes of [update] *)

Lemma add_nonempty (a b c : DataFrame) :
  add a b = Ok c -> empty a = false -> empty c = false.
Proof.
  unfold add, getitem_time.
  destruct (utc_datetime a) as [ta|] eqn:Ha; [|discriminate].
  destruct (utc_datetime b) as [tb|]; [|discriminate].
  cbn [bind]. intros H He. injection H as <-.
  rewrite (empty_rows _ _ Ha) in He.
  destruct ta as [|t ta]; [discriminate|].
  match goal with
  | |- empty (mkDF (Some ?i) ?c) = false =>
      rewrite (empty_rows (mkDF (Some i) c) i eq_refl);
      assert (Hin : In t i)
  end.
  { destruct (list_eqb Z.eqb (t :: ta) tb); [now left|].
    apply in_sorted_unique. now left. }
  destruct (if list_eqb Z.eqb (t :: ta) tb then _ else _);
    [contradiction | reflexivity].
Qed.

Lemma add_all_nonempty (rest : list DataFrame) :
  forall a c, foldM add rest a = Ok c -> empty a = false -> empty c = false.
Proof.
  induction rest as [|d rest IH]; simpl; intros a c H Ha.
  - now injection H as <-.
  - inv_bind H as a' Ha'. apply (IH a' c H).
    now apply (add_nonempty a d a').
Qed.

(** An update returns nothing, raises before anything is stored, or
    stores a bundle and writes it out. *)
Lemma update_cases (np_sqrt : Q -> Q) (db : Store) (utcnow : nat -> Z)
  (model : string) (issue : option Z) (countries : option (list string))
  (self : Engine) :
  update_outcome db utcnow model issue countries self
    (update np_sqrt db utcnow model issue countries self).
Proof.
  cut (forall out,
         update np_sqrt db utcnow model issue countries self = out ->
         update_outcome db utcnow model issue countries self out);
    [intros G; exact (G _ eq_refl)|].
  intros out. unfold update. fold (requested countries).
  unfold mbind at 1. unfold modify at 1.
  unfold mbind at 1. unfold lift at 1.
  destruct (mapM (fun c => get_renewable_ensembles db model issue
                                                   (Some (upper c)))
                 (requested countries)) as [fetched|e] eqn:Hf;
    [|intros <-; right; left; raised_KeyError Hf].
  destruct (filter (fun df => negb (empty df)) fetched) as [|df rest] eqn:Er;
    [intros <-; now left|].
  assert (Hdf : empty df = false).
  { assert (Hin : In df (filter (fun df => negb (empty df)) fetched))
      by (rewrite Er; now left).
    apply filter_In in Hin. now destruct (empty df). }
  unfold mbind at 1. unfold lift at 1.
  destruct (first <- getitem_time df ;; foldM add rest df)
    as [ren_agg|e] eqn:Hagg; [|intros <-; right; left; raised_KeyError Hagg].
  inv_bind Hagg as ts0 Hts0.
  pose proof (add_all_nonempty rest df ren_agg Hagg Hdf) as Hren.
  destruct (filter (fun dfc => negb (empty dfc))
                   (map (fun c => get_eq_consumption db issue
                                                     (Some (lower c)))
                        (requested countries))) as [|c0 cl] eqn:Ec;
    [intros <-; now left|].
  unfold mbind at 1. unfold lift at 1.
  destruct (concat (c0 :: cl)) as [cons_concat|e] eqn:Hcc;
    [|intros <-; right; left; raised_KeyError Hcc].
  unfold mbind at 1. unfold lift at 1.
  destruct (grouped <- groupby_sum cons_concat ;; sort_values grouped)
    as [cons|e] eqn:Hcons; [|intros <-; right; left; raised_KeyError Hcons].
  destruct (empty cons) eqn:Hce; [intros <-; now left|].
  unfold mbind at 1. unfold lift at 1.
  destruct (_compute_residual_scenarios np_sqrt cons ren_agg model)
    as [res|e] eqn:Hres; [|intros <-; right; left; raised_KeyError Hres].
  unfold mbind at 1. unfold lift at 1.
  destruct (available_model model) as [cfg|e] eqn:Hcfg;
    [|intros <-; right; left; raised_KeyError Hcfg].
  rewrite update_tail. cbv zeta.
  intros <-. right; right.
  exists (mkScenarios res cons ren_agg
            (mkMetadata model (label cfg)
               (recorded_issue db model issue countries) (utcnow 0)
               (n_members cfg) (requested countries))), cfg.
  cbn [metadata consumption renewables_ens]. auto 6.
Qed.


(** X10.  Whatever [update] is called with, it leaves [current_model] at
    the requested model.  When it returns nothing, or raises [KeyError],
    the stored scenarios, [last_update] and the snapshot directory are
    what they were.  When it raises [OSError], a file of the new bundle
    was refused by the directory, and the bundle and [last_update] are
    stored all the same: they are assigned before the files are
    written. *)
Theorem update_state_without_bundle (np_sqrt : Q -> Q) (db : Store)
  (utcnow : nat -> Z) (model : string) (issue : option Z)
  (countries : option (list string)) (self : Engine) :
  let out := update np_sqrt db utcnow model issue countries self in
  current_model (snd out) = Some model
  /\ match fst out with
     | Ok (Some _) => True
     | Raise OSError =>
         exists b f,
           scenarios (snd out) = Some b
           /\ last_update (snd out) = Some (utcnow 1)
           /\ In f (written model (utcnow 2) b)
           /\ refuses (DATA_DIR self) f = true
     | _ =>
         scenarios (snd out) = scenarios self
         /\ last_update (snd out) = last_update self
         /\ DATA_DIR (snd out) = DATA_DIR self
     end.
Proof.
  intros out. unfold out.
  destruct (update_cases np_sqrt db utcnow model issue countries self)
    as [-> | [(e & ->) | (b & cfg & _ & _ & _ & _ & E)]]; simpl; auto.
  cbv zeta in E. rewrite E.
  destruct (forallb _ _) eqn:Ef; cbn [fst snd current_model];
    [auto|].
  split; [reflexivity|].
  assert (Hex : existsb (refuses (DATA_DIR self))
                        (written model (utcnow 2) b) = true).
  { clear -Ef. induction (written model (utcnow 2) b) as [|f l IH];
      [discriminate|]. simpl in *.
    destruct (refuses (DATA_DIR self) f); [reflexivity|]. simpl in *.
    auto. }
  apply existsb_exists in Hex. destruct Hex as (f & Hf & Hr).
  exists b, f. auto.
Qed.

Lemma update_state_without_bundle_example :
  exists b,
    fst (update (fun q => q) example_store (clock_from 120) "eceps" None
                None read_only_engine)
    = Raise OSError
    /\ scenarios
         (snd (update (fun q => q) example_store (clock_from 120) "eceps"
                      None None read_only_engine))
       = Some b
    /\ last_update
         (snd (update (fun q => q) example_store (clock_from 120) "eceps"
                      None None read_only_engine))
       = Some 121%Z
    /\ scenarios read_only_engine = None.
Proof.
  pose proof (update_state_without_bundle (fun q => q) example_store
                (clock_from 120) "eceps" None None read_only_engine) as H.
  cbv zeta in H. destruct H as (_ & H).
  assert (E : fst (update (fun q => q) example_store (clock_from 120)
                          "eceps" None None read_only_engine)
              = Raise OSError) by (vm_compute; reflexivity).
  rewrite E in H. destruct H as (b & f & Hb & Hl & _).
  exists b. split; [exact E|]. split; [exact Hb|].
  split; [exact Hl | reflexivity].
Defined.

Lemma in_overwritten (dir : Directory) (new : list Snapshot) (f : Snapshot) :
  In f (files (overwritten dir new))
  <-> In f new
      \/ (In f (files dir) /\ existsb (same_path f) new = false).
Proof.
  unfold overwritten. cbn [files]. rewrite in_app_iff, filter_In.
  rewrite negb_true_iff. tauto.
Qed.

(** X11.  An update that returns a bundle has stored this very bundle and
    set [last_update] to its second reading of the clock.  It has written
    one file for each table of the bundle that is not empty, under the
    model, the name of the table and the minute of its third reading of
    the clock, and none of these writes was refused; the consumption and
    the renewables tables are never empty.  Afterwards the directory
    holds these files, and of the files that were there exactly those of
    another path: a file of the same model, table and minute is replaced.
    The metadata hold the model, its label and member count from the
    configuration, the first reading of the clock, the countries worked
    on and the issue: the one given, or the latest wind issue of the
    first country. *)
Theorem update_stores_bundle (np_sqrt : Q -> Q) (db : Store)
  (utcnow : nat -> Z) (model : string) (issue : option Z)
  (countries : option (list string)) (self self' : Engine) (b : Scenarios) :
  update np_sqrt db utcnow model issue countries self = (Ok (Some b), self')
  ->
  let new := written model (utcnow 2) b in
  scenarios self' = Some b
  /\ last_update self' = Some (utcnow 1)
  /\ current_model self' = Some model
  /\ DATA_DIR self' = overwritten (DATA_DIR self) new
  /\ (forall f, In f new -> refuses (DATA_DIR self) f = false)
  /\ (forall f,
        In f (files (DATA_DIR self'))
        <-> In f new
            \/ (In f (files (DATA_DIR self))
                /\ existsb (same_path f) new = false))
  /\ empty (consumption b) = false
  /\ empty (renewables_ens b) = false
  /\ In (mkSnapshot model "consumption" (utcnow 2 / 60) (consumption b)) new
  /\ In (mkSnapshot model "renewables_ens" (utcnow 2 / 60)
                    (renewables_ens b)) new
  /\ exists cfg,
       available_model model = Ok cfg
       /\ metadata b
          = mkMetadata model (label cfg)
                       (recorded_issue db model issue countries) (utcnow 0)
                       (n_members cfg) (requested countries).
Proof.
  intros H new.
  destruct (update_cases np_sqrt db utcnow model issue countries self)
    as [E | [(e & E) | (b' & cfg & Hcfg & Hmeta & Hc & Hr & E)]];
    try (rewrite E in H; discriminate H).
  cbv zeta in E. rewrite E in H.
  destruct (forallb _ _) eqn:Ef; [|discriminate H].
  injection H as <- <-. fold new in Ef |- *.
  rewrite (accepted_all _ _ Ef).
  cbn [scenarios last_update current_model DATA_DIR].
  repeat (split; [reflexivity|]).
  split.
  { intros f Hf. rewrite forallb_forall in Ef. specialize (Ef f Hf).
    now apply negb_true_iff in Ef. }
  split; [intros f; apply in_overwritten|].
  repeat (split; [assumption|]).
  assert (Hw : In (mkSnapshot model "consumption" (utcnow 2 / 60)
                              (consumption b')) new
               /\ In (mkSnapshot model "renewables_ens" (utcnow 2 / 60)
                                 (renewables_ens b')) new).
  { unfold new, written. cbn [filter snd]. rewrite Hc, Hr. cbn [negb].
    destruct (empty (residual_scenarios b')); simpl; tauto. }
  destruct Hw as (Hw1 & Hw2).
  split; [exact Hw1|]. split; [exact Hw2|].
  exists cfg. auto.
Qed.

(** Two updates within one minute leave the three files of the second. *)
Lemma update_stores_bundle_example :
  exists b self',
    update (fun q => q) example_store (clock_from 130) "eceps" None None
           (snd (update (fun q => q) example_store (clock_from 120) "eceps"
                        None None init))
    = (Ok (Some b), self')
    /\ scenarios self' = Some b
    /\ last_update self' = Some 131%Z
    /\ meta_updated_at (metadata b) = 130%Z
    /\ meta_issue (metadata b) = Some 100%Z
    /\ meta_n_members (metadata b) = 50
    /\ List.length
         (files (DATA_DIR (snd (update (fun q => q) example_store
                                       (clock_from 120) "eceps" None None
                                       init))))
       = 3
    /\ List.length (files (DATA_DIR self')) = 3
    /\ map snap_minute (files (DATA_DIR self')) = [2; 2; 2]%Z.
Proof.
  destruct (update (fun q => q) example_store (clock_from 130) "eceps" None
              None
              (snd (update (fun q => q) example_store (clock_from 120)
                           "eceps" None None init)))
    as [[[b|]|e] self'] eqn:H;
    try (vm_compute in H; discriminate H).
  pose proof H as Hv. vm_compute in Hv. injection Hv as Hb Hs.
  destruct (update_stores_bundle _ _ _ _ _ _ _ _ _ H)
    as (H1 & H2 & _ & _ & _ & _ & _ & _ & _ & _ & cfg & Hcfg & Hmeta).
  exists b, self'. split; [reflexivity|].
  split; [exact H1|]. split; [exact H2|].
  injection Hcfg as <-. rewrite Hmeta.
  split; [reflexivity|]. split; [reflexivity|]. split; [reflexivity|].
  split; [vm_compute; reflexivity|].
  rewrite <- Hs. split; reflexivity.
Defined.

Lemma get_ensemble_forecasts_unknown (db : Store) (model element : string)
  (issue : option Z) (location : option string) :
  ~ In model (map fst AVAILABLE_MODELS) ->
  get_ensemble_forecasts db model element issue location
  = match resolved_issue db model element issue with
    | Some _ => Raise (KeyError model)
    | None => Ok DataFrame_new
    end.
Proof.
  intros H. unfold get_ensemble_forecasts, resolved_issue.
  destruct (match issue with
            | Some i => Some i
            | None => _get_latest_issue db model element None
            end); [|reflexivity].
  now rewrite (available_model_unknown _ H).
Qed.

Lemma get_renewable_ensembles_unknown (db : Store) (model : string)
  (issue : option Z) (location : option string) :
  ~ In model (map fst AVAILABLE_MODELS) ->
  get_renewable_ensembles db model issue location
  = match resolved_issue db model "wind" issue,
          resolved_issue db model "solar" issue with
    | None, None => Ok DataFrame_new
    | _, _ => Raise (KeyError model)
    end.
Proof.
  intros H. unfold get_renewable_ensembles.
  rewrite !(get_ensemble_forecasts_unknown _ _ _ _ _ H).
  destruct (resolved_issue db model "wind" issue); [reflexivity|].
  destruct (resolved_issue db model "solar" issue); reflexivity.
Qed.

Lemma mapM_constant {A B} (f : A -> result B) (r : result B)
  (x : A) (xs : list A) :
  (forall y, f y = r) ->
  mapM f (x :: xs)
  = match r with
    | Ok b => Ok (repeat b (S (List.length xs)))
    | Raise e => Raise e
    end.
Proof.
  intros H. revert x. induction xs as [|z xs IH]; intros x.
  - simpl. rewrite H. now destruct r.
  - change (mapM f (x :: z :: xs))
      with (y <- f x ;; ys <- mapM f (z :: xs) ;; Ok (y :: ys)).
    rewrite IH, H. now destruct r.
Qed.

Lemma requested_nonempty (countries : option (list string)) :
  exists c cs, requested countries = c :: cs.
Proof.
  unfold requested. destruct countries as [[|c cs]|]; eauto.
Qed.

(** X12.  With a model name that is not configured, [update] stores
    nothing.  It raises [KeyError] on the name as soon as there is an
    issue to fetch, given by the caller or found in the database for wind
    or solar under that name, and returns nothing otherwise. *)
Theorem update_unknown_model (np_sqrt : Q -> Q) (db : Store) (utcnow : nat -> Z)
  (model : string) (issue : option Z) (countries : option (list string))
  (self : Engine) :
  ~ In model (map fst AVAILABLE_MODELS) ->
  update np_sqrt db utcnow model issue countries self
  = (match resolved_issue db model "wind" issue,
           resolved_issue db model "solar" issue with
     | None, None => Ok None
     | _, _ => Raise (KeyError model)
     end,
     set_current_model model self).
Proof.
  intros H. unfold update. fold (requested countries).
  destruct (requested_nonempty countries) as (c & cs & ->).
  unfold mbind at 1. unfold modify at 1.
  unfold mbind at 1. unfold lift at 1.
  rewrite (mapM_constant _ _ c cs
             (fun y => get_renewable_ensembles_unknown db model issue
                         (Some (upper y)) H)).
  destruct (resolved_issue db model "wind" issue); [reflexivity|].
  destruct (resolved_issue db model "solar" issue); [reflexivity|].
  rewrite filter_none; [reflexivity|].
  intros d Hd. apply repeat_spec in Hd. now subst.
Qed.

Lemma update_unknown_model_example :
  update (fun q => q) example_store (clock_from 0) "icon" (Some 100%Z) None init
  = (Raise (KeyError "icon"), set_current_model "icon" init).
Proof.
  apply (update_unknown_model (fun q => q) example_store (clock_from 0) "icon"
           (Some 100%Z) None init).
  vm_compute. intros [H|[H|[H|[H|[]]]]]; discriminate H.
Defined.

(** ** The table of [get_ensemble_forecasts] *)

Lemma str_nonempty (n : nat) : str n <> "".
Proof.
  intros H. pose proof (unpad_str n) as Hu. rewrite H in Hu.
  vm_compute in Hu. injection Hu as <-. vm_compute in H. discriminate H.
Qed.

Lemma all_digits_string_of_uint (d : Decimal.uint) :
  all_digits (NilEmpty.string_of_uint d) = true.
Proof. induction d; simpl; auto. Qed.

Lemma int_str (n : nat) : int (str n) = Some n.
Proof.
  pose proof (unpad_str n) as Hu. pose proof (str_nonempty n) as Hne.
  unfold int. destruct (str n) as [|c s] eqn:E; [congruence|].
  rewrite <- E in *. unfold str at 1. rewrite all_digits_string_of_uint.
  exact Hu.
Qed.

Lemma ens_name_str (n : nat) : ens_name (str n) = "ens_" ++ pad2 n.
Proof. unfold ens_name. now rewrite int_str. Qed.

Lemma numeric_member (m : string) (n : nat) :
  existsb (String.eqb m) (map str (seq 1 n)) = true ->
  exists i, 1 <= i <= n /\ m = str i.
Proof.
  intros H. apply existsb_exists in H. destruct H as (x & Hx & E).
  apply String.eqb_eq in E. subst x. apply in_map_iff in Hx.
  destruct Hx as (i & <- & Hi). apply in_seq in Hi. exists i. split; [lia|].
  reflexivity.
Qed.

Lemma first_value_spec (t : Z) (m : string) (rows : list forecast_row)
  (x : Q) :
  first_value t m rows = Num x ->
  exists r, In r rows /\ f_utc r = t /\ f_member r = m /\ f_value r = Num x.
Proof.
  unfold first_value.
  destruct (find _ rows) as [r|] eqn:E; [|discriminate].
  intros H. apply find_some in E. destruct E as (Hin & Hr).
  apply andb_prop in Hr. destruct Hr as (Ht & Hm).
  apply Z.eqb_eq in Ht. apply String.eqb_eq in Hm. eauto.
Qed.

(** The rows the query of [get_ensemble_forecasts] selects. *)
Lemma select_ensemble_rows (db : Store) (location model element : string)
  (issue : Z) (n : nat) (r : forecast_row) :
  In r (select_ensemble db location model element issue
                        (map str (seq 1 n))) ->
  In r (metdesk_forecasts db)
  /\ series_row location model element r = true
  /\ f_issue r = issue
  /\ (exists i, 1 <= i <= n /\ f_member r = str i)
  /\ (CURRENT_TIMESTAMP db - two_days <= f_utc r)%Z.
Proof.
  unfold select_ensemble. intros H.
  assert (H' : In r (isort by_time_member
                       (filter (fun r =>
                          (f_location r =? location)
                          && (f_model r =? model)
                          && (f_element r =? element)
                          && (f_issue r =? issue)%Z
                          && existsb (String.eqb (f_member r))
                                     (map str (seq 1 n))
                          && (CURRENT_TIMESTAMP db - two_days <=? f_utc r)%Z)
                          (metdesk_forecasts db)))).
  { rewrite <- (firstn_skipn LIMIT (isort _ _)). apply in_or_app.
    now left. }
  apply (proj1 (in_isort _ _ _)) in H'. apply filter_In in H'. destruct H' as (Hin & Hc).
  repeat (apply andb_prop in Hc; destruct Hc as (Hc & ?)).
  split; [exact Hin|]. split.
  - unfold series_row. rewrite Hc.
    repeat match goal with E : _ = true |- _ => rewrite E; clear E end.
    reflexivity.
  - split; [now apply Z.eqb_eq|].
    split; [now apply numeric_member | now apply Z.leb_le].
Qed.

Lemma get_ensemble_forecasts_cases (db : Store) (model element : string)
  (issue : option Z) (location : option string) (w : DataFrame) :
  get_ensemble_forecasts db model element issue location = Ok w ->
  w = DataFrame_new
  \/ exists i cfg,
       resolved_issue db model element issue = Some i
       /\ available_model model = Ok cfg
       /\ sort_values
            (rename ens_name
               (pivot_table
                  (select_ensemble db (or_default COUNTRY location) model
                                   element i
                                   (map str (seq 1 (n_members cfg))))))
          = Ok w.
Proof.
  unfold get_ensemble_forecasts.
  fold (resolved_issue db model element issue).
  destruct (resolved_issue db model element issue) as [i|];
    [|intros H; left; congruence].
  intros H. inv_bind H as cfg Hcfg.
  destruct (reachable db); cbn [negb] in H; [|left; congruence].
  destruct (select_ensemble db (or_default COUNTRY location) model element i
                            (map str (seq 1 (n_members cfg))))
    as [|r0 rows] eqn:E; [left; congruence|].
  right. exists i, cfg. rewrite E. auto.
Qed.



(** X14.  Each column of the table [get_ensemble_forecasts] returns is
    named [ens_] followed by the two-digit index of a member between 1
    and the member count of the model, holds one cell for each row, and
    every number in it is the value the database holds for that member
    at the timestamp of the row, in the series and the issue fetched. *)
Theorem ensemble_forecast_columns (db : Store) (model element : string)
  (issue : option Z) (location : option string) (w : DataFrame)
  (n : string) (c : list cell) :
  get_ensemble_forecasts db model element issue location = Ok w ->
  getitem w n = Ok c ->
  exists cfg i,
    available_model model = Ok cfg
    /\ 1 <= i <= n_members cfg
    /\ n = "ens_" ++ pad2 i
    /\ List.length c = nrows w
    /\ forall k x, nth k c NaN = Num x ->
         exists r,
           In r (metdesk_forecasts db)
           /\ series_row (or_default COUNTRY location) model element r = true
           /\ Some (f_issue r) = resolved_issue db model element issue
           /\ f_member r = str i
           /\ f_utc r = nth k (timestamps w) 0%Z
           /\ f_value r = Num x.
Proof.
  intros H Hc. apply getitem_Ok in Hc. apply lookup_In in Hc.
  apply get_ensemble_forecasts_cases in H.
  destruct H as [-> | (iss & cfg & Hi & Hcfg & H)]; [contradiction|].
  unfold sort_values in H.
  cbn [getitem_time utc_datetime rename pivot_table bind] in H.
  injection H as <-.
  cbn [columns rename pivot_table] in Hc.
  set (rows := select_ensemble db (or_default COUNTRY location) model
                               element iss
                               (map str (seq 1 (n_members cfg)))) in *.
  set (live := filter (fun r => negb (isnan (f_value r))) rows) in *.
  set (index := sorted_unique (map f_utc live)) in *.
  set (order := isort (fun a b : nat * Z => Z.leb (snd a) (snd b))
                      (enumerate index)) in *.
  rewrite !map_map in Hc. cbn [fst snd] in Hc.
  apply in_map_iff in Hc. destruct Hc as (m & E & Hm).
  injection E as <- <-.
  apply (proj1 (in_sorted_unique_str _ _)) in Hm. apply in_map_iff in Hm.
  destruct Hm as (r0 & Hm0 & Hr0). apply filter_In in Hr0.
  destruct Hr0 as (Hr0 & _). apply select_ensemble_rows in Hr0.
  destruct Hr0 as (_ & _ & _ & (i & Hi1 & Hi2) & _).
  assert (Em : m = str i) by congruence. clear Hm0 Hi2. subst m.
  exists cfg, i. split; [exact Hcfg|]. split; [exact Hi1|].
  split; [apply ens_name_str|].
  split.
  { rewrite length_take, length_map. unfold nrows. simpl.
    now rewrite length_map. }
  intros k x Hk.
  assert (Hlt : k < List.length order).
  { destruct (Nat.lt_ge_cases k (List.length order)) as [G|G]; [exact G|].
    rewrite nth_overflow in Hk; [discriminate Hk|].
    now rewrite length_take, length_map. }
  destruct (sort_order_at index k Hlt) as (p & t & Hord & Hp).
  fold order in Hord.
  rewrite (nth_take _ _ k (Some p)) in Hk
    by (rewrite nth_error_map, Hord; reflexivity).
  assert (Hcell : nth p (map (fun t => first_value t (str i) live) index) NaN
                  = first_value t (str i) live).
  { rewrite (nth_indep _ NaN (first_value 0%Z (str i) live)).
    - rewrite (map_nth (fun t => first_value t (str i) live)).
      erewrite nth_error_nth by exact Hp. reflexivity.
    - rewrite length_map. apply nth_error_Some. congruence. }
  rewrite Hcell in Hk. apply first_value_spec in Hk.
  destruct Hk as (r & Hr & Ht & Hmem & Hv).
  apply filter_In in Hr. destruct Hr as (Hr & _).
  apply select_ensemble_rows in Hr.
  destruct Hr as (Hin & Hs & Hiss & _ & _).
  exists r. split; [exact Hin|]. split; [exact Hs|].
  split; [congruence|]. split; [exact Hmem|]. split; [|exact Hv].
  unfold timestamps. cbn [utc_datetime].
  rewrite (nth_indep _ 0%Z (snd (0, 0%Z))) by (now rewrite length_map).
  rewrite map_nth. erewrite nth_error_nth by exact Hord. now simpl.
Qed.

Lemma ensemble_forecast_columns_example :
  exists w cfg i,
    get_ensemble_forecasts example_store "eceps" "wind" None (Some "FR")
    = Ok w
    /\ available_model "eceps" = Ok cfg
    /\ 1 <= i <= n_members cfg
    /\ "ens_02" = "ens_" ++ pad2 i.
Proof.
  destruct (get_ensemble_forecasts example_store "eceps" "wind" None
              (Some "FR")) as [w|e] eqn:H;
    [|vm_compute in H; discriminate H].
  pose proof H as Hr. vm_compute in Hr. injection Hr as Hr.
  destruct (ensemble_forecast_columns example_store "eceps" "wind" None
              (Some "FR") w "ens_02" [Num 7] H)
    as (cfg & i & Hcfg & Hi & Hn & _).
  - rewrite <- Hr. reflexivity.
  - exists w, cfg, i. auto.
Defined.

(** ** Wind and solar together in [get_renewable_ensembles] *)












(** ** The table of [get_ensemble_by_issue_and_time] *)

Lemma sorted_unique_increasing (l : list Z) :
  StronglySorted Z.lt (sorted_unique l).
Proof.
  apply StronglySorted_weaken
    with (R := fun a b => Z.leb a b = true /\ a <> b).
  - intros a b _ _ (H & Hne). apply Z.leb_le in H. lia.
  - apply StronglySorted_strict; [|apply NoDup_sorted_unique].
    apply (StronglySorted_isort Z.leb).
    + intros a b. rewrite !Z.leb_le. lia.
    + intros a b c. rewrite !Z.leb_le. lia.
Qed.

Lemma rename_loop_data (l : list string) :
  forall df,
    map snd (columns (fold_left (fun pv col => rename_inplace col pv) l df))
    = map snd (columns df).
Proof.
  induction l as [|col l IH]; intros df; simpl; [reflexivity|].
  rewrite IH. unfold rename_inplace, rename. simpl.
  rewrite map_map. reflexivity.
Qed.

Lemma getitems_all (df : DataFrame) (cols : list string)
  (cs : list (list cell)) (d : string * list cell) :
  getitems df cols = Ok cs -> In d (columns df) -> In (fst d) cols ->
  In (snd d) cs.
Proof.
  unfold getitems. intros H Hd Hn. inv_bind H as parts Hp.
  injection H as <-. apply mapM_Ok in Hp.
  apply (proj2 (List.in_concat _ _)).
  induction Hp as [|x part xs parts Hx Hxs IH]; [contradiction|].
  destruct Hn as [->|Hn].
  - exists part. split; [now left|].
    remember (filter (fun c0 => fst c0 =? fst d) (columns df)) as fl eqn:E.
    destruct fl as [|d0 fl]; [discriminate|].
    injection Hx as <-. change (In (snd d) (map snd (d0 :: fl))).
    rewrite E. apply in_map. apply filter_In.
    split; [assumption | apply String.eqb_refl].
  - destruct (IH Hn) as (pt & Hpt & Hcp). exists pt. split; auto.
    now right.
Qed.

Lemma first_value_live (r : forecast_row) (rows : list forecast_row) :
  In r rows -> (forall r', In r' rows -> f_value r' <> NaN) ->
  exists x, first_value (f_utc r) (f_member r) rows = Num x.
Proof.
  intros Hr Hlive. unfold first_value.
  destruct (find _ rows) as [r'|] eqn:E.
  - apply find_some in E. destruct E as (Hin & _).
    specialize (Hlive r' Hin). destruct (f_value r'); [eauto | congruence].
  - exfalso. apply (find_none _ _ E) in Hr.
    now rewrite Z.eqb_refl, String.eqb_refl in Hr.
Qed.

Lemma select_window_rows (db : Store) (location model element : string)
  (issue valid_start valid_end : Z) (r : forecast_row) :
  In r (select_window db location model element issue valid_start
                      valid_end) ->
  In r (metdesk_forecasts db)
  /\ series_row location model element r = true
  /\ f_issue r = issue
  /\ (valid_start <= f_utc r <= valid_end)%Z.
Proof.
  unfold select_window. intros H.
  assert (H' : In r (isort by_time_member
                       (filter (fun r =>
                          (f_location r =? location)
                          && (f_model r =? model)
                          && (f_element r =? element)
                          && (f_issue r =? issue)%Z
                          && (valid_start <=? f_utc r)%Z
                          && (f_utc r <=? valid_end)%Z)
                          (metdesk_forecasts db)))).
  { rewrite <- (firstn_skipn LIMIT (isort _ _)). apply in_or_app.
    now left. }
  apply (proj1 (in_isort _ _ _)) in H'. apply filter_In in H'.
  destruct H' as (Hin & Hc).
  repeat (apply andb_prop in Hc; destruct Hc as (Hc & ?)).
  split; [exact Hin|]. split.
  - unfold series_row. rewrite Hc.
    repeat match goal with E : _ = true |- _ => rewrite E; clear E end.
    reflexivity.
  - split; [now apply Z.eqb_eq|].
    split; [now apply Z.leb_le | now apply Z.leb_le].
Qed.

(** The window fetch: no row, or the pivot of the selected rows with its
    columns renamed and the mean over all of them. *)
Lemma window_cases (db : Store) (model element : string)
  (issue valid_start valid_end : Z) (location : option string) :
  let df := get_ensemble_by_issue_and_time db model element issue
                                           valid_start valid_end location in
  let rows := select_window db (or_default COUNTRY location) model element
                            issue valid_start valid_end in
  let live := filter (fun r => negb (isnan (f_value r))) rows in
  let index := sorted_unique (map f_utc live) in
  timestamps df = []
  \/ exists (pv : DataFrame) (cs : list (list cell)),
       utc_datetime pv = Some index
       /\ (forall m, In m (map f_member live) ->
             In (map (fun t => first_value t m live) index) cs)
       /\ df = setitem pv "ens_mean" (map nanmean (values (nrows pv) cs)).
Proof.
  cbv zeta. unfold get_ensemble_by_issue_and_time.
  destruct (reachable db); cbn [negb]; [|now left].
  destruct (select_window db (or_default COUNTRY location) model element
                          issue valid_start valid_end) as [|r0 rows'];
    [now left|].
  set (rows := r0 :: rows').
  set (live := filter (fun r => negb (isnan (f_value r))) rows).
  set (index := sorted_unique (map f_utc live)).
  set (pv := pivot_table rows).
  destruct (rename_loop (names pv) pv) as (Hu & Hlen & Hn).
  pose proof (rename_loop_data (names pv) pv) as Hdata.
  set (pv' := fold_left (fun pv col => rename_inplace col pv) (names pv) pv)
    in *.
  assert (Hall : filter (prefix "ens_") (names pv') = names pv').
  { apply filter_all. intros n Hin.
    destruct (Hn n Hin) as [Hp | [Hin' Hnot]]; [exact Hp | contradiction]. }
  rewrite Hall.
  destruct (names pv') as [|n0 ns] eqn:En.
  - left.
    assert (Hc : columns pv = []).
    { apply length_zero_iff_nil. rewrite <- Hlen.
      unfold names in En. apply map_eq_nil in En. now rewrite En. }
    apply pivot_table_no_member in Hc. fold pv in Hc.
    unfold timestamps. now rewrite Hu, Hc.
  - destruct (getitems_total pv' (n0 :: ns)) as (cs & Hcs).
    { rewrite En. auto. }
    rewrite Hcs. right. exists pv', cs.
    split; [exact Hu|]. split; [|reflexivity].
    intros m Hm.
    assert (Hcol : In (map (fun t => first_value t m live) index)
                      (map snd (columns pv'))).
    { rewrite Hdata. unfold pv, pivot_table. cbn [columns].
      fold live. fold index. rewrite map_map. cbn [snd].
      apply in_map_iff. exists m. split; [reflexivity|].
      now apply in_sorted_unique_str. }
    apply in_map_iff in Hcol. destruct Hcol as (d & <- & Hd).
    apply (getitems_all pv' (n0 :: ns) cs d Hcs Hd).
    rewrite <- En. unfold names. now apply in_map.
Qed.

Lemma window_timestamps (db : Store) (model element : string)
  (issue valid_start valid_end : Z) (location : option string) (ts : list Z) :
  utc_datetime (get_ensemble_by_issue_and_time db model element issue
                  valid_start valid_end location) = Some ts ->
  StronglySorted Z.lt ts
  /\ forall t, In t ts -> (valid_start <= t <= valid_end)%Z.
Proof.
  intros H.
  destruct (window_cases db model element issue valid_start valid_end
              location) as [E | (pv & cs & Hu & _ & E)].
  - unfold timestamps in E. rewrite H in E. subst ts.
    split; [constructor | intros t []].
  - rewrite E, utc_setitem, Hu in H. injection H as <-.
    split; [apply sorted_unique_increasing|].
    intros t Ht. apply (proj1 (in_sorted_unique _ _)) in Ht.
    apply in_map_iff in Ht. destruct Ht as (r & <- & Hr).
    apply filter_In in Hr. destruct Hr as (Hr & _).
    now apply select_window_rows in Hr.
Qed.

Lemma window_mean_number (db : Store) (model element : string)
  (issue valid_start valid_end : Z) (location : option string) :
  let df := get_ensemble_by_issue_and_time db model element issue
                                           valid_start valid_end location in
  forall k, k < List.length (timestamps df) ->
            exists x, cell_of df "ens_mean" k = Num x.
Proof.
  intros df.
  destruct (window_cases db model element issue valid_start valid_end
              location) as [E | (pv & cs & Hu & Hcs & E)]; fold df in E.
  { rewrite E. simpl. intros k Hk. lia. }
  set (rows := select_window db (or_default COUNTRY location) model element
                             issue valid_start valid_end) in *.
  set (live := filter (fun r => negb (isnan (f_value r))) rows) in *.
  set (index := sorted_unique (map f_utc live)) in *.
  assert (Hts : timestamps df = index).
  { rewrite E. unfold timestamps. now rewrite utc_setitem, Hu. }
  assert (Hlive : forall t, In t index ->
             exists r, In r live /\ f_utc r = t).
  { intros t Ht. apply (proj1 (in_sorted_unique _ _)) in Ht.
    apply in_map_iff in Ht. destruct Ht as (r & <- & Hr). eauto. }
  assert (Hnum : forall r, In r live -> f_value r <> NaN).
  { intros r Hr. apply filter_In in Hr. destruct Hr as (_ & Hv).
    intros Er. rewrite Er in Hv. discriminate. }
  rewrite Hts. intros k Hk.
  assert (Hrows : nrows pv = List.length index)
    by (unfold nrows; now rewrite Hu).
  unfold cell_of. rewrite E, lookup_setitem_same.
  rewrite nth_map_row
    by (unfold values; rewrite length_map, length_seq; lia).
  rewrite nth_values by lia.
  destruct (nth_error index k) as [t|] eqn:Et;
    [|apply nth_error_None in Et; lia].
  destruct (Hlive t (nth_error_In _ _ Et)) as (r & Hr & Hrt).
  destruct (first_value_live r live Hr Hnum) as (x & Hx).
  assert (Hin : In (Num x) (map (fun c => nth k c NaN) cs)).
  { apply in_map_iff.
    exists (map (fun t => first_value t (f_member r) live) index).
    split; [|apply Hcs; now apply in_map].
    rewrite (nth_indep _ NaN (first_value 0%Z (f_member r) live))
      by (now rewrite length_map).
    rewrite (map_nth (fun t => first_value t (f_member r) live)).
    erewrite nth_error_nth by exact Et. now rewrite <- Hrt. }
  apply numbers_In in Hin. unfold nanmean.
  destruct (numbers _); [congruence | eauto].
Qed.

(** X16.  The timestamps of the table [get_ensemble_by_issue_and_time]
    returns increase strictly and lie in the window asked for; each is
    the time of a row of the database with a value, of the series at the
    location and of the issue; and on every row [ens_mean] is a number. *)
Theorem window_fetch_rows (db : Store) (model element : string)
  (issue valid_start valid_end : Z) (location : option string) :
  let df := get_ensemble_by_issue_and_time db model element issue
                                           valid_start valid_end location in
  StronglySorted Z.lt (timestamps df)
  /\ (forall t, In t (timestamps df) ->
        (valid_start <= t <= valid_end)%Z
        /\ exists r,
             In r (metdesk_forecasts db)
             /\ series_row (or_default COUNTRY location) model element r
                = true
             /\ f_issue r = issue /\ f_utc r = t /\ f_value r <> NaN)
  /\ forall k, k < List.length (timestamps df) ->
       exists x, cell_of df "ens_mean" k = Num x.
Proof.
  intros df.
  split; [|split; [|apply window_mean_number]].
  - unfold timestamps. destruct (utc_datetime df) as [ts|] eqn:Eu;
      [|constructor].
    exact (proj1 (window_timestamps _ _ _ _ _ _ _ _ Eu)).
  - destruct (window_cases db model element issue valid_start valid_end
                location) as [E | (pv & cs & Hu & _ & E)]; fold df in E.
    { rewrite E. intros t []. }
    intros t Ht. rewrite E in Ht. unfold timestamps in Ht.
    rewrite utc_setitem, Hu in Ht.
    apply (proj1 (in_sorted_unique _ _)) in Ht.
    apply in_map_iff in Ht. destruct Ht as (r & <- & Hr).
    apply filter_In in Hr. destruct Hr as (Hr & Hv).
    apply select_window_rows in Hr.
    destruct Hr as (Hin & Hs & Hiss & Hwin).
    split; [exact Hwin|]. exists r.
    repeat (split; [first [assumption | reflexivity]|]).
    intros Er. rewrite Er in Hv. discriminate.
Qed.

(** ** The timestamps of the deltas *)

Lemma StronglySorted_lt_NoDup (l : list Z) :
  StronglySorted Z.lt l -> NoDup l.
Proof.
  induction 1 as [|a l Hl IH Ha]; constructor; [|exact IH].
  intros Hin. rewrite Forall_forall in Ha. specialize (Ha a Hin). lia.
Qed.

Lemma StronglySorted_filter {A} (R : A -> A -> Prop) (f : A -> bool)
  (l : list A) :
  StronglySorted R l -> StronglySorted R (filter f l).
Proof.
  induction 1 as [|a l Hl IH Ha]; simpl; [constructor|].
  destruct (f a); [|exact IH]. constructor; [exact IH|].
  rewrite Forall_forall in *. intros x Hx. apply filter_In in Hx.
  apply Ha. tauto.
Qed.

(** With unique keys on the right, an inner join keeps the left keys that
    the right side holds, in their order. *)
Lemma inner_rows_keys_filter (lt rt : list Z) :
  NoDup rt ->
  map key (inner_rows lt rt)
  = filter (fun t => existsb (Z.eqb t) rt) lt.
Proof.
  intros Hnd. unfold inner_rows, enumerate. generalize 0 as s.
  induction lt as [|t lt IH]; intros s; [reflexivity|].
  cbn [List.length seq combine flat_map filter]. rewrite map_app, IH.
  cbn [fst snd]. rewrite map_map. cbn [key].
  destruct (positions_NoDup t rt Hnd) as [E | (j & E)]; rewrite E.
  - apply positions_nil in E.
    destruct (existsb (Z.eqb t) rt) eqn:Ex; [|reflexivity].
    apply existsb_exists in Ex. destruct Ex as (x & Hx & Hxt).
    apply Z.eqb_eq in Hxt. subst x. contradiction.
  - assert (Hin : In t rt).
    { assert (Hj : In j (positions t rt)) by (rewrite E; now left).
      apply in_positions in Hj. eapply nth_error_In; eauto. }
    assert (Ex : existsb (Z.eqb t) rt = true).
    { apply existsb_exists. exists t. split; [exact Hin|].
      apply Z.eqb_refl. }
    rewrite Ex. reflexivity.
Qed.

Lemma compute_forecast_delta_full (db : Store) (model element : string)
  (issue_new issue_old valid_start valid_end : Z)
  (countries : option (list string)) (location : option string) :
  let loc := Some (upper (resolve_location countries location)) in
  let old_df := get_ensemble_by_issue_and_time db model element issue_old
                  valid_start valid_end loc in
  let new_df := get_ensemble_by_issue_and_time db model element issue_new
                  valid_start valid_end loc in
  let out := compute_forecast_delta db model element issue_new issue_old
               valid_start valid_end countries location in
  (empty old_df || empty new_df = true /\ out = Ok DataFrame_new)
  \/ exists ots om nts nm,
       utc_datetime old_df = Some ots
       /\ lookup "ens_mean" (columns old_df) = Some om
       /\ utc_datetime new_df = Some nts
       /\ lookup "ens_mean" (columns new_df) = Some nm
       /\ ((inner_rows ots nts = [] /\ out = Ok DataFrame_new)
           \/ (inner_rows ots nts <> []
               /\ out = Ok (delta_frame ots om nts nm))).
Proof.
  intros loc old_df new_df out. unfold out, compute_forecast_delta.
  fold loc. fold old_df. fold new_df.
  destruct (empty old_df) eqn:Eo; [now left|].
  destruct (empty new_df) eqn:En; [now left|].
  cbn [orb]. right.
  destruct (fetch_window_shape db model element issue_old valid_start
              valid_end loc Eo) as (ots & om & Hot & Hom).
  destruct (fetch_window_shape db model element issue_new valid_start
              valid_end loc En) as (nts & nm & Hnt & Hnm).
  fold old_df in Hot, Hom. fold new_df in Hnt, Hnm.
  unfold time_and, getitem_time, getitem.
  rewrite Hot, Hom, Hnt, Hnm. cbn [bind].
  rewrite merge_means. cbn [bind].
  exists ots, om, nts, nm.
  repeat (split; [first [assumption | reflexivity]|]).
  destruct (inner_rows ots nts) as [|j0 js] eqn:Ej; [now left|].
  right. split; [discriminate|].
  unfold delta_frame. rewrite Ej. reflexivity.
Qed.

(** X17.  The timestamps of the table [compute_forecast_delta] returns
    increase strictly, lie in the window asked for, and are exactly the
    timestamps that the fetch of the old issue and the fetch of the new
    issue both hold, unless one of the two fetches is empty. *)
Theorem forecast_delta_timestamps (db : Store) (model element : string)
  (issue_new issue_old valid_start valid_end : Z)
  (countries : option (list string)) (location : option string) :
  let loc := Some (upper (resolve_location countries location)) in
  let old_df := get_ensemble_by_issue_and_time db model element issue_old
                  valid_start valid_end loc in
  let new_df := get_ensemble_by_issue_and_time db model element issue_new
                  valid_start valid_end loc in
  exists d,
    compute_forecast_delta db model element issue_new issue_old
                           valid_start valid_end countries location = Ok d
    /\ StronglySorted Z.lt (timestamps d)
    /\ (forall t, In t (timestamps d) ->
          (valid_start <= t <= valid_end)%Z
          /\ In t (timestamps old_df) /\ In t (timestamps new_df))
    /\ (empty old_df = false -> empty new_df = false ->
        forall t, In t (timestamps old_df) -> In t (timestamps new_df) ->
                  In t (timestamps d)).
Proof.
  intros loc old_df new_df.
  pose proof (compute_forecast_delta_full db model element issue_new
                issue_old valid_start valid_end countries location) as H.
  cbv zeta in H. fold loc in H. fold old_df in H. fold new_df in H.
  destruct H as [(He & H) | (ots & om & nts & nm & Hot & Hom & Hnt & Hnm
                             & [(Hnil & H) | (Hne & H)])].
  - exists DataFrame_new. split; [exact H|].
    split; [constructor|]. split; [intros t []|].
    intros Eo En. rewrite Eo, En in He. discriminate He.
  - exists DataFrame_new. split; [exact H|].
    split; [constructor|]. split; [intros t []|].
    intros _ _ t Ho Hn. unfold timestamps in Ho, Hn.
    rewrite Hot in Ho. rewrite Hnt in Hn.
    exact (inner_rows_common _ _ _ Ho Hn Hnil).
  - exists (delta_frame ots om nts nm). split; [exact H|].
    destruct (window_timestamps _ _ _ _ _ _ _ _ Hot) as (So & Wo).
    destruct (window_timestamps _ _ _ _ _ _ _ _ Hnt) as (Sn & Wn).
    unfold timestamps. rewrite Hot, Hnt.
    unfold delta_frame. cbn [utc_datetime].
    rewrite (inner_rows_keys_filter ots nts (StronglySorted_lt_NoDup _ Sn)).
    split; [now apply StronglySorted_filter|].
    split.
    + intros t Ht. apply filter_In in Ht. destruct Ht as (Ho & Hn).
      apply existsb_exists in Hn. destruct Hn as (x & Hx & Ex).
      apply Z.eqb_eq in Ex. subst x. auto.
    + intros _ _ t Ho Hn. apply filter_In. split; [exact Ho|].
      apply existsb_exists. exists t. split; [exact Hn | apply Z.eqb_refl].
Qed.

(** X18.  Comparing an issue with itself gives a table on the timestamps
    of its fetch in which, on every row, the old and the new mean are the
    same number and [delta] is zero. *)
Theorem delta_of_issue_against_itself (db : Store) (model element : string)
  (issue valid_start valid_end : Z) (countries : option (list string))
  (location : option string) :
  let df := get_ensemble_by_issue_and_time db model element issue
              valid_start valid_end
              (Some (upper (resolve_location countries location))) in
  exists d,
    compute_forecast_delta db model element issue issue valid_start
                           valid_end countries location = Ok d
    /\ timestamps d = timestamps df
    /\ forall k, k < List.length (timestamps d) ->
         (exists x, cell_of d "old_mean" k = Num x
                    /\ cell_of d "new_mean" k = Num x)
         /\ cell_eq (cell_of d "delta" k) (Num 0).
Proof.
  intros df.
  pose proof (compute_forecast_delta_full db model element issue issue
                valid_start valid_end countries location) as H.
  cbv zeta in H. fold df in H.
  pose proof (window_mean_number db model element issue valid_start
                valid_end
                (Some (upper (resolve_location countries location))))
    as Hmean.
  cbv zeta in Hmean. fold df in Hmean.
  assert (Hempty : forall ts, utc_datetime df = Some ts ->
                              inner_rows ts ts = [] -> ts = []).
  { intros [|t ts] _ E; [reflexivity|]. exfalso.
    apply (inner_rows_common (t :: ts) (t :: ts) t); simpl; auto. }
  destruct H as [(He & H) | (ots & om & nts & nm & Hot & Hom & Hnt & Hnm
                             & [(Hnil & H) | (Hne & H)])].
  - exists DataFrame_new. split; [exact H|].
    assert (Et : timestamps df = []).
    { rewrite orb_diag in He. unfold timestamps.
      destruct (utc_datetime df) as [ts|] eqn:Eu; [|reflexivity].
      rewrite (empty_rows _ _ Eu) in He. now destruct ts. }
    split; [now rewrite Et|]. simpl. intros k Hk. lia.
  - assert (nts = ots) by congruence. subst nts.
    exists DataFrame_new. split; [exact H|].
    unfold timestamps at 2. rewrite Hot, (Hempty ots Hot Hnil).
    split; [reflexivity|]. simpl. intros k Hk. lia.
  - assert (nts = ots) by congruence. subst nts.
    assert (nm = om) by congruence. subst nm.
    exists (delta_frame ots om ots om). split; [exact H|].
    assert (Hts : timestamps df = ots)
      by (unfold timestamps; now rewrite Hot).
    rewrite Hts in Hmean.
    destruct (window_timestamps _ _ _ _ _ _ _ _ Hot) as (Hs & _).
    pose proof (StronglySorted_lt_NoDup _ Hs) as Hnd.
    assert (Hkeys : map key (inner_rows ots ots) = ots).
    { rewrite (inner_rows_keys_filter ots ots Hnd). apply filter_all.
      intros t Ht. apply existsb_exists. exists t.
      split; [exact Ht | apply Z.eqb_refl]. }
    assert (Htd : timestamps (delta_frame ots om ots om)
                  = map key (inner_rows ots ots)) by reflexivity.
    rewrite Htd, Hts. split; [exact Hkeys|].
    intros k Hk. rewrite length_map in Hk.
    set (rows := inner_rows ots ots) in *.
    destruct (nth_error rows k) as [row|] eqn:Erow;
      [|apply nth_error_None in Erow; lia].
    pose proof (nth_error_In _ _ Erow) as Hin.
    apply in_inner_rows in Hin.
    destruct Hin as (i & j & Hrow & Hi & Hj).
    assert (Hij : i = j).
    { apply (proj1 (NoDup_nth_error ots) Hnd).
      - apply nth_error_Some. congruence.
      - congruence. }
    subst j.
    assert (Hil : i < List.length ots)
      by (apply nth_error_Some; congruence).
    destruct (Hmean i Hil) as (x & Hx).
    unfold cell_of in Hx. rewrite Hom in Hx.
    assert (Hl : nth k (take (map left_row rows) om) NaN = Num x).
    { rewrite (nth_take _ _ _ (left_row row))
        by (now rewrite nth_error_map, Erow).
      rewrite Hrow. exact Hx. }
    assert (Hr : nth k (take (map right_row rows) om) NaN = Num x).
    { rewrite (nth_take _ _ _ (right_row row))
        by (now rewrite nth_error_map, Erow).
      rewrite Hrow. exact Hx. }
    assert (Ho : cell_of (delta_frame ots om ots om) "old_mean" k
                 = nth k (take (map left_row rows) om) NaN)
      by reflexivity.
    assert (Hn : cell_of (delta_frame ots om ots om) "new_mean" k
                 = nth k (take (map right_row rows) om) NaN)
      by reflexivity.
    assert (Hd : cell_of (delta_frame ots om ots om) "delta" k
                 = nth k (zip_with cell_sub
                            (take (map right_row rows) om)
                            (take (map left_row rows) om)) NaN)
      by reflexivity.
    rewrite Ho, Hn, Hd, Hl, Hr.
    split; [exists x; auto|].
    rewrite nth_zip_with by (rewrite length_take, length_map; lia).
    rewrite Hl, Hr. simpl. ring.
Qed.

(** ** Summation over countries *)

Lemma list_eqb_eq {A} (eqb : A -> A -> bool) (l l' : list A) :
  (forall x y, eqb x y = true -> x = y) ->
  list_eqb eqb l l' = true -> l = l'.
Proof.
  intros Heq. unfold list_eqb. revert l'.
  induction l as [|x l IH]; intros [|y l'] H; simpl in H;
    try reflexivity; try discriminate H.
  apply andb_prop in H. destruct H as (Hlen & H).
  apply andb_prop in H. destruct H as (Hxy & H).
  f_equal; [now apply Heq|]. apply IH. now rewrite Hlen, H.
Qed.

Lemma lookup_tabulate (g : string -> list cell) (n : string)
  (cols : list string) :
  lookup n (map (fun m => (m, g m)) cols)
  = if in_dec string_dec n cols then Some (g n) else None.
Proof.
  induction cols as [|m cols IH]; [reflexivity|].
  cbn [map lookup fst snd]. destruct (m =? n) eqn:E.
  - apply String.eqb_eq in E. subst m.
    destruct (in_dec string_dec n (n :: cols)) as [_|H]; [reflexivity|].
    exfalso. apply H. now left.
  - rewrite IH. apply String.eqb_neq in E.
    destruct (in_dec string_dec n cols) as [H|H];
      destruct (in_dec string_dec n (m :: cols)) as [H'|H'];
      try reflexivity.
    + exfalso. apply H'. now right.
    + exfalso. destruct H' as [H'|H']; contradiction.
Qed.

Lemma cell_at_no_row (df : DataFrame) (n : string) (t : Z) :
  ~ In t (timestamps df) -> cell_at df n t = NaN.
Proof.
  unfold cell_at, timestamps. intros H.
  destruct (utc_datetime df) as [ts|]; [|reflexivity].
  destruct (lookup n (columns df)); [|reflexivity].
  apply positions_nil in H. now rewrite H.
Qed.

Lemma cell_at_no_column (df : DataFrame) (n : string) (t : Z) :
  ~ In n (names df) -> cell_at df n t = NaN.
Proof.
  unfold cell_at. intros H.
  destruct (utc_datetime df) as [ts|]; [|reflexivity].
  destruct (lookup n (columns df)) eqn:E; [|reflexivity].
  exfalso. apply H. apply in_names_lookup. congruence.
Qed.

(** One cell of [a.add(b, fill_value=0)]. *)
Lemma add_cell (a b c : DataFrame) (n : string) (t : Z) :
  add a b = Ok c ->
  cell_at c n t = add_fill0 (cell_at a n t) (cell_at b n t).
Proof.
  unfold add, getitem_time.
  destruct (utc_datetime a) as [ta|] eqn:Ha; [|discriminate].
  destruct (utc_datetime b) as [tb|] eqn:Hb; [|discriminate].
  cbn [bind]. intros H. injection H as <-.
  set (index := if list_eqb Z.eqb ta tb then ta
                else sorted_unique (ta ++ tb)).
  set (cols := if list_eqb String.eqb (names a) (names b) then names a
               else sorted_unique_str (names a ++ names b)).
  assert (Hindex : forall x, In x index <-> In x ta \/ In x tb).
  { intros x. unfold index. destruct (list_eqb Z.eqb ta tb) eqn:E.
    - apply list_eqb_eq in E; [|intros ? ?; apply Z.eqb_eq].
      subst tb. tauto.
    - rewrite in_sorted_unique, in_app_iff. tauto. }
  assert (Hcols : forall x, In x cols <-> In x (names a) \/ In x (names b)).
  { intros x. unfold cols.
    destruct (list_eqb String.eqb (names a) (names b)) eqn:E.
    - apply list_eqb_eq in E; [|intros ? ?; apply String.eqb_eq].
      rewrite <- E. tauto.
    - rewrite in_sorted_unique_str, in_app_iff. tauto. }
  unfold cell_at at 1. cbn [utc_datetime columns].
  rewrite lookup_tabulate.
  destruct (in_dec string_dec n cols) as [Hn|Hn].
  - destruct (positions t index) as [|p ps] eqn:Ep.
    + apply positions_nil in Ep.
      rewrite !cell_at_no_row; [reflexivity | |];
        unfold timestamps; rewrite ?Ha, ?Hb; intros Hin; apply Ep;
        apply Hindex; tauto.
    + assert (Hp : nth_error index p = Some t).
      { apply in_positions. rewrite Ep. now left. }
      rewrite (nth_indep _ NaN
                 (add_fill0 (cell_at a n 0%Z) (cell_at b n 0%Z)))
        by (rewrite length_map; apply nth_error_Some; congruence).
      rewrite (map_nth (fun t => add_fill0 (cell_at a n t) (cell_at b n t))).
      erewrite nth_error_nth by exact Hp. reflexivity.
  - rewrite !cell_at_no_column; [reflexivity | |];
      intros Hin; apply Hn; apply Hcols; tauto.
Qed.

Lemma add_all_cell (rest : list DataFrame) :
  forall df agg n t,
    foldM add rest df = Ok agg ->
    cell_at agg n t
    = fold_left add_fill0 (map (fun d => cell_at d n t) rest)
                (cell_at df n t).
Proof.
  induction rest as [|d rest IH]; simpl; intros df agg n t H.
  - now injection H as <-.
  - inv_bind H as a' Ha'. rewrite (IH a' agg n t H).
    now rewrite (add_cell df d a' n t Ha').
Qed.

(** The tables a completed update was computed from. *)
Lemma update_bundle_parts (np_sqrt : Q -> Q) (db : Store) (utcnow : nat -> Z)
  (model : string) (issue : option Z) (countries : option (list string))
  (self self' : Engine) (b : Scenarios) :
  update np_sqrt db utcnow model issue countries self = (Ok (Some b), self')
  ->
  exists fetched df rest c0 cl cc grouped,
    mapM (fun c => get_renewable_ensembles db model issue (Some (upper c)))
         (requested countries) = Ok fetched
    /\ filter (fun d => negb (empty d)) fetched = df :: rest
    /\ foldM add rest df = Ok (renewables_ens b)
    /\ filter (fun d => negb (empty d))
              (map (fun c => get_eq_consumption db issue (Some (lower c)))
                   (requested countries)) = c0 :: cl
    /\ concat (c0 :: cl) = Ok cc
    /\ groupby_sum cc = Ok grouped
    /\ sort_values grouped = Ok (consumption b).
Proof.
  unfold update. fold (requested countries).
  unfold mbind at 1. unfold modify at 1.
  unfold mbind at 1. unfold lift at 1.
  destruct (mapM (fun c => get_renewable_ensembles db model issue
                                                   (Some (upper c)))
                 (requested countries)) as [fetched|e] eqn:Hf;
    [|discriminate].
  destruct (filter (fun df => negb (empty df)) fetched) as [|df rest] eqn:Er;
    [discriminate|].
  unfold mbind at 1. unfold lift at 1.
  destruct (first <- getitem_time df ;; foldM add rest df)
    as [ren_agg|e] eqn:Hagg; [|discriminate].
  inv_bind Hagg as ts0 Hts0.
  destruct (filter (fun dfc => negb (empty dfc))
                   (map (fun c => get_eq_consumption db issue
                                                     (Some (lower c)))
                        (requested countries))) as [|c0 cl] eqn:Ec;
    [discriminate|].
  unfold mbind at 1. unfold lift at 1.
  destruct (concat (c0 :: cl)) as [cons_concat|e] eqn:Hcc; [|discriminate].
  unfold mbind at 1. unfold lift at 1.
  destruct (grouped <- groupby_sum cons_concat ;; sort_values grouped)
    as [cons|e] eqn:Hcons; [|discriminate].
  inv_bind Hcons as grouped Hg.
  destruct (empty cons); [discriminate|].
  unfold mbind at 1. unfold lift at 1.
  destruct (_compute_residual_scenarios np_sqrt cons ren_agg model)
    as [res|e] eqn:Hres; [|discriminate].
  unfold mbind at 1. unfold lift at 1.
  destruct (available_model model) as [cfg|e]; [|discriminate].
  rewrite update_tail. cbv zeta.
  destruct (forallb _ _); [|discriminate].
  intros H. injection H as <- _. simpl.
  exists fetched, df, rest, c0, cl, cons_concat, grouped. auto 10.
Qed.

(** X19.  The renewables table of a bundle is the sum over the countries
    asked for: with the tables fetched for them that are not empty, taken
    in the order of the countries, each cell of the result, at a
    timestamp and a column, is the sum of the cells of these tables
    there, a table without the cell counting as zero, and is missing
    only when every table misses it.  With a single such table the
    result is this table. *)
Theorem update_sums_countries (np_sqrt : Q -> Q) (db : Store) (utcnow : nat -> Z)
  (model : string) (issue : option Z) (countries : option (list string))
  (self self' : Engine) (b : Scenarios) :
  update np_sqrt db utcnow model issue countries self = (Ok (Some b), self')
  ->
  exists fetched df rest,
    mapM (fun c => get_renewable_ensembles db model issue (Some (upper c)))
         (requested countries) = Ok fetched
    /\ filter (fun d => negb (empty d)) fetched = df :: rest
    /\ (rest = [] -> renewables_ens b = df)
    /\ forall n t,
         cell_at (renewables_ens b) n t
         = fold_left add_fill0 (map (fun d => cell_at d n t) rest)
                     (cell_at df n t).
Proof.
  intros H. apply update_bundle_parts in H.
  destruct H as (fetched & df & rest & _ & _ & _ & _ & Hf & Hr & Hagg & _).
  exists fetched, df, rest. split; [exact Hf|]. split; [exact Hr|]. split.
  - intros ->. simpl in Hagg. congruence.
  - intros n t. now apply add_all_cell.
Qed.

(** France and Germany: 6 and 12 at the first hour give 18; at the
    second hour only Germany has a row, and its 6 is kept. *)
Lemma update_sums_countries_example :
  exists b self' fetched fr de,
    update (fun q => q) two_country_store (clock_from 0) "eceps" None
           (Some ["FR"; "DE"]) init
    = (Ok (Some b), self')
    /\ mapM (fun c => get_renewable_ensembles two_country_store "eceps"
                                              None (Some (upper c)))
            (requested (Some ["FR"; "DE"])) = Ok fetched
    /\ filter (fun d => negb (empty d)) fetched = [fr; de]
    /\ cell_at fr "total_ren_ens_01" 0 = Num 6
    /\ cell_at de "total_ren_ens_01" 0 = Num 12
    /\ cell_at (renewables_ens b) "total_ren_ens_01" 0 = Num 18
    /\ cell_at fr "total_ren_ens_01" 3600 = NaN
    /\ cell_at de "total_ren_ens_01" 3600 = Num 6
    /\ cell_at (renewables_ens b) "total_ren_ens_01" 3600 = Num 6.
Proof.
  destruct (update (fun q => q) two_country_store (clock_from 0) "eceps"
              None (Some ["FR"; "DE"]) init)
    as [[[b|]|e] self'] eqn:H;
    try (vm_compute in H; discriminate H).
  destruct (update_sums_countries _ _ _ _ _ _ _ _ _ H)
    as (fetched & df & rest & Hf & Hr & _ & Hsum).
  pose proof Hf as Hf'. vm_compute in Hf'. injection Hf' as Ef.
  pose proof Hr as Hr'. rewrite <- Ef in Hr'. vm_compute in Hr'.
  injection Hr' as Edf Erest.
  exists b, self', fetched, df.
  eexists. split; [reflexivity|]. split; [exact Hf|].
  split; [rewrite Hr, <- Erest; reflexivity|].
  rewrite !Hsum. rewrite <- Edf, <- Erest.
  repeat split; vm_compute; reflexivity.
Defined.

(** ** Consumption summed over countries *)











(** ** The percentile series *)



Lemma percentile_forecasts_cases (db : Store) (model element : string)
  (issue : option Z) (location : option string) :
  let out := MetDeskDBClientRest.get_percentile_forecasts
               db model element issue location in
  out = Returned DataFrame_new
  \/ (reachable db = false /\ issue <> None /\ out = DatabaseError)
  \/ exists i w,
       resolved_issue db model element issue = Some i
       /\ reachable db = true
       /\ sort_values
            (pivot_table
               (MetDeskDBClientRest.select_percentiles
                  db (or_default COUNTRY location) model element i
                  percentile_labels)) = Ok w
       /\ out = Returned w.
Proof.
  intros out. unfold out, MetDeskDBClientRest.get_percentile_forecasts.
  fold (resolved_issue db model element issue). fold percentile_labels.
  destruct (resolved_issue db model element issue) as [i|] eqn:Ei;
    [|now left].
  destruct (reachable db) eqn:Hreach; cbn [negb].
  - destruct (MetDeskDBClientRest.select_percentiles db
                (or_default COUNTRY location) model element i
                percentile_labels) as [|r0 rows] eqn:E; [now left|].
    right; right.
    destruct (sort_values (pivot_table (r0 :: rows))) as [w|e] eqn:Hs.
    + exists i, w. split; [reflexivity|]. split; [reflexivity|].
      split; [|reflexivity]. rewrite E. exact Hs.
    + unfold sort_values in Hs.
      cbn [getitem_time utc_datetime pivot_table bind] in Hs.
      discriminate Hs.
  - right; left. split; [reflexivity|]. split; [|reflexivity].
    intros ->. unfold resolved_issue, _get_latest_issue in Ei.
    rewrite Hreach in Ei. discriminate Ei.
Qed.

(** X21.  [get_percentile_forecasts] never raises a Python exception of
    its own.  When the database cannot be reached it returns the empty
    table if it was to look up the latest issue itself, and fails with
    the error of the driver if an issue was given; when the database can
    be reached it always returns a table. *)
Theorem percentile_fetch_outcomes (db : Store) (model element : string)
  (issue : option Z) (location : option string) :
  let out := MetDeskDBClientRest.get_percentile_forecasts
               db model element issue location in
  (forall e, out <> Raised e)
  /\ (reachable db = false ->
      out = match issue with
            | Some _ => DatabaseError
            | None => Returned DataFrame_new
            end)
  /\ (reachable db = true -> exists w, out = Returned w).
Proof.
  intros out.
  destruct (percentile_forecasts_cases db model element issue location)
    as [E | [(Hr & Hi & E) | (i & w & Hi & Hr & _ & E)]];
    fold out in E; rewrite E.
  - split; [discriminate|]. split; [|eauto].
    intros Hr. destruct issue as [i|]; [|reflexivity]. exfalso.
    unfold out, MetDeskDBClientRest.get_percentile_forecasts in E.
    rewrite Hr in E. discriminate E.
  - split; [discriminate|]. split; [|congruence].
    intros _. destruct issue; [reflexivity | congruence].
  - split; [discriminate|]. split; [congruence | eauto].
Qed.



(** ** Wind and solar together in [get_renewable_percentiles] *)







(** X24.  When only one of the two percentile fetches returns data,
    [get_renewable_percentiles] returns that side alone under its
    prefixed names, on its own timestamps and without any column of
    totals; when neither does, it returns the empty table. *)
Theorem renewable_percentiles_one_side (db : Store) (model : string)
  (issue : option Z) (wind solar : DataFrame) :
  MetDeskDBClientRest.get_percentile_forecasts db model "wind" issue None
  = Returned wind ->
  MetDeskDBClientRest.get_percentile_forecasts db model "solar" issue None
  = Returned solar ->
  empty wind = true \/ empty solar = true ->
  exists df,
    MetDeskDBClientRest.get_renewable_percentiles db model issue
    = Returned df
    /\ (empty wind = true -> empty solar = true -> df = DataFrame_new)
    /\ (empty wind = false -> df = rename (fun c => "wind_" ++ c) wind)
    /\ (empty solar = false -> df = rename (fun c => "solar_" ++ c) solar)
    /\ forall l, has_column ("total_ren_" ++ l) df = false.
Proof.
  intros Hw Hs Hone.
  assert (Hnone : forall (pre : string) (d : DataFrame) l,
             pre = "wind_" \/ pre = "solar_" ->
             has_column ("total_ren_" ++ l) (rename (fun c => pre ++ c) d)
             = false).
  { intros pre d l Hpre. unfold has_column. rewrite names_rename.
    induction (names d) as [|c cs IH]; [reflexivity|].
    cbn [map existsb]. rewrite IH, orb_false_r.
    apply String.eqb_neq. destruct Hpre as [-> | ->]; simpl; discriminate. }
  unfold MetDeskDBClientRest.get_renewable_percentiles.
  rewrite Hw, Hs. cbn [obind].
  destruct (empty wind) eqn:Ew; destruct (empty solar) eqn:Es;
    cbn [andb negb].
  - exists DataFrame_new. repeat split; auto; discriminate.
  - rewrite Ew. exists (rename (fun c => "solar_" ++ c) solar).
    split; [reflexivity|]. split; [discriminate|].
    split; [discriminate|]. split; [reflexivity|].
    intros l. apply Hnone. now right.
  - rewrite empty_rename, Ew, Es.
    exists (rename (fun c => "wind_" ++ c) wind).
    split; [reflexivity|]. split; [discriminate|].
    split; [reflexivity|]. split; [discriminate|].
    intros l. apply Hnone. now left.
  - destruct Hone; discriminate.
Qed.

(** Wind alone: its two series come back as [wind_10%] and
    [wind_mean] on their two hours, and no total is there. *)
Lemma renewable_percentiles_one_side_example :
  exists wind df,
    MetDeskDBClientRest.get_percentile_forecasts wind_percentile_store
      "eceps" "wind" None None = Returned wind
    /\ MetDeskDBClientRest.get_percentile_forecasts wind_percentile_store
         "eceps" "solar" None None = Returned DataFrame_new
    /\ MetDeskDBClientRest.get_renewable_percentiles wind_percentile_store
         "eceps" None = Returned df
    /\ df = rename (fun c => "wind_" ++ c) wind
    /\ df = mkDF (Some [0; 3600]%Z)
                 [("wind_10%", [Num 3; Num 4]);
                  ("wind_mean", [Num 5; Num 6])]
    /\ forall l, has_column ("total_ren_" ++ l) df = false.
Proof.
  destruct (MetDeskDBClientRest.get_percentile_forecasts
              wind_percentile_store "eceps" "wind" None None)
    as [wind| |] eqn:Hw; try (vm_compute in Hw; discriminate Hw).
  pose proof Hw as Vw. vm_compute in Vw. injection Vw as Vw.
  destruct (renewable_percentiles_one_side wind_percentile_store "eceps"
              None wind DataFrame_new Hw)
    as (df & Hdf & _ & Hwind & _ & Hnone).
  - vm_compute. reflexivity.
  - now right.
  - assert (E : df = rename (fun c => "wind_" ++ c) wind).
    { apply Hwind. rewrite <- Vw. reflexivity. }
    exists wind, df. split; [reflexivity|].
    split; [vm_compute; reflexivity|].
    split; [exact Hdf|]. split; [exact E|].
    split; [rewrite E, <- Vw; vm_compute; reflexivity | exact Hnone].
Defined.

(** ** The table of [compute_residual_load_delta] *)

Lemma finish_delta_sorted (pre r : DataFrame) :
  finish_delta pre = Ok r -> NoDup (timestamps pre) ->
  StronglySorted Z.lt (timestamps r).
Proof.
  unfold finish_delta. intros H Hnd.
  destruct (empty pre); [injection H as <-; constructor|].
  inv_bind H as sorted Hs. inv_bind H as w1 Hw1. inv_bind H as s1 Hs1.
  inv_bind H as w2 Hw2. inv_bind H as s2 Hs2. inv_bind H as rd Hrd.
  injection H as <-. unfold timestamps. rewrite !utc_setitem.
  exact (sort_values_increasing _ _ Hs Hnd).
Qed.

Lemma side_value_number (side : DataFrame) (t : Z) (v : cell) :
  side_value side t v -> exists x, v = Num x.
Proof.
  intros [(i & _ & ->) | (_ & ->)]; [|eauto].
  destruct (cell_of side "delta" i); simpl; eauto.
Qed.

Lemma delta_timestamps (db : Store) (model element : string)
  (issue_new issue_old valid_start valid_end : Z)
  (countries : option (list string)) (location : option string)
  (d : DataFrame) :
  compute_forecast_delta db model element issue_new issue_old valid_start
                         valid_end countries location = Ok d ->
  StronglySorted Z.lt (timestamps d)
  /\ forall t, In t (timestamps d) -> (valid_start <= t <= valid_end)%Z.
Proof.
  intros H.
  pose proof (compute_forecast_delta_full db model element issue_new
                issue_old valid_start valid_end countries location) as G.
  cbv zeta in G. rewrite H in G.
  destruct G as [(_ & G) | (ots & om & nts & nm & Hot & _ & Hnt & _
                            & [(_ & G) | (_ & G)])];
    injection G as ->; try (split; [constructor | intros t []]).
  destruct (window_timestamps _ _ _ _ _ _ _ _ Hot) as (So & Wo).
  destruct (window_timestamps _ _ _ _ _ _ _ _ Hnt) as (Sn & _).
  unfold timestamps, delta_frame. cbn [utc_datetime].
  rewrite (inner_rows_keys_filter ots nts (StronglySorted_lt_NoDup _ Sn)).
  split; [now apply StronglySorted_filter|].
  intros t Ht. apply filter_In in Ht. apply Wo. tauto.
Qed.

(** X25.  The timestamps of the table [compute_residual_load_delta]
    returns increase strictly and lie in the window asked for, and on
    every row [wind_delta], [solar_delta] and [residual_delta] are
    numbers, never missing values. *)
Theorem residual_delta_table (db : Store) (model : string)
  (issue_new issue_old valid_start valid_end : Z)
  (countries : option (list string)) (location : option string) :
  exists r,
    compute_residual_load_delta db model issue_new issue_old valid_start
                                valid_end countries location = Ok r
    /\ StronglySorted Z.lt (timestamps r)
    /\ (forall t, In t (timestamps r) -> (valid_start <= t <= valid_end)%Z)
    /\ forall k, k < nrows r ->
         exists x y z,
           cell_of r "wind_delta" k = Num x
           /\ cell_of r "solar_delta" k = Num y
           /\ cell_of r "residual_delta" k = Num z.
Proof.
  destruct (residual_load_delta_spec db model issue_new issue_old
              valid_start valid_end countries location)
    as (wdf & sdf & r & Hw & Hs & Hr & Hcase).
  destruct (delta_timestamps _ _ _ _ _ _ _ _ _ _ Hw) as (Sw & Ww).
  destruct (delta_timestamps _ _ _ _ _ _ _ _ _ _ Hs) as (Ss & Ws).
  exists r. split; [exact Hr|].
  destruct Hcase as [(-> & -> & ->) | (Hne & Hok)].
  { split; [constructor|]. split; [intros t []|].
    intros k Hk. change (nrows DataFrame_new) with 0 in Hk. lia. }
  destruct Hok as (ts & W & S & Hts & HW & HS & HR & _ & HlW & HlS & _
                   & Hkeys & Hrows).
  assert (Et : timestamps r = ts) by (unfold timestamps; now rewrite Hts).
  split.
  { (* the order *)
    rewrite residual_load_delta_unfold, Hw, Hs in Hr. cbn [bind] in Hr.
    destruct (empty wdf && empty sdf) eqn:Eb.
    { injection Hr as <-. constructor. }
    inv_bind Hr as pre Hpre.
    apply (finish_delta_sorted pre r Hr).
    apply StronglySorted_lt_NoDup in Sw, Ss.
    destruct (negb (empty wdf) && negb (empty sdf)).
    - inv_bind Hpre as w Hwd. inv_bind Hpre as s Hsd.
      unfold delta_as, time_and in Hwd, Hsd.
      inv_bind Hwd as w0 Hw0. inv_bind Hw0 as wts Hwts.
      inv_bind Hw0 as wc Hwc. injection Hw0 as <-. injection Hwd as <-.
      inv_bind Hsd as s0 Hs0. inv_bind Hs0 as sts Hsts.
      inv_bind Hs0 as sc Hsc. injection Hs0 as <-. injection Hsd as <-.
      apply merge_Ok in Hpre. destruct Hpre as (lt & rt & Hlt & Hrt & Hm).
      cbn in Hlt, Hrt. injection Hlt as <-. injection Hrt as <-.
      unfold timestamps in Sw, Ss |- *.
      unfold getitem_time in Hwts, Hsts.
      destruct (utc_datetime wdf); [|discriminate].
      destruct (utc_datetime sdf); [|discriminate].
      injection Hwts as ->. injection Hsts as ->.
      rewrite Hm. cbn [join_rows]. now apply outer_rows_NoDup.
    - destruct (negb (empty wdf)).
      + inv_bind Hpre as w Hwd. injection Hpre as <-.
        unfold delta_as, time_and in Hwd.
        inv_bind Hwd as w0 Hw0. inv_bind Hw0 as wts Hwts.
        inv_bind Hw0 as wc Hwc. injection Hw0 as <-. injection Hwd as <-.
        unfold timestamps in Sw |- *. rewrite utc_setitem. cbn.
        unfold getitem_time in Hwts.
        destruct (utc_datetime wdf); [|discriminate].
        now injection Hwts as ->.
      + inv_bind Hpre as s Hsd. injection Hpre as <-.
        unfold delta_as, time_and in Hsd.
        inv_bind Hsd as s0 Hs0. inv_bind Hs0 as sts Hsts.
        inv_bind Hs0 as sc Hsc. injection Hs0 as <-. injection Hsd as <-.
        unfold timestamps in Ss |- *. rewrite utc_setitem. cbn.
        unfold getitem_time in Hsts.
        destruct (utc_datetime sdf); [|discriminate].
        now injection Hsts as ->. }
  split.
  { intros t Ht. rewrite Et in Ht. apply Hkeys in Ht.
    destruct Ht as [Ht|Ht]; auto. }
  intros k Hk. unfold nrows in Hk. rewrite Hts in Hk.
  destruct (nth_error ts k) as [t|] eqn:Ek;
    [|apply nth_error_None in Ek; lia].
  destruct (Hrows k t Ek) as (Vw & Vs).
  destruct (side_value_number _ _ _ Vw) as (x & Hx).
  destruct (side_value_number _ _ _ Vs) as (y & Hy).
  unfold cell_of. rewrite HW, HS, HR.
  exists x, y, (- (x + y))%Q.
  split; [exact Hx|]. split; [exact Hy|].
  rewrite nth_map_cell by (rewrite length_zip_with; lia).
  rewrite nth_zip_with by lia. now rewrite Hx, Hy.
Qed.

(** ** The residual scenarios of a bundle *)



